(** * Signaling coordinator of the video chat room: model and properties

    A shallow embedding of the in-memory managers of the application
    ([src/models.py], [src/managers/connection_manager.py],
    [src/managers/room_manager.py], [src/managers/webrtc_manager.py],
    [src/managers/recording_manager.py]).

    Python objects are shared by reference.  The one place where the sharing
    is visible is [RoomManager.join_room], which keeps a local reference to a
    [Room] object across a call of [leave_room] that may delete that very
    object from the registry.  Rooms therefore live in an explicit store
    ([heap]) and the registry maps room identifiers to store locations.
    [User] and [RecordingSession] objects are only ever reached through the
    dictionary that owns them while they are mutated, so they are stored by
    value under their key. *)

From stdpp Require Import base option list gmap strings fin_maps pretty.
From Stdlib Require Import ZArith Lia Ascii SpecFloat.

Set Warnings "-clear-no-such-hyp".

(** ** Python values *)

(** Truthiness of a [str]: the empty string is falsy. *)
Definition truthy_str (s : string) : bool := negb (String.eqb s "").

(** Truthiness of an [Optional[str]]: [None] and [""] are falsy.  The code
    tests a user's room reference this way everywhere ([not user.room_id],
    [if user.room_id]). *)
Definition truthy (o : option string) : bool :=
  match o with
  | None => false
  | Some s => truthy_str s
  end.

(** [list.remove(x)]: removes the first occurrence of [x].  (Python raises
    [ValueError] when [x] is absent; every call in the code is guarded by a
    membership test, and the model returns the list unchanged.) *)
Fixpoint py_remove (x : string) (l : list string) : list string :=
  match l with
  | [] => []
  | y :: l' => if decide (x = y) then l' else y :: py_remove x l'
  end.

(** Outcome of a call: a returned value or a raised exception. *)
Inductive exn : Type :=
  | ValueError (msg : string)
  | OSError
  | ConnectionError
  | OverflowError.

Inductive outcome (A : Type) : Type :=
  | Returns (a : A)
  | Raises (e : exn).
Arguments Returns {A} a.
Arguments Raises {A} e.

(** ** Data model ([src/models.py]) *)

(** Messages the relay writes to a sink (the JSON objects of
    [handle_offer], [handle_answer], [handle_ice_candidate]; the payload
    fields are the results of [dict.get], hence optional). *)
Inductive Message : Type :=
  | MsgOffer (sdp : option string) (from_id : string)
  | MsgAnswer (sdp : option string) (from_id : string)
  | MsgIceCandidate (candidate : option string) (from_id : string)
  | MsgError (message : string).

(** The outbound sink of a session: [closed] is the flag the code reads,
    [sent] the frames written so far, [send_raises] whether [send_str]
    raises on this socket. *)
Module WebSocket.
Record t : Type := mk {
  closed : bool;
  send_raises : bool;
  sent : list Message
}.
Definition send_str (m : Message) (ws : t) : outcome t :=
  if send_raises ws then Raises ConnectionError
  else Returns (mk (closed ws) (send_raises ws) (sent ws ++ [m])).
End WebSocket.

(** The engine's peer-connection handle, a black box: its connection state
    and whether awaiting [close()] on it raises. *)
Inductive ConnectionState : Type :=
  | CSNew | CSConnecting | CSConnected | CSDisconnected | CSFailed | CSClosed.

Module RTCPeerConnection.
Record t : Type := mk {
  connectionState : ConnectionState;
  close_raises : bool
}.
(** [pc.connectionState not in ["closed", "failed"]] *)
Definition still_open (pc : t) : bool :=
  match connectionState pc with
  | CSClosed | CSFailed => false
  | _ => true
  end.
End RTCPeerConnection.

Module User.
Record t : Type := mk {
  id : string;
  websocket : WebSocket.t;
  room_id : option string;
  peer_connections : gmap string RTCPeerConnection.t
}.
Definition set_room_id (o : option string) (u : t) : t :=
  mk (id u) (websocket u) o (peer_connections u).
Definition set_peer_connections (m : gmap string RTCPeerConnection.t) (u : t) : t :=
  mk (id u) (websocket u) (room_id u) m.
Definition set_websocket (ws : WebSocket.t) (u : t) : t :=
  mk (id u) ws (room_id u) (peer_connections u).
End User.

Module Room.
Record t : Type := mk {
  id : string;
  users : list string;
  max_users : Z;
  session_id : string
}.
Definition set_users (l : list string) (r : t) : t :=
  mk (id r) l (max_users r) (session_id r).
(** [len(self.users) >= self.max_users] *)
Definition is_full (r : t) : bool :=
  (max_users r <=? Z.of_nat (length (users r)))%Z.
Definition user_count (r : t) : nat := length (users r).
End Room.

(** Timestamps are [datetime] values, which have microsecond resolution:
    they are integers counting microseconds, and a [timedelta] is their
    difference. *)
Module RecordingSession.
Record t : Type := mk {
  session_id : string;
  room_id : string;
  started_at : Z;
  ended_at : option Z;
  files : list string;
  status : string
}.
(** [duration], in microseconds ([total_seconds()] divides by 10^6). *)
Definition duration (r : t) : option Z :=
  match ended_at r with
  | Some e => Some (e - started_at r)%Z
  | None => None
  end.
Definition is_active (r : t) : bool :=
  String.eqb (status r) "active" && bool_decide (ended_at r = None).
Definition stop (now : Z) (st : string) (r : t) : t :=
  mk (session_id r) (room_id r) (started_at r) (Some now) (files r) st.
Definition set_status (st : string) (r : t) : t :=
  mk (session_id r) (room_id r) (started_at r) (ended_at r) (files r) st.
Definition add_file (f : string) (r : t) : t :=
  mk (session_id r) (room_id r) (started_at r) (ended_at r) (files r ++ [f]) (status r).
End RecordingSession.

(** ** Environment

    [MAX_USERS_PER_ROOM] is read from the process environment
    ([src/config.py], default 5); [uuid4 n] is the identifier that
    [Room.__post_init__] draws for the [n]-th room object created. *)
Class Env : Type := {
  MAX_USERS_PER_ROOM : Z;
  uuid4 : nat → string
}.

(** ** State of the registries

    [_connections] is [ConnectionManager._connections], [_rooms] is
    [RoomManager._rooms] (identifier to object reference) and [heap] holds
    the [Room] objects; a location is an index into [heap], and objects
    are never reclaimed. *)
Record State : Type := mkState {
  _connections : gmap string User.t;
  _rooms : gmap string nat;
  heap : list Room.t
}.

Definition init_state : State := mkState ∅ ∅ [].

Definition set_connections (c : gmap string User.t) (st : State) : State :=
  mkState c (_rooms st) (heap st).
Definition set_rooms (r : gmap string nat) (st : State) : State :=
  mkState (_connections st) r (heap st).
Definition set_heap (h : list Room.t) (st : State) : State :=
  mkState (_connections st) (_rooms st) h.

(** In-place mutation of the user object stored under [user_id]. *)
Definition update_user (user_id : string) (f : User.t → User.t) (st : State) : State :=
  set_connections (alter f user_id (_connections st)) st.

(** In-place mutation of the room object at location [l]. *)
Definition update_room (l : nat) (f : Room.t → Room.t) (st : State) : State :=
  set_heap (alter f l (heap st)) st.

(** ** ConnectionManager *)

Definition add_connection (user_id : string) (websocket : WebSocket.t) (st : State)
  : State * User.t :=
  let user := User.mk user_id websocket None ∅ in
  (set_connections (<[user_id := user]> (_connections st)) st, user).

(** [cleanup_user_resources] closes the handles and the socket of the user
    object, every failure being caught; the object is then dropped from the
    registry, so only the deletion shows in the state. *)
Definition remove_connection (user_id : string) (st : State) : State :=
  match _connections st !! user_id with
  | None => st
  | Some _ => set_connections (delete user_id (_connections st)) st
  end.

Definition get_user (st : State) (user_id : string) : option User.t :=
  _connections st !! user_id.

Definition get_all_users (st : State) : gmap string User.t := _connections st.

Definition is_user_connected (st : State) (user_id : string) : bool :=
  match get_user st user_id with
  | None => false
  | Some user => negb (WebSocket.closed (User.websocket user))
  end.

(** ** RoomManager *)

Section room_manager.
Context `{Env}.

(** Returns the reference stored under [room_id]. *)
Definition create_room (room_id : string) (max_users : Z) (st : State) : State * nat :=
  match _rooms st !! room_id with
  | None =>
      let l := length (heap st) in
      let room := Room.mk room_id [] max_users (uuid4 l) in
      (mkState (_connections st) (<[room_id := l]> (_rooms st)) (heap st ++ [room]), l)
  | Some l => (st, l)
  end.

Definition get_room (st : State) (room_id : string) : option Room.t :=
  l ← _rooms st !! room_id; heap st !! l.

Definition get_room_users (st : State) (room_id : string) : list string :=
  match get_room st room_id with
  | Some room => Room.users room
  | None => []
  end.

(** [self._rooms.copy()], each reference shown as the object it denotes. *)
Definition get_all_rooms (st : State) : gmap string Room.t :=
  omap (λ l, heap st !! l) (_rooms st).

Definition get_user_room_id (st : State) (user_id : string) : option string :=
  match get_user st user_id with
  | Some user => User.room_id user
  | None => None
  end.

Definition is_room_full (st : State) (room_id : string) : bool :=
  match get_room st room_id with
  | Some room => Room.is_full room
  | None => false
  end.

Definition leave_room (user_id : string) (st : State) : State * option string :=
  match get_user st user_id with
  | None => (st, None)
  | Some user =>
      if negb (truthy (User.room_id user)) then (st, None)
      else
        match User.room_id user with
        | None => (st, None)
        | Some room_id =>
            match _rooms st !! room_id with
            | Some l =>
                match heap st !! l with
                | Some room =>
                    if bool_decide (user_id ∈ Room.users room) then
                      let users' := py_remove user_id (Room.users room) in
                      let st1 := update_room l (Room.set_users users') st in
                      let st2 := update_user user_id (User.set_room_id None) st1 in
                      let st3 :=
                        match users' with
                        | [] => set_rooms (delete room_id (_rooms st2)) st2
                        | _ => st2
                        end in
                      (st3, Some room_id)
                    else (update_user user_id (User.set_room_id None) st, None)
                | None => (update_user user_id (User.set_room_id None) st, None)
                end
            | None => (update_user user_id (User.set_room_id None) st, None)
            end
        end
  end.

(** The local variable [room] is the location [l]: it is read again after
    [leave_room], whether or not the registry still holds it.  The two
    branches on a location without object stand for a dangling reference,
    which Python cannot have and which no well-formed state has. *)
Definition join_room (user_id room_id : string) (st : State) : State * bool :=
  match get_user st user_id with
  | None => (st, false)
  | Some _ =>
      let '(st1, l) := create_room room_id MAX_USERS_PER_ROOM st in
      match heap st1 !! l with
      | None => (st1, false)
      | Some room =>
          if Room.is_full room && negb (bool_decide (user_id ∈ Room.users room))
          then (st1, false)
          else
            let '(st2, old_room_id) := leave_room user_id st1 in
            match heap st2 !! l with
            | None => (st2, false)
            | Some room2 =>
                if bool_decide (user_id ∈ Room.users room2) then (st2, true)
                else
                  let st3 :=
                    update_room l (Room.set_users (Room.users room2 ++ [user_id])) st2 in
                  (update_user user_id (User.set_room_id (Some room_id)) st3, true)
            end
      end
  end.

Definition cleanup_room (room_id : string) (st : State) : State * bool :=
  match get_room st room_id with
  | None => (st, false)
  | Some room =>
      let users_to_remove := Room.users room in
      let st1 := foldl (λ s user_id, (leave_room user_id s).1) st users_to_remove in
      match _rooms st1 !! room_id with
      | Some _ => (set_rooms (delete room_id (_rooms st1)) st1, true)
      | None => (st1, false)
      end
  end.

End room_manager.

(** ** WebRTCManager *)

(** [create_peer_connection]: [new_pc] is the handle the engine constructs
    when a new one is needed. *)
Definition create_peer_connection (user_id target_id : string)
    (new_pc : RTCPeerConnection.t) (st : State)
  : State * outcome RTCPeerConnection.t :=
  match get_user st user_id with
  | None => (st, Raises (ValueError ("User " +:+ user_id +:+ " not found")))
  | Some user =>
      match User.peer_connections user !! target_id with
      | Some pc => (st, Returns pc)
      | None =>
          (update_user user_id
             (User.set_peer_connections (<[target_id := new_pc]> (User.peer_connections user)))
             st,
           Returns new_pc)
      end
  end.

(** One half of [cleanup_peer_connection]: the handle that [owner] holds
    for [peer] is closed unless already closed or failed, then deleted.  An
    exception of [close()] is caught by the enclosing [try], which skips
    the [del]. *)
Definition close_and_remove (owner peer : string) (st : State) : State :=
  match get_user st owner with
  | None => st
  | Some user =>
      match User.peer_connections user !! peer with
      | None => st
      | Some pc =>
          if RTCPeerConnection.still_open pc && RTCPeerConnection.close_raises pc
          then st
          else update_user owner
                 (λ u, User.set_peer_connections (delete peer (User.peer_connections u)) u) st
      end
  end.

Definition cleanup_peer_connection (user_id target_id : string) (st : State) : State :=
  close_and_remove target_id user_id (close_and_remove user_id target_id st).

(** [target_ids] is a snapshot of the keys of the user's own mapping. *)
Definition cleanup_all_user_connections (user_id : string) (st : State) : State :=
  match get_user st user_id with
  | None => st
  | Some user =>
      let target_ids := (map_to_list (User.peer_connections user)).*1 in
      foldl (λ s target_id, cleanup_peer_connection user_id target_id s) st target_ids
  end.

Definition get_user_connections (st : State) (user_id : string) : list string :=
  match get_user st user_id with
  | Some user => (map_to_list (User.peer_connections user)).*1
  | None => []
  end.

(** The common body of the three relay handlers: look the target up, drop
    the message when it is absent or its socket is closed, otherwise write
    the frame; an exception of [send_str] is caught and logged. *)
Definition forward (target_id : string) (message : Message) (st : State)
  : State * outcome unit :=
  match get_user st target_id with
  | None => (st, Returns ())
  | Some target_user =>
      if WebSocket.closed (User.websocket target_user) then (st, Returns ())
      else
        match WebSocket.send_str message (User.websocket target_user) with
        | Returns ws' => (update_user target_id (User.set_websocket ws') st, Returns ())
        | Raises _ => (st, Returns ())
        end
  end.

Definition handle_offer (user_id target_id : string) (offer_data : gmap string string)
    (st : State) : State * outcome unit :=
  forward target_id (MsgOffer (offer_data !! "sdp") user_id) st.

Definition handle_answer (user_id target_id : string) (answer_data : gmap string string)
    (st : State) : State * outcome unit :=
  forward target_id (MsgAnswer (answer_data !! "sdp") user_id) st.

Definition handle_ice_candidate (user_id target_id : string)
    (candidate_data : gmap string string) (st : State) : State * outcome unit :=
  forward target_id (MsgIceCandidate (candidate_data !! "candidate") user_id) st.

(** ** Message router ([src/video_app.py]), signaling events *)

Definition send_to_user (user_id : string) (message : Message) (st : State) : State * bool :=
  match get_user st user_id with
  | None => (st, false)
  | Some user =>
      if WebSocket.closed (User.websocket user) then (st, false)
      else
        match WebSocket.send_str message (User.websocket user) with
        | Returns ws' => (update_user user_id (User.set_websocket ws') st, true)
        | Raises _ => (st, false)
        end
  end.

Definition send_error (user_id : string) (error_message : string) (st : State) : State :=
  (send_to_user user_id (MsgError error_message) st).1.

Definition handle_webrtc_offer (user_id : string) (data : gmap string string) (st : State)
  : State * outcome unit :=
  if truthy (data !! "target_id") then
    match data !! "target_id" with
    | Some target_id => handle_offer user_id target_id data st
    | None => (st, Returns ())
    end
  else (send_error user_id "Missing target_id in offer" st, Returns ()).

Definition handle_webrtc_answer (user_id : string) (data : gmap string string) (st : State)
  : State * outcome unit :=
  if truthy (data !! "target_id") then
    match data !! "target_id" with
    | Some target_id => handle_answer user_id target_id data st
    | None => (st, Returns ())
    end
  else (send_error user_id "Missing target_id in answer" st, Returns ()).

Definition handle_ice_candidate_event (user_id : string) (data : gmap string string)
    (st : State) : State * outcome unit :=
  if truthy (data !! "target_id") then
    match data !! "target_id" with
    | Some target_id => handle_ice_candidate user_id target_id data st
    | None => (st, Returns ())
    end
  else (send_error user_id "Missing target_id in ICE candidate" st, Returns ()).

(** ** RecordingManager *)

Record RecState : Type := mkRec {
  _active_recordings : gmap string RecordingSession.t;
  _recording_history : gmap string RecordingSession.t
}.

Definition init_rec : RecState := mkRec ∅ ∅.

Section recording_manager.

(** [now] is the reading of [datetime.now()]; [mkdir_raises] tells whether
    the storage collaborator's [create_session_folder] raises. *)
Definition start_recording (room_id : string) (now : Z) (mkdir_raises : bool)
    (st : State) (rs : RecState) : RecState * outcome string :=
  match get_room st room_id with
  | None => (rs, Raises (ValueError ("Room " +:+ room_id +:+ " not found")))
  | Some room =>
      match _active_recordings rs !! room_id with
      | Some existing_session => (rs, Returns (RecordingSession.session_id existing_session))
      | None =>
          let recording :=
            RecordingSession.mk (Room.session_id room) room_id now None [] "active" in
          let rs1 :=
            mkRec (<[room_id := recording]> (_active_recordings rs)) (_recording_history rs) in
          if mkdir_raises then (rs1, Raises OSError)
          else (rs1, Returns (Room.session_id room))
      end
  end.

Definition stop_recording (room_id : string) (now : Z) (rs : RecState)
  : RecState * option RecordingSession.t :=
  match _active_recordings rs !! room_id with
  | None => (rs, None)
  | Some recording0 =>
      let recording := RecordingSession.stop now "stopped" recording0 in
      (mkRec (delete room_id (_active_recordings rs))
             (<[RecordingSession.session_id recording := recording]> (_recording_history rs)),
       Some recording)
  end.

Definition force_stop_recording (room_id reason : string) (now : Z) (rs : RecState)
  : RecState * option RecordingSession.t :=
  match _active_recordings rs !! room_id with
  | None => (rs, None)
  | Some recording0 =>
      let recording :=
        RecordingSession.stop now ("stopped (" +:+ reason +:+ ")") recording0 in
      (mkRec (delete room_id (_active_recordings rs))
             (<[RecordingSession.session_id recording := recording]> (_recording_history rs)),
       Some recording)
  end.

Definition cleanup_room_recording (room_id : string) (now : Z) (rs : RecState)
  : RecState * bool :=
  match _active_recordings rs !! room_id with
  | Some _ => ((force_stop_recording room_id "room deleted" now rs).1, true)
  | None => (rs, false)
  end.

Definition is_room_recording (rs : RecState) (room_id : string) : bool :=
  bool_decide (is_Some (_active_recordings rs !! room_id)).

Definition get_room_recording_session (rs : RecState) (room_id : string)
  : option RecordingSession.t :=
  _active_recordings rs !! room_id.

Definition get_active_recordings (rs : RecState) : gmap string RecordingSession.t :=
  _active_recordings rs.

Definition get_recording_duration (rs : RecState) (room_id : string) (now : Z) : option Z :=
  match _active_recordings rs !! room_id with
  | None => None
  | Some recording => Some (now - RecordingSession.started_at recording)%Z
  end.

(** The key under which an active recording with this folder identifier
    is stored, if any (the loop over [self._active_recordings.values()]). *)
Definition find_active (rs : RecState) (session_id : string) : option string :=
  fst <$> (snd <$> list_find
    (λ p : string * RecordingSession.t, RecordingSession.session_id p.2 = session_id)
    (map_to_list (_active_recordings rs))).

Definition get_recording_session (rs : RecState) (session_id : string)
  : option RecordingSession.t :=
  match find_active rs session_id with
  | Some k => _active_recordings rs !! k
  | None => _recording_history rs !! session_id
  end.

(** [os.path.basename] on a POSIX system: what follows the last slash of
    the path, the whole path when it has none.  [candidate] is what follows
    the last slash read so far. *)
Fixpoint after_last_slash (p candidate : string) : string :=
  match p with
  | EmptyString => candidate
  | String c rest =>
      if Ascii.eqb c "/"%char then after_last_slash rest rest
      else after_last_slash rest candidate
  end.

Definition basename (p : string) : string := after_last_slash p p.

(** [os.path.join] of two components on a POSIX system, as
    [StorageManager.save_file] builds the path of the stored file from the
    folder of the session and the name it gives the file. *)
Definition starts_with_slash (s : string) : bool :=
  match s with
  | String c _ => Ascii.eqb c "/"%char
  | EmptyString => false
  end.

Fixpoint ends_with_slash (s : string) : bool :=
  match s with
  | EmptyString => false
  | String c EmptyString => Ascii.eqb c "/"%char
  | String _ rest => ends_with_slash rest
  end.

Definition path_join (a b : string) : string :=
  if starts_with_slash b then b
  else if String.eqb a "" || ends_with_slash a then a +:+ b
  else a +:+ "/" +:+ b.

(** The name has no slash in it. *)
Fixpoint no_slash (s : string) : bool :=
  match s with
  | EmptyString => true
  | String c rest => negb (Ascii.eqb c "/"%char) && no_slash rest
  end.

(** [save_result] is what the storage collaborator's [save_file] does:
    it returns the path of the stored file, or raises.  The path is
    returned as it is; its base name goes to the file list. *)
Definition save_recording (session_id : string) (save_result : outcome string)
    (rs : RecState) : RecState * outcome string :=
  match save_result with
  | Returns filepath =>
      match find_active rs session_id with
      | Some k =>
          (mkRec (alter (RecordingSession.add_file (basename filepath)) k
                        (_active_recordings rs))
                 (_recording_history rs),
           Returns filepath)
      | None =>
          (mkRec (_active_recordings rs)
                 (alter (RecordingSession.add_file (basename filepath)) session_id
                        (_recording_history rs)),
           Returns filepath)
      end
  | Raises e =>
      match find_active rs session_id with
      | Some k =>
          (mkRec (alter (RecordingSession.set_status "error") k (_active_recordings rs))
                 (_recording_history rs),
           Raises e)
      | None => (rs, Raises e)
      end
  end.

(** A Python [float] is an IEEE 754 binary64 number ([spec_float] with a
    precision of 53 bits and exponents below 1024), and its operations
    round to nearest, ties to even.  [float_of_int] is the conversion of an
    integer, which gives an infinity beyond the largest float. *)
Definition float_of_int (z : Z) : spec_float := binary_normalize 53 1024 z 0 false.

(** The conversion of an [int] operand of a float operation: Python raises
    [OverflowError] where the rounded value is not finite. *)
Definition int_to_float (z : Z) : outcome spec_float :=
  match float_of_int z with
  | S754_infinity _ => Raises OverflowError
  | x => Returns x
  end.

(** [datetime.timestamp()] of a naive datetime [t], counted in microseconds
    of the wall clock from 1970-01-01 00:00:00: the POSIX seconds of its
    wall-clock second, as the C library's [local_to_seconds] gives them for
    the zone of the process (the identity under UTC), plus
    [microsecond / 1e6], in floats. *)
Definition timestamp (local_to_seconds : Z → Z) (t : Z) : spec_float :=
  SFadd 53 1024
    (float_of_int (local_to_seconds (t / 1000000)%Z))
    (SFdiv 53 1024 (float_of_int (t mod 1000000)%Z) (float_of_int 1000000)).

(** [cutoff_time] is [datetime.now().timestamp() - (days_old * 24 * 60 * 60)],
    a float minus an [int]; the comparison is the one of floats. *)
Definition cleanup_old_recordings (local_to_seconds : Z → Z) (days_old : Z) (now : Z)
    (rs : RecState) : RecState * outcome nat :=
  if (days_old <=? 0)%Z then (rs, Returns 0)
  else
    match int_to_float (days_old * 24 * 60 * 60)%Z with
    | Raises e => (rs, Raises e)
    | Returns seconds_old =>
        let cutoff_time := SFsub 53 1024 (timestamp local_to_seconds now) seconds_old in
        let sessions_to_remove :=
          (filter (λ p : string * RecordingSession.t,
                     Is_true match RecordingSession.ended_at p.2 with
                             | Some e => SFltb (timestamp local_to_seconds e) cutoff_time
                             | None => false
                             end)
                  (map_to_list (_recording_history rs))).*1 in
        (mkRec (_active_recordings rs)
               (foldl (λ h session_id, delete session_id h) (_recording_history rs)
                      sessions_to_remove),
         Returns (length sessions_to_remove))
    end.

End recording_manager.

(** * Vocabulary of the properties *)

(** ** Signaling relay *)

(** The target of a relay is unreachable: not registered, or registered
    with a closed socket. *)
Definition unreachable (st : State) (target_id : string) : Prop :=
  get_user st target_id = None ∨
  ∃ u, get_user st target_id = Some u ∧ WebSocket.closed (User.websocket u) = true.

(** ** Recording coordinator *)

(** States of the coordinator reachable through its operations, whatever
    the room registry holds at each call. *)
Inductive rec_reachable : RecState → Prop :=
  | rr_init : rec_reachable init_rec
  | rr_start rs room_id now mkdir_raises st :
      rec_reachable rs →
      rec_reachable (start_recording room_id now mkdir_raises st rs).1
  | rr_stop rs room_id now :
      rec_reachable rs → rec_reachable (stop_recording room_id now rs).1
  | rr_force_stop rs room_id reason now :
      rec_reachable rs → rec_reachable (force_stop_recording room_id reason now rs).1
  | rr_cleanup_room rs room_id now :
      rec_reachable rs → rec_reachable (cleanup_room_recording room_id now rs).1
  | rr_save rs session_id save_result :
      rec_reachable rs → rec_reachable (save_recording session_id save_result rs).1
  | rr_purge rs local_to_seconds days_old now :
      rec_reachable rs →
      rec_reachable (cleanup_old_recordings local_to_seconds days_old now rs).1.

(** Every active recording is stored under the room it records. *)
Definition keyed_by_room (rs : RecState) : Prop :=
  ∀ k r, _active_recordings rs !! k = Some r → RecordingSession.room_id r = k.


(** The operations that start and stop recordings, as data, to speak of
    sequences of them. *)
Inductive rec_op : Type :=
  | OpStart (room_id : string) (now : Z) (mkdir_raises : bool) (st : State)
  | OpStop (room_id : string) (now : Z)
  | OpForceStop (room_id reason : string) (now : Z).

Definition run_rec_op (op : rec_op) (rs : RecState) : RecState :=
  match op with
  | OpStart room_id now mkdir_raises st => (start_recording room_id now mkdir_raises st rs).1
  | OpStop room_id now => (stop_recording room_id now rs).1
  | OpForceStop room_id reason now => (force_stop_recording room_id reason now rs).1
  end.

Definition run_rec_ops (ops : list rec_op) (rs : RecState) : RecState :=
  foldl (λ s op, run_rec_op op s) rs ops.

(** The folder identifier of the recording that [op] stops, if it stops one. *)
Definition stopped_folder (op : rec_op) (rs : RecState) : option string :=
  match op with
  | OpStart _ _ _ _ => None
  | OpStop room_id _ | OpForceStop room_id _ _ =>
      RecordingSession.session_id <$> _active_recordings rs !! room_id
  end.

(** ** Peer links *)

(** The handle that session [owner] holds for [peer], if any. *)
Definition link (st : State) (owner peer : string) : option RTCPeerConnection.t :=
  u ← get_user st owner; User.peer_connections u !! peer.

(** No session holds a handle keyed by [x]. *)
Definition no_link_to (st : State) (x : string) : Prop :=
  ∀ owner, link st owner x = None.

(** Closing the handle does not raise (it is already closed or failed, or
    its [close()] succeeds). *)
Definition closes_cleanly (pc : RTCPeerConnection.t) : Prop :=
  RTCPeerConnection.still_open pc && RTCPeerConnection.close_raises pc = false.

Definition all_close_cleanly (st : State) : Prop :=
  ∀ owner peer pc, link st owner peer = Some pc → closes_cleanly pc.

(** What is left of an entry once its handle has been closed and deleted:
    nothing, unless [close()] raises, which skips the deletion. *)
Definition after_close (entry : option RTCPeerConnection.t) : option RTCPeerConnection.t :=
  pc ← entry;
  if RTCPeerConnection.still_open pc && RTCPeerConnection.close_raises pc
  then Some pc else None.

(** ** A concrete environment and concrete states for examples *)

Definition default_env : Env :=
  {| MAX_USERS_PER_ROOM := 5; uuid4 := λ n, "room-session-" +:+ pretty n |}.

Definition open_socket : WebSocket.t := WebSocket.mk false false [].

Definition fresh_handle : RTCPeerConnection.t := RTCPeerConnection.mk CSNew false.

(** Two sessions, [Y] holding a handle for [X] and [X] holding none. *)
Definition one_way_link_state : State :=
  let st1 := (add_connection "X" open_socket init_state).1 in
  let st2 := (add_connection "Y" open_socket st1).1 in
  (create_peer_connection "Y" "X" fresh_handle st2).1.

(** A handle whose [close()] raises. *)
Definition stuck_handle : RTCPeerConnection.t := RTCPeerConnection.mk CSNew true.

(** Two sessions with a handle for each other; the one of [X] closes, the
    one of [Y] raises when it is closed. *)
Definition stuck_mirror_state : State :=
  let st1 := (add_connection "X" open_socket init_state).1 in
  let st2 := (add_connection "Y" open_socket st1).1 in
  let st3 := (create_peer_connection "X" "Y" fresh_handle st2).1 in
  (create_peer_connection "Y" "X" stuck_handle st3).1.

(** ** Rooms *)

(** The state [leave_room] builds when it removes [user_id] from the room
    object at [l], registered under [room_id], whose members were [users]. *)
Definition after_removal (user_id room_id : string) (l : nat) (users : list string)
    (st : State) : State :=
  mkState (alter (User.set_room_id None) user_id (_connections st))
          (match py_remove user_id users with
           | [] => delete room_id (_rooms st)
           | _ => _rooms st
           end)
          (alter (Room.set_users (py_remove user_id users)) l (heap st)).

(** [user_id] is the only member of the room registered under [room_id]. *)
Definition only_member (st : State) (user_id room_id : string) : Prop :=
  ∃ room, get_room st room_id = Some room ∧ Room.users room = [user_id].

(** Session [S] alone in room [R]; then [T] joins as well. *)
Definition solo_room_state : State :=
  (@join_room default_env "S" "R" (add_connection "S" open_socket init_state).1).1.

Definition two_member_state : State :=
  (@join_room default_env "T" "R" (add_connection "T" open_socket solo_room_state).1).1.

(** The state after [S], the only member of [R], joins [R] once more. *)
Definition rejoined_state : State := (@join_room default_env "S" "R" solo_room_state).1.

(** The recording of room [R] started at 0 and stopped at 10. *)
Definition recorded_once : RecState :=
  (stop_recording "R" 10 (start_recording "R" 0 false solo_room_state init_rec).1).1.

(** Every reference in the registry denotes an object of the store, and
    no object is registered under two identifiers. *)
Definition wf_rooms (st : State) : Prop :=
  (∀ R l, _rooms st !! R = Some l → l < length (heap st)) ∧
  (∀ R1 R2 l, _rooms st !! R1 = Some l → _rooms st !! R2 = Some l → R1 = R2).

(** Every registered room has at most [max_users] members. *)
Definition within_capacity (st : State) : Prop :=
  ∀ R room, get_room st R = Some room →
    (Z.of_nat (length (Room.users room)) ≤ Room.max_users room)%Z.

(** From [st] to [st'] rooms were only unregistered and members only
    removed. *)
Definition shrinks (st st' : State) : Prop :=
  (∀ R l, _rooms st' !! R = Some l → _rooms st !! R = Some l) ∧
  length (heap st') = length (heap st) ∧
  (∀ l room', heap st' !! l = Some room' →
     ∃ room, heap st !! l = Some room ∧
       Room.max_users room' = Room.max_users room ∧
       sublist (Room.users room') (Room.users room)).

Section reachability.
Context `{Env}.

(** States reachable through the operations of the three managers that
    share the registries; rooms created directly get a non-negative
    capacity. *)
Inductive reachable : State → Prop :=
  | reach_init : reachable init_state
  | reach_add_connection st user_id ws :
      reachable st → reachable (add_connection user_id ws st).1
  | reach_remove_connection st user_id :
      reachable st → reachable (remove_connection user_id st)
  | reach_create_room st room_id max_users :
      (0 ≤ max_users)%Z → reachable st → reachable (create_room room_id max_users st).1
  | reach_join_room st user_id room_id :
      reachable st → reachable (join_room user_id room_id st).1
  | reach_leave_room st user_id :
      reachable st → reachable (leave_room user_id st).1
  | reach_cleanup_room st room_id :
      reachable st → reachable (cleanup_room room_id st).1
  | reach_create_peer_connection st user_id target_id pc :
      reachable st → reachable (create_peer_connection user_id target_id pc st).1
  | reach_cleanup_peer_connection st user_id target_id :
      reachable st → reachable (cleanup_peer_connection user_id target_id st)
  | reach_cleanup_all_user_connections st user_id :
      reachable st → reachable (cleanup_all_user_connections user_id st)
  | reach_handle_offer st user_id target_id data :
      reachable st → reachable (handle_offer user_id target_id data st).1
  | reach_handle_answer st user_id target_id data :
      reachable st → reachable (handle_answer user_id target_id data st).1
  | reach_handle_ice_candidate st user_id target_id data :
      reachable st → reachable (handle_ice_candidate user_id target_id data st).1
  | reach_send_to_user st user_id message :
      reachable st → reachable (send_to_user user_id message st).1.

End reachability.

(** The step from [st] to [st'] touched neither the registry of rooms nor
    any room object. *)
Definition same_rooms (st st' : State) : Prop :=
  _rooms st' = _rooms st ∧ heap st' = heap st.

(** ** Consistency of room references *)

(** A registered session's room reference is [R] exactly when [R] is a
    registered room that lists the session. *)
Definition room_refs_consistent (st : State) : Prop :=
  ∀ user_id u, get_user st user_id = Some u →
    ∀ R, User.room_id u = Some R ↔
         ∃ room, get_room st R = Some room ∧ user_id ∈ Room.users room.

(** No room lists a session twice. *)
Definition nodup_members (st : State) : Prop :=
  ∀ R room, get_room st R = Some room → NoDup (Room.users room).

(** No room reference is the empty string. *)
Definition refs_nonempty (st : State) : Prop :=
  ∀ user_id u R, get_user st user_id = Some u → User.room_id u = Some R → R ≠ "".

Definition registry_invariant (st : State) : Prop :=
  wf_rooms st ∧ nodup_members st ∧ refs_nonempty st ∧ room_refs_consistent st.

(** [user_id] is neither registered nor listed by any room. *)
Definition unused_identifier (st : State) (user_id : string) : Prop :=
  get_user st user_id = None ∧
  ∀ R room, get_room st R = Some room → user_id ∉ Room.users room.

Section registry_reachability.
Context `{Env}.

(** States reachable through register, join, leave, unregister and forced
    cleanup, with any arguments. *)
Inductive registry_reachable : State → Prop :=
  | rr_initial : registry_reachable init_state
  | rr_register st user_id ws :
      registry_reachable st → registry_reachable (add_connection user_id ws st).1
  | rr_unregister st user_id :
      registry_reachable st → registry_reachable (remove_connection user_id st)
  | rr_join st user_id room_id :
      registry_reachable st → registry_reachable (join_room user_id room_id st).1
  | rr_leave st user_id :
      registry_reachable st → registry_reachable (leave_room user_id st).1
  | rr_force_cleanup st room_id :
      registry_reachable st → registry_reachable (cleanup_room room_id st).1.

(** The same operations used as designed: a session is registered under an
    identifier that is not in use, rooms are named by non-empty
    identifiers, and the only member of a room does not join it again. *)
Inductive orderly_reachable : State → Prop :=
  | or_initial : orderly_reachable init_state
  | or_register st user_id ws :
      orderly_reachable st → unused_identifier st user_id →
      orderly_reachable (add_connection user_id ws st).1
  | or_unregister st user_id :
      orderly_reachable st → orderly_reachable (remove_connection user_id st)
  | or_join st user_id room_id :
      orderly_reachable st → room_id ≠ "" → ¬ only_member st user_id room_id →
      orderly_reachable (join_room user_id room_id st).1
  | or_leave st user_id :
      orderly_reachable st → orderly_reachable (leave_room user_id st).1
  | or_force_cleanup st room_id :
      orderly_reachable st → orderly_reachable (cleanup_room room_id st).1.

End registry_reachability.

(** [S] registers, joins [R], and registers again under the same
    identifier. *)
Definition reregistered_state : State :=
  (add_connection "S" open_socket solo_room_state).1.

(** [S] joins the room named by the empty string, then room [B]. *)
Definition empty_name_state : State :=
  (@join_room default_env "S" "B"
     (@join_room default_env "S" "" (add_connection "S" open_socket init_state).1).1).1.

(** [S] registers and joins the room named by the empty string; then that
    room is force-cleaned. *)
Definition unnamed_room_state : State :=
  (@join_room default_env "S" "" (add_connection "S" open_socket init_state).1).1.

Definition unnamed_room_cleaned_state : State :=
  (cleanup_room "" unnamed_room_state).1.

(** An environment with rooms of capacity two. *)
Definition pair_env : Env :=
  {| MAX_USERS_PER_ROOM := 2; uuid4 := λ n, "room-session-" +:+ pretty n |}.

(** Three registered sessions, none in a room. *)
Definition three_sessions : State :=
  (add_connection "S3" open_socket
     (add_connection "S2" open_socket
        (add_connection "S1" open_socket init_state).1).1).1.


(** * Further vocabulary *)

(** Every member of the list is a registered session. *)
Definition all_registered (st : State) (users : list string) : Prop :=
  ∀ user_id, user_id ∈ users → is_Some (get_user st user_id).

(** ** Message router, notifications ([src/video_app.py]) *)

(** [broadcast_to_room]: the frame goes to every identifier of a snapshot of
    the room's member list, except [exclude], whose session is registered
    with an open socket; an exception of [send_str] is caught.  [exclude]
    is an [Optional[str]], and [user_id != None] holds for every member. *)
Definition broadcast_to_room (room_id : string) (message : Message)
    (exclude : option string) (st : State) : State :=
  let room_users := get_room_users st room_id in
  foldl (λ s user_id,
           if decide (Some user_id = exclude) then s
           else
             match get_user s user_id with
             | None => s
             | Some user =>
                 if WebSocket.closed (User.websocket user) then s
                 else
                   match WebSocket.send_str message (User.websocket user) with
                   | Returns ws' => update_user user_id (User.set_websocket ws') s
                   | Raises _ => s
                   end
             end)
        st room_users.

(** What a successful write does to a session: the frame is added to the
    frames sent on its socket. *)
Definition with_frame (message : Message) (user : User.t) : User.t :=
  User.set_websocket
    (WebSocket.mk (WebSocket.closed (User.websocket user))
                  (WebSocket.send_raises (User.websocket user))
                  (WebSocket.sent (User.websocket user) ++ [message]))
    user.

(** The socket of the session takes frames: it is open and its [send_str]
    does not raise. *)
Definition writable (user : User.t) : bool :=
  negb (WebSocket.closed (User.websocket user)) &&
  negb (WebSocket.send_raises (User.websocket user)).

(** A frame written to [user] if its socket takes it. *)
Definition deliver (message : Message) (user : User.t) : User.t :=
  if writable user then with_frame message user else user.

(** ** Further vocabulary of the recording coordinator *)

(** At most one active recording carries the folder identifier
    [session_id]. *)
Definition unique_active_folder (rs : RecState) (session_id : string) : Prop :=
  ∀ k1 k2 r1 r2, _active_recordings rs !! k1 = Some r1 → _active_recordings rs !! k2 = Some r2 →
    RecordingSession.session_id r1 = session_id →
    RecordingSession.session_id r2 = session_id → k1 = k2.

(** No active recording carries the folder identifier [session_id]. *)
Definition no_active_folder (rs : RecState) (session_id : string) : Prop :=
  ∀ k r, _active_recordings rs !! k = Some r → RecordingSession.session_id r ≠ session_id.

(** Every stopped recording is stored under its own folder identifier. *)
Definition history_keyed_by_folder (rs : RecState) : Prop :=
  ∀ k r, _recording_history rs !! k = Some r → RecordingSession.session_id r = k.

(** The test of the purge: the recording has ended, and the timestamp of
    its end is less than [cutoff_time], as floats compare. *)
Definition ended_before (local_to_seconds : Z → Z) (cutoff_time : spec_float)
    (r : RecordingSession.t) : bool :=
  match RecordingSession.ended_at r with
  | Some e => SFltb (timestamp local_to_seconds e) cutoff_time
  | None => false
  end.

(** The conversion of wall-clock seconds of a process that runs in UTC. *)
Definition utc : Z → Z := λ s, s.

(** ** Further operations of the managers *)

(** [ConnectionManager.get_users_in_room]: the sessions whose room
    reference equals [room_id]. *)
Definition get_users_in_room (st : State) (room_id : string) : gmap string User.t :=
  filter (λ p : string * User.t, User.room_id p.2 = Some room_id) (_connections st).

(** ** Teardown of a connection ([VideoChatApplication.cleanup_user]) *)

(** The registries together with the recording coordinator. *)
Record App : Type := mkApp {
  registries : State;
  recordings : RecState
}.

(** [cleanup_user]: leave the room and tell the remaining members, stop
    the recording if the room is gone, close the session's peer links,
    unregister the session.  [user_left] builds the frame of the
    notification, a JSON object that the model does not look into; [now] is
    the clock reading of a forced stop.  No step raises, so the enclosing
    [try] has nothing to catch. *)
Definition cleanup_user (user_left : string → Message) (user_id : string) (now : Z)
    (app : App) : App :=
  let '(st1, old_room_id) := leave_room user_id (registries app) in
  let '(st2, rs2) :=
    if truthy old_room_id then
      match old_room_id with
      | Some old =>
          let st2 := broadcast_to_room old (user_left user_id) (Some user_id) st1 in
          match get_room st2 old with
          | None => (st2, (cleanup_room_recording old now (recordings app)).1)
          | Some _ => (st2, recordings app)
          end
      | None => (st1, recordings app)
      end
    else (st1, recordings app) in
  let st3 := cleanup_all_user_connections user_id st2 in
  mkApp (remove_connection user_id st3) rs2.

(** ** Message router, recording requests ([src/video_app.py]) *)

Section recording_requests.

(** The frames of the notifications, JSON objects that the model does not
    look into: [recording_started session_id room_id], the two
    [recording_status] frames, and [recording_stopped], which like the
    second status frame is built from the stopped recording (its
    identifier and duration). *)
Variables (recording_started : string → string → Message)
          (recording_status_started : string → Message)
          (recording_stopped : RecordingSession.t → Message)
          (recording_status_stopped : RecordingSession.t → Message).

(** [handle_start_recording]: only [ValueError] is caught here; what the
    storage collaborator raises goes on to the caller.  [user.room_id] is
    read again after the first frame is written, which does not change
    it. *)
Definition handle_start_recording (user_id : string) (now : Z) (mkdir_raises : bool)
    (app : App) : App * outcome unit :=
  let st := registries app in
  let refuse :=
    (mkApp (send_error user_id "Must be in a room to start recording" st) (recordings app),
     Returns ()) in
  match get_user st user_id with
  | None => refuse
  | Some user =>
      if truthy (User.room_id user) then
        match User.room_id user with
        | Some room_id =>
            match start_recording room_id now mkdir_raises st (recordings app) with
            | (rs1, Returns session_id) =>
                let st1 := (send_to_user user_id (recording_started session_id room_id) st).1 in
                let st2 :=
                  broadcast_to_room room_id (recording_status_started session_id) None st1 in
                (mkApp st2 rs1, Returns ())
            | (rs1, Raises (ValueError msg)) => (mkApp (send_error user_id msg st) rs1, Returns ())
            | (rs1, Raises e) => (mkApp st rs1, Raises e)
            end
        | None => refuse
        end
      else refuse
  end.

(** [handle_stop_recording]. *)
Definition handle_stop_recording (user_id : string) (now : Z) (app : App) : App :=
  let st := registries app in
  let refuse :=
    mkApp (send_error user_id "Must be in a room to stop recording" st) (recordings app) in
  match get_user st user_id with
  | None => refuse
  | Some user =>
      if truthy (User.room_id user) then
        match User.room_id user with
        | Some room_id =>
            match stop_recording room_id now (recordings app) with
            | (rs1, Some recording) =>
                let st1 := (send_to_user user_id (recording_stopped recording) st).1 in
                mkApp (broadcast_to_room room_id (recording_status_stopped recording) None st1)
                      rs1
            | (rs1, None) => mkApp (send_error user_id "No active recording found" st) rs1
            end
        | None => refuse
        end
      else refuse
  end.

End recording_requests.

(** From [st] to [st'] neither the rooms nor any session's registration or
    room reference changed. *)
Definition same_membership (st st' : State) : Prop :=
  same_rooms st st' ∧
  ∀ user_id, User.room_id <$> get_user st' user_id = User.room_id <$> get_user st user_id.

(** The fields of a room object that are fixed at its creation. *)
Definition same_identity (room room' : Room.t) : Prop :=
  Room.id room' = Room.id room ∧
  Room.max_users room' = Room.max_users room ∧
  Room.session_id room' = Room.session_id room.

(** From [st] to [st'] no room object was dropped and none changed a field
    fixed at its creation. *)
Definition identity_kept (st st' : State) : Prop :=
  length (heap st) ≤ length (heap st') ∧
  ∀ l room room', heap st !! l = Some room → heap st' !! l = Some room' →
    same_identity room room'.

(** From [st] to [st'] no room identifier was bound to another object. *)
Definition rooms_not_rebound (st st' : State) : Prop :=
  ∀ R l l', _rooms st !! R = Some l → _rooms st' !! R = Some l' → l' = l.

(** No room object lists a session twice. *)
Definition heap_nodup (st : State) : Prop :=
  ∀ l room, heap st !! l = Some room → NoDup (Room.users room).

(** Every room is registered under the identifier it carries. *)
Definition ids_match (st : State) : Prop :=
  ∀ R l room, _rooms st !! R = Some l → heap st !! l = Some room → Room.id room = R.

(** ** [WebSocketMessage] ([src/models.py]) *)

(** A message is a JSON object; [V] is the type of JSON values and [str]
    the embedding of strings into it.  [timestamp] is the ISO form of the
    creation time. *)
Module WebSocketMessage.
Section json.
Context {V : Type} (str : string → V).

Record t : Type := mk {
  type : V;
  data : gmap string V;
  user_id : string;
  timestamp : string
}.

(** [from_json]: [data.pop("type", "unknown")], the rest of the object
    being the message's data; [now] is the ISO form of [datetime.now()]. *)
Definition from_json (d : gmap string V) (uid : string) (now : string) : t :=
  mk (default (str "unknown") (d !! "type")) (delete "type" d) uid now.

(** [to_json]: [{"type": ..., "timestamp": ..., **self.data}]; an entry of
    the data overrides the one written before it. *)
Definition to_json (m : t) : gmap string V :=
  data m ∪ <["type" := type m]> (<["timestamp" := str (timestamp m)]> ∅).

End json.
End WebSocketMessage.

(** An environment whose configured capacity is zero. *)
Definition zero_env : Env :=
  {| MAX_USERS_PER_ROOM := 0; uuid4 := λ n, "room-session-" +:+ pretty n |}.

(** * Properties *)

(** ** Signaling relay *)

Lemma forward_unreachable target_id message st :
  unreachable st target_id → forward target_id message st = (st, Returns ()).
Proof.
  unfold forward. intros [Hnone | (u & Hu & Hclosed)].
  - by rewrite Hnone.
  - by rewrite Hu, Hclosed.
Qed.

(** C8. A relay of an offer, an answer or an ICE candidate whose target is
    not registered or has a closed socket returns normally and leaves the
    whole state as it was: no frame is written to any socket (the frames
    sent are part of the state), so nothing reaches any session and no
    error reaches the sender.  The same holds for the router's three
    signaling events when the event carries a non-empty target identifier. *)
Theorem relay_to_unreachable_target_is_dropped
    (user_id target_id : string) (data : gmap string string) (st : State) :
  unreachable st target_id →
  (handle_offer user_id target_id data st = (st, Returns ()) ∧
   handle_answer user_id target_id data st = (st, Returns ()) ∧
   handle_ice_candidate user_id target_id data st = (st, Returns ())) ∧
  (data !! "target_id" = Some target_id → target_id ≠ "" →
   handle_webrtc_offer user_id data st = (st, Returns ()) ∧
   handle_webrtc_answer user_id data st = (st, Returns ()) ∧
   handle_ice_candidate_event user_id data st = (st, Returns ())).
Proof.
  intros Hun. split.
  - unfold handle_offer, handle_answer, handle_ice_candidate.
    by rewrite !forward_unreachable.
  - intros Hdata Hne.
    assert (Htruthy : truthy (Some target_id) = true).
    { unfold truthy, truthy_str. apply negb_true_iff, String.eqb_neq. exact Hne. }
    unfold handle_webrtc_offer, handle_webrtc_answer, handle_ice_candidate_event.
    rewrite Hdata, Htruthy.
    unfold handle_offer, handle_answer, handle_ice_candidate.
    by rewrite !forward_unreachable.
Qed.

(** ** Recording coordinator *)

Lemma keyed_by_room_alter f k rs hist :
  (∀ r, RecordingSession.room_id (f r) = RecordingSession.room_id r) →
  keyed_by_room rs →
  keyed_by_room (mkRec (alter f k (_active_recordings rs)) hist).
Proof.
  intros Hf Hrs k' r'. simpl. rewrite lookup_alter.
  case_decide as Hk; [subst k'|by apply Hrs].
  destruct (_active_recordings rs !! k) as [r|] eqn:E; simpl; [|done].
  intros [= <-]. rewrite Hf. by apply Hrs.
Qed.

Lemma keyed_by_room_delete k rs hist :
  keyed_by_room rs → keyed_by_room (mkRec (delete k (_active_recordings rs)) hist).
Proof.
  intros Hrs k' r'. simpl. intros Hl.
  apply lookup_delete_Some in Hl as [_ Hl]. by apply Hrs.
Qed.

Lemma rec_reachable_keyed_by_room rs : rec_reachable rs → keyed_by_room rs.
Proof.
  induction 1 as [|rs room_id now mk st _ IH|rs room_id now _ IH
                  |rs room_id reason now _ IH|rs room_id now _ IH
                  |rs session_id res _ IH|rs local_to_seconds days now _ IH].
  - intros k r. simpl. by rewrite lookup_empty.
  - unfold start_recording.
    destruct (get_room st room_id) as [room|]; [|done].
    destruct (_active_recordings rs !! room_id) as [ex|] eqn:E; [done|].
    assert (keyed_by_room
              (mkRec (<[room_id := RecordingSession.mk (Room.session_id room) room_id
                                     now None [] "active"]> (_active_recordings rs))
                     (_recording_history rs))) as Hk.
    { intros k r. simpl. rewrite lookup_insert. case_decide as Hk.
      - subst k. by intros [= <-].
      - by apply IH. }
    by destruct mk.
  - unfold stop_recording.
    destruct (_active_recordings rs !! room_id); [|done]. by apply keyed_by_room_delete.
  - unfold force_stop_recording.
    destruct (_active_recordings rs !! room_id); [|done]. by apply keyed_by_room_delete.
  - unfold cleanup_room_recording, force_stop_recording.
    destruct (_active_recordings rs !! room_id); [|done]. by apply keyed_by_room_delete.
  - unfold save_recording.
    destruct res as [fp|e]; destruct (find_active rs session_id) as [k|]; simpl; try done.
    + by apply keyed_by_room_alter.
    + by apply keyed_by_room_alter.
  - unfold cleanup_old_recordings. destruct (days <=? 0)%Z; [done|].
    by destruct (int_to_float (days * 24 * 60 * 60)).
Qed.

(** C5. [start_recording] raises [ValueError] (room not found) when the
    room does not exist; with the room present and a recording already
    active it returns that recording's folder identifier and changes
    nothing; a second start after a start that returned gives the same
    identifier and leaves the state of the first; and in every reachable
    state two active entries for the same room are one and the same. *)
Theorem start_recording_idempotent
    (room_id : string) (now now' : Z) (mkdir_raises mkdir_raises' : bool)
    (st : State) (rs : RecState) :
  (get_room st room_id = None →
   start_recording room_id now mkdir_raises st rs
     = (rs, Raises (ValueError ("Room " +:+ room_id +:+ " not found")))) ∧
  (∀ existing, is_Some (get_room st room_id) →
     _active_recordings rs !! room_id = Some existing →
     start_recording room_id now mkdir_raises st rs
       = (rs, Returns (RecordingSession.session_id existing))) ∧
  (∀ rs1 folder_id st', start_recording room_id now mkdir_raises st rs
                            = (rs1, Returns folder_id) →
     is_Some (get_room st' room_id) →
     start_recording room_id now' mkdir_raises' st' rs1 = (rs1, Returns folder_id)) ∧
  (rec_reachable rs →
   ∀ k1 k2 r1 r2, _active_recordings rs !! k1 = Some r1 →
     _active_recordings rs !! k2 = Some r2 →
     RecordingSession.room_id r1 = RecordingSession.room_id r2 →
     k1 = k2 ∧ r1 = r2).
Proof.
  split; [|split; [|split]].
  - intros Hnone. unfold start_recording. by rewrite Hnone.
  - intros existing [room Hroom] Hact. unfold start_recording. by rewrite Hroom, Hact.
  - intros rs1 folder_id st' Hfirst [room' Hroom'].
    unfold start_recording in *. rewrite Hroom'.
    destruct (get_room st room_id) as [room|]; [|done].
    destruct (_active_recordings rs !! room_id) as [ex|] eqn:E.
    + injection Hfirst as <- <-. by rewrite E.
    + destruct mkdir_raises; [done|]. injection Hfirst as <- <-. simpl.
      by rewrite lookup_insert_eq.
  - intros Hreach k1 k2 r1 r2 H1 H2 Heq.
    pose proof (rec_reachable_keyed_by_room rs Hreach) as Hk.
    assert (k1 = k2) as -> by (rewrite <- (Hk _ _ H1), <- (Hk _ _ H2); done).
    split; [done|]. congruence.
Qed.

(** C6, amended.  [stop_recording] returns [None] and changes nothing when
    no recording is active for the room.  Otherwise the recording gets the
    end timestamp [now] and the status ["stopped"], leaves the active set,
    is stored in the history under its folder identifier and is returned;
    its duration is defined and equal to [now] minus the start timestamp,
    two readings of the wall clock: it is non-negative exactly when the
    reading at the stop is not earlier than the reading at the start; and
    a second stop right after returns [None]. *)
Theorem stop_recording_moves_to_history (room_id : string) (now now' : Z) (rs : RecState) :
  (_active_recordings rs !! room_id = None →
   stop_recording room_id now rs = (rs, None)) ∧
  (∀ rec, _active_recordings rs !! room_id = Some rec →
     ∃ rs' rec', stop_recording room_id now rs = (rs', Some rec') ∧
       RecordingSession.ended_at rec' = Some now ∧
       RecordingSession.status rec' = "stopped" ∧
       RecordingSession.session_id rec' = RecordingSession.session_id rec ∧
       RecordingSession.room_id rec' = RecordingSession.room_id rec ∧
       RecordingSession.started_at rec' = RecordingSession.started_at rec ∧
       RecordingSession.files rec' = RecordingSession.files rec ∧
       _active_recordings rs' = delete room_id (_active_recordings rs) ∧
       _active_recordings rs' !! room_id = None ∧
       _recording_history rs'
         = <[RecordingSession.session_id rec := rec']> (_recording_history rs) ∧
       _recording_history rs' !! RecordingSession.session_id rec = Some rec' ∧
       RecordingSession.duration rec'
         = Some (now - RecordingSession.started_at rec)%Z ∧
       (∃ d, RecordingSession.duration rec' = Some d ∧
          ((0 ≤ d)%Z ↔ (RecordingSession.started_at rec ≤ now)%Z)) ∧
       stop_recording room_id now' rs' = (rs', None)).
Proof.
  split.
  - intros Hnone. unfold stop_recording. by rewrite Hnone.
  - intros rec Hrec. unfold stop_recording at 1. rewrite Hrec.
    eexists _, _. split; [reflexivity|]. simpl.
    split_and!; try reflexivity.
    + apply lookup_delete_eq.
    + apply lookup_insert_eq.
    + eexists. split; [reflexivity|]. simpl. lia.
    + unfold stop_recording. simpl. by rewrite lookup_delete_eq.
Qed.


(** *** History of recordings *)

Lemma run_rec_op_history_step (op : rec_op) (rs : RecState) (k : string) :
  stopped_folder op rs ≠ Some k →
  _recording_history (run_rec_op op rs) !! k = _recording_history rs !! k.
Proof.
  destruct op as [room_id now mk st|room_id now|room_id reason now]; simpl.
  - intros _. unfold start_recording.
    destruct (get_room st room_id); [|done].
    destruct (_active_recordings rs !! room_id); [done|]. by destruct mk.
  - unfold stop_recording.
    destruct (_active_recordings rs !! room_id) as [rec|]; simpl; [|done].
    intros Hne. apply lookup_insert_ne. congruence.
  - unfold force_stop_recording.
    destruct (_active_recordings rs !! room_id) as [rec|]; simpl; [|done].
    intros Hne. apply lookup_insert_ne. congruence.
Qed.

Lemma run_rec_op_history_key (op : rec_op) (rs : RecState) (k : string) :
  is_Some (_recording_history rs !! k) →
  is_Some (_recording_history (run_rec_op op rs) !! k).
Proof.
  intros Hk.
  destruct (decide (stopped_folder op rs = Some k)) as [Heq|Hne].
  - destruct op as [room_id now mk st|room_id now|room_id reason now]; simpl in *;
      [done| |].
    + unfold stop_recording.
      destruct (_active_recordings rs !! room_id) as [rec|]; simpl in *; [|done].
      injection Heq as <-. rewrite lookup_insert_eq. by eexists.
    + unfold force_stop_recording.
      destruct (_active_recordings rs !! room_id) as [rec|]; simpl in *; [|done].
      injection Heq as <-. rewrite lookup_insert_eq. by eexists.
  - by rewrite run_rec_op_history_step.
Qed.

(** C7, amended.  No sequence of start, stop and forced stop removes a
    folder identifier from the history: an identifier that has an entry
    keeps having one.  A single operation leaves the entry under [k] as it
    was unless it stops a recording whose folder identifier is [k], in
    which case the stopped recording takes the place of the stored one. *)
Theorem history_keys_survive_start_stop (ops : list rec_op) (rs : RecState) :
  (∀ k, is_Some (_recording_history rs !! k) →
        is_Some (_recording_history (run_rec_ops ops rs) !! k)) ∧
  (∀ op k, stopped_folder op rs ≠ Some k →
           _recording_history (run_rec_op op rs) !! k = _recording_history rs !! k) ∧
  (∀ op k, stopped_folder op rs = Some k →
           ∃ room_id rec rec', _active_recordings rs !! room_id = Some rec ∧
             RecordingSession.session_id rec = k ∧
             _recording_history (run_rec_op op rs) !! k = Some rec' ∧
             RecordingSession.started_at rec' = RecordingSession.started_at rec ∧
             RecordingSession.session_id rec' = k).
Proof.
  split_and!.
  - revert rs. induction ops as [|op ops IH]; intros rs k Hk; [done|].
    simpl. apply IH. by apply run_rec_op_history_key.
  - intros op k. apply run_rec_op_history_step.
  - intros op k Hk.
    destruct op as [room_id now mk st|room_id now|room_id reason now]; simpl in *; [done| |].
    + unfold stop_recording.
      destruct (_active_recordings rs !! room_id) as [rec|] eqn:E; simpl in *; [|done].
      injection Hk as <-. exists room_id, rec. eexists.
      rewrite lookup_insert_eq. by split_and!.
    + unfold force_stop_recording.
      destruct (_active_recordings rs !! room_id) as [rec|] eqn:E; simpl in *; [|done].
      injection Hk as <-. exists room_id, rec. eexists.
      rewrite lookup_insert_eq. by split_and!.
Qed.

(** ** Peer links *)

Lemma link_update_user (o : string) (g : gmap string RTCPeerConnection.t →
    gmap string RTCPeerConnection.t) (st : State) (z k : string) :
  link (update_user o (λ u, User.set_peer_connections (g (User.peer_connections u)) u) st) z k
  = if decide (z = o) then u ← get_user st o; g (User.peer_connections u) !! k
    else link st z k.
Proof.
  unfold link, get_user, update_user. simpl. rewrite lookup_alter.
  case_decide as Hz; case_decide as Hz'; try congruence.
  by destruct (_connections st !! o).
Qed.

Lemma link_close_and_remove (o p : string) (st : State) (z k : string) :
  all_close_cleanly st →
  link (close_and_remove o p st) z k
  = if decide (z = o ∧ k = p) then None else link st z k.
Proof.
  intros Hclean. unfold close_and_remove.
  destruct (get_user st o) as [user|] eqn:Hu.
  - destruct (User.peer_connections user !! p) as [pc|] eqn:Hpc.
    + assert (closes_cleanly pc) as ->.
      { apply (Hclean o p). unfold link. by rewrite Hu. }
      rewrite link_update_user. unfold link. rewrite Hu. simpl.
      repeat case_decide; destruct_and?; subst; try done.
      * by rewrite lookup_delete_eq.
      * rewrite lookup_delete_ne; [by rewrite Hu|]. naive_solver.
    + case_decide as Hc; [|done]. destruct Hc as [-> ->].
      unfold link. by rewrite Hu.
  - case_decide as Hc; [|done]. destruct Hc as [-> ->].
    unfold link. by rewrite Hu.
Qed.

Lemma close_and_remove_clean (o p : string) (st : State) :
  all_close_cleanly st → all_close_cleanly (close_and_remove o p st).
Proof.
  intros Hclean z k pc. rewrite link_close_and_remove by done.
  case_decide; [done|]. apply Hclean.
Qed.

Lemma link_cleanup_peer_connection (x t : string) (st : State) (z k : string) :
  all_close_cleanly st →
  link (cleanup_peer_connection x t st) z k
  = if decide ((z = x ∧ k = t) ∨ (z = t ∧ k = x)) then None else link st z k.
Proof.
  intros Hclean. unfold cleanup_peer_connection.
  rewrite link_close_and_remove by by apply close_and_remove_clean.
  rewrite link_close_and_remove by done.
  repeat case_decide; naive_solver.
Qed.

Lemma cleanup_peer_connection_clean (x t : string) (st : State) :
  all_close_cleanly st → all_close_cleanly (cleanup_peer_connection x t st).
Proof.
  intros Hclean. unfold cleanup_peer_connection.
  by do 2 apply close_and_remove_clean.
Qed.

Lemma link_cleanup_fold (x : string) (ts : list string) (st : State) (z k : string) :
  all_close_cleanly st →
  link (foldl (λ s t, cleanup_peer_connection x t s) st ts) z k
  = if decide ((z = x ∧ k ∈ ts) ∨ (k = x ∧ z ∈ ts)) then None else link st z k.
Proof.
  revert st. induction ts as [|t ts IH]; intros st Hclean; simpl.
  - case_decide as Hc; [|done]. destruct Hc as [[_ Hin]|[_ Hin]]; by apply elem_of_nil in Hin.
  - rewrite IH by by apply cleanup_peer_connection_clean.
    rewrite link_cleanup_peer_connection by done.
    repeat case_decide; try done; exfalso; set_solver.
Qed.

Lemma elem_of_keys (m : gmap string RTCPeerConnection.t) (k : string) :
  k ∈ (map_to_list m).*1 ↔ is_Some (m !! k).
Proof.
  rewrite list_elem_of_fmap. split.
  - intros ([k' pc] & -> & Hin). apply elem_of_map_to_list in Hin. by eexists.
  - intros [pc Hpc]. exists (k, pc). split; [done|]. by apply elem_of_map_to_list.
Qed.

Lemma after_close_idemp (entry : option RTCPeerConnection.t) :
  after_close (after_close entry) = after_close entry.
Proof.
  destruct entry as [pc|]; [|done]. simpl.
  destruct (RTCPeerConnection.still_open pc && RTCPeerConnection.close_raises pc) eqn:E;
    [|done].
  simpl. by rewrite E.
Qed.

Lemma after_close_clean (pc : RTCPeerConnection.t) :
  closes_cleanly pc → after_close (Some pc) = None.
Proof. unfold closes_cleanly. simpl. by intros ->. Qed.

Lemma after_close_stuck (pc : RTCPeerConnection.t) :
  ¬ closes_cleanly pc → after_close (Some pc) = Some pc.
Proof.
  unfold closes_cleanly. simpl.
  by destruct (RTCPeerConnection.still_open pc && RTCPeerConnection.close_raises pc).
Qed.

Lemma link_close_and_remove_after (o p : string) (st : State) (z k : string) :
  link (close_and_remove o p st) z k
  = if decide (z = o ∧ k = p) then after_close (link st z k) else link st z k.
Proof.
  unfold close_and_remove.
  destruct (get_user st o) as [user|] eqn:Hu.
  - destruct (User.peer_connections user !! p) as [pc|] eqn:Hpc.
    + assert (Hlink : link st o p = Some pc) by (unfold link; by rewrite Hu).
      destruct (RTCPeerConnection.still_open pc && RTCPeerConnection.close_raises pc) eqn:E.
      * case_decide as Hc; [|done]. destruct Hc as [-> ->].
        rewrite Hlink. simpl. by rewrite E.
      * rewrite link_update_user. case_decide as Hz.
        -- subst z. rewrite Hu. simpl. case_decide as Hc.
           ++ destruct Hc as [_ ->]. rewrite lookup_delete_eq, Hlink. simpl. by rewrite E.
           ++ rewrite lookup_delete_ne by naive_solver. unfold link. by rewrite Hu.
        -- rewrite decide_False by naive_solver. done.
    + case_decide as Hc; [|done]. destruct Hc as [-> ->].
      assert (link st o p = None) as -> by (unfold link; by rewrite Hu).
      done.
  - case_decide as Hc; [|done]. destruct Hc as [-> ->].
    assert (link st o p = None) as -> by (unfold link; by rewrite Hu).
    done.
Qed.

Lemma link_cleanup_peer_connection_after (x t : string) (st : State) (z k : string) :
  link (cleanup_peer_connection x t st) z k
  = if decide ((z = x ∧ k = t) ∨ (z = t ∧ k = x)) then after_close (link st z k)
    else link st z k.
Proof.
  unfold cleanup_peer_connection. rewrite !link_close_and_remove_after.
  repeat case_decide; try done; try (exfalso; naive_solver).
  apply after_close_idemp.
Qed.

Lemma link_cleanup_fold_after (x : string) (ts : list string) (st : State) (z k : string) :
  link (foldl (λ s t, cleanup_peer_connection x t s) st ts) z k
  = if decide ((z = x ∧ k ∈ ts) ∨ (k = x ∧ z ∈ ts)) then after_close (link st z k)
    else link st z k.
Proof.
  revert st. induction ts as [|t ts IH]; intros st; simpl.
  - case_decide as Hc; [|done]. destruct Hc as [[_ Hin]|[_ Hin]]; by apply elem_of_nil in Hin.
  - rewrite IH, link_cleanup_peer_connection_after.
    repeat case_decide; try done; try (exfalso; set_solver).
    apply after_close_idemp.
Qed.

Lemma link_cleanup_all_user_connections (x : string) (st : State) (z k : string) :
  link (cleanup_all_user_connections x st) z k
  = if decide ((z = x ∧ is_Some (link st x k)) ∨ (k = x ∧ is_Some (link st x z)))
    then after_close (link st z k) else link st z k.
Proof.
  unfold cleanup_all_user_connections.
  destruct (get_user st x) as [ux|] eqn:Hx.
  - assert (Hkeys : ∀ y, y ∈ (map_to_list (User.peer_connections ux)).*1
                         ↔ is_Some (link st x y)).
    { intros y. rewrite elem_of_keys. unfold link. by rewrite Hx. }
    rewrite link_cleanup_fold_after.
    repeat case_decide; try done; exfalso; rewrite ?Hkeys in *; naive_solver.
  - case_decide as Hc; [|done]. exfalso.
    assert (Hnone : ∀ y, link st x y = None) by (intros y; unfold link; by rewrite Hx).
    destruct Hc as [[_ Hc]|[_ Hc]]; rewrite Hnone in Hc; by destruct Hc.
Qed.

(** C3, amended.  After [cleanup_all_user_connections X], for every session
    [Y] for which [X] held a handle: the entry of [X] for [Y] is gone if
    closing its handle does not raise, and so is the entry of [Y] keyed by
    [X], if there was one, under the same condition on its own handle.  A
    handle whose [close()] raises stays where it is, whoever holds it.
    Every other entry is untouched; in particular a session [Y] that held a
    handle for [X] while [X] held none for [Y] keeps it. *)
Theorem cleanup_all_closes_outgoing_links_and_mirrors (x : string) (st : State) :
  (∀ y pc, link st x y = Some pc → closes_cleanly pc →
     link (cleanup_all_user_connections x st) x y = None) ∧
  (∀ y pc, is_Some (link st x y) → link st y x = Some pc → closes_cleanly pc →
     link (cleanup_all_user_connections x st) y x = None) ∧
  (∀ z k pc, link st z k = Some pc → ¬ closes_cleanly pc →
     link (cleanup_all_user_connections x st) z k = Some pc) ∧
  (∀ z k, ¬ (z = x ∧ is_Some (link st x k)) → ¬ (k = x ∧ is_Some (link st x z)) →
     link (cleanup_all_user_connections x st) z k = link st z k) ∧
  (∀ y, y ≠ x → link st x y = None →
     link (cleanup_all_user_connections x st) y x = link st y x).
Proof.
  split_and!.
  - intros y pc Hpc Hclean. rewrite link_cleanup_all_user_connections.
    rewrite decide_True by (left; by rewrite Hpc).
    rewrite Hpc. by apply after_close_clean.
  - intros y pc Hy Hpc Hclean. rewrite link_cleanup_all_user_connections.
    rewrite decide_True by (by right).
    rewrite Hpc. by apply after_close_clean.
  - intros z k pc Hpc Hstuck. rewrite link_cleanup_all_user_connections, Hpc.
    case_decide; [by apply after_close_stuck|done].
  - intros z k Hout Hmirror. rewrite link_cleanup_all_user_connections.
    rewrite decide_False; [done|]. by intros [?|?].
  - intros y Hy Hnone. rewrite link_cleanup_all_user_connections.
    rewrite decide_False; [done|].
    intros [[? _]|[_ Hin]]; [done|]. rewrite Hnone in Hin. by destruct Hin.
Qed.

(** C3, as stated, fails in two ways.  [Y] holds a handle for [X], [X]
    holds none: after [cleanup_all_user_connections X] the entry of [Y] is
    still there.  And [X] and [Y] hold a handle for each other, the one of
    [X] closes and the one of [Y] raises when it is closed: the entry of
    [X] is removed and the entry of [Y] keyed by [X] is still there. *)
Lemma entries_keyed_by_closed_session_survive :
  (link one_way_link_state "X" "Y" = None ∧
   link (cleanup_all_user_connections "X" one_way_link_state) "Y" "X" = Some fresh_handle ∧
   ¬ no_link_to (cleanup_all_user_connections "X" one_way_link_state) "X") ∧
  (link stuck_mirror_state "X" "Y" = Some fresh_handle ∧
   closes_cleanly fresh_handle ∧
   link stuck_mirror_state "Y" "X" = Some stuck_handle ∧
   link (cleanup_all_user_connections "X" stuck_mirror_state) "X" "Y" = None ∧
   link (cleanup_all_user_connections "X" stuck_mirror_state) "Y" "X" = Some stuck_handle ∧
   ¬ no_link_to (cleanup_all_user_connections "X" stuck_mirror_state) "X").
Proof.
  assert (link (cleanup_all_user_connections "X" one_way_link_state) "Y" "X"
          = Some fresh_handle) as Hone by (vm_compute; reflexivity).
  assert (link (cleanup_all_user_connections "X" stuck_mirror_state) "Y" "X"
          = Some stuck_handle) as Hstuck by (vm_compute; reflexivity).
  split; split_and!; try (vm_compute; reflexivity); try done.
  - intros Hno. specialize (Hno "Y"). rewrite Hone in Hno. discriminate.
  - intros Hno. specialize (Hno "Y"). rewrite Hstuck in Hno. discriminate.
Qed.

Lemma one_way_link_state_eq :
  one_way_link_state
  = mkState (<["Y" := User.mk "Y" open_socket None {["X" := fresh_handle]}]>
               (<["X" := User.mk "X" open_socket None ∅]> ∅)) ∅ [].
Proof. vm_compute. reflexivity. Qed.

Lemma one_way_link_state_clean : all_close_cleanly one_way_link_state.
Proof.
  intros owner peer pc. rewrite one_way_link_state_eq. unfold link, get_user. simpl.
  destruct (decide (owner = "Y")) as [->|Hy].
  - rewrite lookup_insert_eq. simpl.
    destruct (decide (peer = "X")) as [->|Hp].
    + rewrite lookup_singleton_eq. by intros [= <-].
    + by rewrite lookup_singleton_ne.
  - rewrite lookup_insert_ne by done.
    destruct (decide (owner = "X")) as [->|Hx].
    + rewrite lookup_insert_eq. simpl. by rewrite lookup_empty.
    + rewrite lookup_insert_ne by done. by rewrite lookup_empty.
Qed.

(** The amended statement at the two states: the entry of [X] whose handle
    closes is removed, the stuck mirror entry and the one-way entry are
    kept. *)
Lemma cleanup_all_closes_outgoing_links_and_mirrors_witness :
  link (cleanup_all_user_connections "X" stuck_mirror_state) "X" "Y" = None ∧
  link (cleanup_all_user_connections "X" stuck_mirror_state) "Y" "X" = Some stuck_handle ∧
  link (cleanup_all_user_connections "X" one_way_link_state) "Y" "X"
  = link one_way_link_state "Y" "X".
Proof.
  split_and!.
  - apply (proj1 (cleanup_all_closes_outgoing_links_and_mirrors "X" stuck_mirror_state)
             "Y" fresh_handle); by vm_compute.
  - apply (proj1 (proj2 (proj2
             (cleanup_all_closes_outgoing_links_and_mirrors "X" stuck_mirror_state)))
             "Y" "X" stuck_handle); by vm_compute.
  - apply (proj2 (proj2 (proj2 (proj2
             (cleanup_all_closes_outgoing_links_and_mirrors "X" one_way_link_state))))
             "Y"); by vm_compute.
Defined.

(** ** Rooms: single operations *)

Lemma truthy_Some (s : string) : truthy (Some s) = true ↔ s ≠ "".
Proof.
  unfold truthy, truthy_str. rewrite negb_true_iff. apply String.eqb_neq.
Qed.

Lemma truthy_false (o : option string) : truthy o = false ↔ o = None ∨ o = Some "".
Proof.
  destruct o as [s|]; simpl.
  - unfold truthy_str. rewrite negb_false_iff, String.eqb_eq. naive_solver.
  - naive_solver.
Qed.

Lemma get_room_Some (st : State) (R : string) (room : Room.t) :
  get_room st R = Some room ↔ ∃ l, _rooms st !! R = Some l ∧ heap st !! l = Some room.
Proof.
  unfold get_room. destruct (_rooms st !! R) as [l|]; simpl; naive_solver.
Qed.

Lemma get_all_rooms_lookup (st : State) (R : string) :
  get_all_rooms st !! R = get_room st R.
Proof. unfold get_all_rooms, get_room. by rewrite lookup_omap. Qed.

Lemma py_remove_not_in (x : string) (l : list string) : x ∉ l → py_remove x l = l.
Proof.
  induction l as [|y l IH]; [done|]. intros Hnin. simpl.
  case_decide as Hxy; [subst; set_solver|]. f_equal. apply IH. set_solver.
Qed.

Lemma py_remove_subseteq (x : string) (l : list string) : py_remove x l ⊆ l.
Proof.
  induction l as [|y l IH]; [done|]. simpl. case_decide; set_solver.
Qed.

Lemma py_remove_other (x y : string) (l : list string) :
  y ≠ x → y ∈ py_remove x l ↔ y ∈ l.
Proof.
  intros Hne. induction l as [|z l IH]; [done|]. simpl.
  case_decide as Hxz; [subst; set_solver|]. set_solver.
Qed.

Lemma py_remove_NoDup (x : string) (l : list string) :
  NoDup l → NoDup (py_remove x l) ∧ x ∉ py_remove x l.
Proof.
  induction 1 as [|y l Hy Hl IH]; simpl.
  - split; [constructor|set_solver].
  - case_decide as Hxy; [subst; done|].
    destruct IH as [IH1 IH2]. split.
    + constructor; [|done]. intros Hin. apply Hy. by apply (py_remove_subseteq x).
    + set_solver.
Qed.

Lemma py_remove_length (x : string) (l : list string) :
  x ∈ l → S (length (py_remove x l)) = length l.
Proof.
  induction l as [|y l IH]; [by intros ?%elem_of_nil|]. simpl.
  case_decide as Hxy; [done|]. intros Hin. simpl. f_equal. apply IH. set_solver.
Qed.

Lemma py_remove_nil_NoDup (x : string) (l : list string) :
  x ∈ l → py_remove x l = [] → l = [x].
Proof.
  destruct l as [|y l]; [by intros ?%elem_of_nil|]. simpl.
  case_decide as Hxy; [by intros _ ->; subst|done].
Qed.

(** The three ways [leave_room] can go. *)
Lemma leave_room_cases (user_id : string) (st : State) :
  (leave_room user_id st = (st, None) ∧
   (get_user st user_id = None ∨
    ∃ u, get_user st user_id = Some u ∧ truthy (User.room_id u) = false)) ∨
  (∃ u R, get_user st user_id = Some u ∧ User.room_id u = Some R ∧ R ≠ "" ∧
     (∀ room, get_room st R = Some room → user_id ∉ Room.users room) ∧
     leave_room user_id st = (update_user user_id (User.set_room_id None) st, None)) ∨
  (∃ u R l room, get_user st user_id = Some u ∧ User.room_id u = Some R ∧ R ≠ "" ∧
     _rooms st !! R = Some l ∧ heap st !! l = Some room ∧ user_id ∈ Room.users room ∧
     leave_room user_id st = (after_removal user_id R l (Room.users room) st, Some R)).
Proof.
  unfold leave_room.
  destruct (get_user st user_id) as [u|] eqn:Hu; [|left; naive_solver].
  destruct (truthy (User.room_id u)) eqn:Ht; simpl; [|left; naive_solver].
  destruct (User.room_id u) as [R|] eqn:HR; [|done].
  apply truthy_Some in Ht. right.
  destruct (_rooms st !! R) as [l|] eqn:Hl.
  - destruct (heap st !! l) as [room|] eqn:Hroom.
    + case_bool_decide as Hin.
      * right. exists u, R, l, room. split_and!; try done.
        unfold after_removal, update_user, update_room, set_connections, set_heap, set_rooms.
        simpl. by destruct (py_remove user_id (Room.users room)).
      * left. exists u, R. split_and!; try done.
        intros room' Hroom'. apply get_room_Some in Hroom' as (l' & Hl' & Hh). naive_solver.
    + left. exists u, R. split_and!; try done.
      intros room' Hroom'. apply get_room_Some in Hroom' as (l' & Hl' & Hh). naive_solver.
  - left. exists u, R. split_and!; try done.
    intros room' Hroom'. apply get_room_Some in Hroom' as (l' & Hl' & Hh). naive_solver.
Qed.

Lemma leave_room_removal (user_id : string) (u : User.t) (R : string) (l : nat)
    (room : Room.t) (st : State) :
  get_user st user_id = Some u → User.room_id u = Some R → R ≠ "" →
  _rooms st !! R = Some l → heap st !! l = Some room → user_id ∈ Room.users room →
  leave_room user_id st = (after_removal user_id R l (Room.users room) st, Some R).
Proof.
  intros Hu HR Hne Hl Hroom Hin.
  destruct (leave_room_cases user_id st) as [[_ Hc]|[Hc|Hc]].
  - exfalso. destruct Hc as [Hc|(u' & Hu' & Ht)]; [congruence|].
    apply truthy_false in Ht. naive_solver.
  - exfalso. destruct Hc as (u' & R' & Hu' & HR' & _ & Hnot & _).
    assert (R' = R) as -> by congruence.
    apply (Hnot room); [|done]. apply get_room_Some. eauto.
  - destruct Hc as (u' & R' & l' & room' & Hu' & HR' & _ & Hl' & Hroom' & _ & ->).
    assert (R' = R) as -> by congruence. by simplify_eq.
Qed.

(** The part of C9 that holds, for rooms named by a non-empty identifier.
    [leave_room] on a session whose room reference (a non-empty
    identifier, the empty string being no reference for the code) names a
    room that lists it removes the (first occurrence of the) session's identifier from
    that room's member list, clears the reference and returns the room's
    identifier; with no duplicates in the list the session is no longer a
    member.  If members remain the room stays registered with the shortened
    list; if none remains the room is deleted and its identifier is absent
    from [get_all_rooms].  On a session that is in no room (not registered,
    or with a falsy room reference) it returns [None] and changes nothing. *)
Theorem leave_room_leaves_current_room (user_id : string) (st : State) :
  (∀ u R room, get_user st user_id = Some u → User.room_id u = Some R → R ≠ "" →
     get_room st R = Some room → user_id ∈ Room.users room →
     ∃ st', leave_room user_id st = (st', Some R) ∧
       User.room_id <$> get_user st' user_id = Some None ∧
       (NoDup (Room.users room) → user_id ∉ py_remove user_id (Room.users room)) ∧
       (py_remove user_id (Room.users room) ≠ [] →
        get_room st' R = Some (Room.set_users (py_remove user_id (Room.users room)) room) ∧
        get_all_rooms st' !! R
          = Some (Room.set_users (py_remove user_id (Room.users room)) room)) ∧
       (py_remove user_id (Room.users room) = [] →
        get_room st' R = None ∧ get_all_rooms st' !! R = None)) ∧
  (get_user st user_id = None → leave_room user_id st = (st, None)) ∧
  (∀ u, get_user st user_id = Some u → truthy (User.room_id u) = false →
     leave_room user_id st = (st, None)).
Proof.
  split_and!.
  - intros u R room Hu HR Hne Hroom Hin.
    apply get_room_Some in Hroom as (l & Hl & Hh).
    eexists. split; [by eapply leave_room_removal|].
    split_and!.
    + unfold get_user, after_removal in *. simpl. rewrite lookup_alter.
      rewrite decide_True by done. by rewrite Hu.
    + intros Hnd. by apply py_remove_NoDup.
    + intros Hrest. rewrite get_all_rooms_lookup.
      assert (get_room (after_removal user_id R l (Room.users room) st) R
              = Some (Room.set_users (py_remove user_id (Room.users room)) room)) as ->; [|done].
      apply get_room_Some. exists l. unfold after_removal. simpl.
      destruct (py_remove user_id (Room.users room)) eqn:E; [done|].
      split; [done|]. by rewrite list_lookup_alter_eq, Hh.
    + intros Hrest. rewrite get_all_rooms_lookup.
      assert (get_room (after_removal user_id R l (Room.users room) st) R = None) as ->; [|done].
      unfold get_room, after_removal. simpl. rewrite Hrest. by rewrite lookup_delete_eq.
  - intros Hnone. unfold leave_room. by rewrite Hnone.
  - intros u Hu Ht. unfold leave_room. by rewrite Hu, Ht.
Qed.

(** The part of C10 that holds, for references that are not the empty
    string.  On a registered session whose room reference (a non-empty
    identifier) names a room that is not in the registry, or one that does
    not list the session,
    [leave_room] returns [None] and only clears the reference: the registry
    of rooms, the room objects and every other session are as before. *)
Theorem leave_room_clears_stale_reference
    (user_id : string) (u : User.t) (R : string) (st : State) :
  get_user st user_id = Some u → User.room_id u = Some R → R ≠ "" →
  (get_room st R = None ∨
   ∃ room, get_room st R = Some room ∧ user_id ∉ Room.users room) →
  ∃ st', leave_room user_id st = (st', None) ∧
    get_user st' user_id = Some (User.set_room_id None u) ∧
    (∀ other, other ≠ user_id → get_user st' other = get_user st other) ∧
    _rooms st' = _rooms st ∧ heap st' = heap st ∧
    get_all_rooms st' = get_all_rooms st.
Proof.
  intros Hu HR Hne Hstale.
  exists (update_user user_id (User.set_room_id None) st). split_and!; try done.
  - destruct (leave_room_cases user_id st) as [[_ Hc]|[Hc|Hc]].
    + exfalso. destruct Hc as [Hc|(u' & Hu' & Ht)]; [congruence|].
      apply truthy_false in Ht. naive_solver.
    + by destruct Hc as (_ & _ & _ & _ & _ & _ & ->).
    + exfalso. destruct Hc as (u' & R' & l & room & Hu' & HR' & _ & Hl & Hh & Hin & _).
      assert (R' = R) as -> by congruence.
      assert (get_room st R = Some room) as Hroom by (apply get_room_Some; eauto).
      destruct Hstale as [Hnone|(room' & Hroom' & Hnin)]; [congruence|].
      rewrite Hroom in Hroom'. by simplify_eq.
  - unfold get_user, update_user in *. simpl. rewrite lookup_alter.
    rewrite decide_True by done. by rewrite Hu.
  - intros other Hother. unfold get_user, update_user. simpl.
    rewrite lookup_alter. by rewrite decide_False.
Qed.

(** C2 fails on the code.  When [user_id] is the only member of the room
    it joins again, [join_room] returns [True], but the call of
    [leave_room] in it has emptied and deleted the room: the registry no
    longer holds the room while the session's reference still names it. *)
Theorem rejoin_by_only_member_unregisters_room `{Env}
    (user_id R : string) (u : User.t) (l : nat) (room : Room.t) (st : State) :
  get_user st user_id = Some u → User.room_id u = Some R → R ≠ "" →
  _rooms st !! R = Some l → heap st !! l = Some room → Room.users room = [user_id] →
  ∃ st', join_room user_id R st = (st', true) ∧
    _rooms st' = delete R (_rooms st) ∧
    get_room st' R = None ∧
    get_all_rooms st' !! R = None ∧
    User.room_id <$> get_user st' user_id = Some (Some R).
Proof.
  intros Hu HR Hne Hl Hroom Husers.
  assert (Hin : user_id ∈ Room.users room) by (rewrite Husers; set_solver).
  unfold join_room. rewrite Hu. unfold create_room. rewrite Hl, Hroom.
  rewrite (bool_decide_eq_true_2 _ Hin). simpl. rewrite andb_false_r.
  rewrite (leave_room_removal user_id u R l room st) by done.
  rewrite Husers. simpl. rewrite decide_True by done.
  unfold after_removal at 1. simpl. rewrite decide_True by done. simpl.
  rewrite list_lookup_alter_eq, Hroom. simpl.
  eexists. split; [reflexivity|].
  assert (Hdel : _rooms (after_removal user_id R l [user_id] st) = delete R (_rooms st)).
  { unfold after_removal. simpl. by rewrite decide_True. }
  assert (Hgone : get_room (update_user user_id (User.set_room_id (Some R))
                    (update_room l (Room.set_users [user_id])
                       (after_removal user_id R l [user_id] st))) R = None).
  { unfold get_room, update_user, update_room, set_connections, set_heap.
    cbn [_rooms]. rewrite Hdel. by rewrite lookup_delete_eq. }
  split_and!.
  - exact Hdel.
  - exact Hgone.
  - by rewrite get_all_rooms_lookup.
  - unfold get_user, update_user, update_room, after_removal. simpl.
    rewrite !lookup_alter_eq. unfold get_user in Hu. by rewrite Hu.
Qed.

(** ** Examples on concrete states *)

Lemma solo_room_state_eq :
  solo_room_state
  = mkState {["S" := User.mk "S" open_socket (Some "R") ∅]} {["R" := 0]}
            [Room.mk "R" ["S"] 5 "room-session-0"].
Proof. vm_compute. reflexivity. Qed.

(** The failing input of C2, evaluated: [S] alone in [R] joins [R] again. *)
Lemma rejoin_by_only_member_unregisters_room_witness :
  ∃ st', @join_room default_env "S" "R" solo_room_state = (st', true) ∧
    _rooms st' = delete "R" (_rooms solo_room_state) ∧
    @get_room st' "R" = None ∧
    get_all_rooms st' !! "R" = None ∧
    User.room_id <$> get_user st' "S" = Some (Some "R").
Proof.
  apply (@rejoin_by_only_member_unregisters_room default_env "S" "R"
           (User.mk "S" open_socket (Some "R") ∅) 0
           (Room.mk "R" ["S"] 5 "room-session-0") solo_room_state);
    first [by vm_compute | done].
Defined.

(** With another member present the room survives a re-join, but the
    member list is reordered: the session moves to the end. *)
Lemma rejoin_moves_member_to_the_end :
  get_room_users two_member_state "R" = ["S"; "T"] ∧
  (@join_room default_env "S" "R" two_member_state).2 = true ∧
  get_room_users (@join_room default_env "S" "R" two_member_state).1 "R" = ["T"; "S"].
Proof. by vm_compute. Qed.

Lemma relay_to_unreachable_target_is_dropped_witness :
  handle_offer "S" "nobody" ∅ solo_room_state = (solo_room_state, Returns ()) ∧
  handle_answer "S" "nobody" ∅ solo_room_state = (solo_room_state, Returns ()) ∧
  handle_ice_candidate "S" "nobody" ∅ solo_room_state = (solo_room_state, Returns ()).
Proof.
  refine (proj1 (relay_to_unreachable_target_is_dropped "S" "nobody" ∅ solo_room_state _)).
  left. by vm_compute.
Defined.

Lemma start_recording_idempotent_witness :
  start_recording "R" 7 false solo_room_state
    (start_recording "R" 0 false solo_room_state init_rec).1
  = ((start_recording "R" 0 false solo_room_state init_rec).1, Returns "room-session-0").
Proof.
  refine (proj1 (proj2 (proj2 (start_recording_idempotent "R" 0 7 false false
            solo_room_state init_rec))) _ "room-session-0" solo_room_state _ _).
  - by vm_compute.
  - eexists. by vm_compute.
Defined.

Lemma stop_recording_moves_to_history_witness :
  ∃ rs' rec', stop_recording "R" 10 (start_recording "R" 0 false solo_room_state init_rec).1
              = (rs', Some rec') ∧
    RecordingSession.ended_at rec' = Some 10%Z ∧
    RecordingSession.status rec' = "stopped" ∧
    _active_recordings rs' !! "R" = None ∧
    _recording_history rs' !! "room-session-0" = Some rec' ∧
    (∃ d, RecordingSession.duration rec' = Some d ∧ (0 ≤ d)%Z) ∧
    stop_recording "R" 11 rs' = (rs', None).
Proof.
  destruct (proj2 (stop_recording_moves_to_history "R" 10 11
              (start_recording "R" 0 false solo_room_state init_rec).1)
              (RecordingSession.mk "room-session-0" "R" 0 None [] "active"))
    as (rs' & rec' & Hstop & Hend & Hstatus & _ & _ & _ & _ & _ & Hact & _ & Hhist & _ & Hdur & Hagain).
  { by vm_compute. }
  exists rs', rec'. split_and!; try done.
  destruct Hdur as (d & Hd & Hsign). exists d. split; [done|]. apply Hsign. simpl. lia.
Defined.

(** C6, as stated, fails: the clock is the wall clock, which can be set
    back.  Room [R] is recorded from the reading 50 and stopped at the
    reading 20: the recording returned has the duration -30. *)
Lemma stop_at_earlier_reading_gives_negative_duration :
  ∃ rs' rec', stop_recording "R" 20 (start_recording "R" 50 false solo_room_state init_rec).1
              = (rs', Some rec') ∧
    RecordingSession.started_at rec' = 50%Z ∧
    RecordingSession.ended_at rec' = Some 20%Z ∧
    RecordingSession.duration rec' = Some (-30)%Z ∧
    (-30 < 0)%Z.
Proof. eexists _, _. split_and!; try (vm_compute; reflexivity). Qed.

(** C7, as stated, fails: room [R] is recorded and stopped, then recorded
    and stopped again; the entry stored in the history by the first stop
    is replaced by the second. *)
Lemma second_stop_replaces_history_entry :
  _recording_history recorded_once !! "room-session-0"
    = Some (RecordingSession.mk "room-session-0" "R" 0 (Some 10%Z) [] "stopped") ∧
  _recording_history
      (run_rec_ops [OpStart "R" 20 false solo_room_state; OpStop "R" 30] recorded_once)
      !! "room-session-0"
    = Some (RecordingSession.mk "room-session-0" "R" 20 (Some 30%Z) [] "stopped") ∧
  RecordingSession.mk "room-session-0" "R" 0 (Some 10%Z) [] "stopped"
    ≠ RecordingSession.mk "room-session-0" "R" 20 (Some 30%Z) [] "stopped".
Proof. split_and!; [by vm_compute..|discriminate]. Qed.

Lemma history_keys_survive_start_stop_witness :
  is_Some (_recording_history
             (run_rec_ops [OpStart "R" 20 false solo_room_state; OpStop "R" 30] recorded_once)
             !! "room-session-0").
Proof.
  refine (proj1 (history_keys_survive_start_stop
            [OpStart "R" 20 false solo_room_state; OpStop "R" 30] recorded_once)
            "room-session-0" _).
  eexists. by vm_compute.
Defined.

Lemma leave_room_leaves_current_room_witness :
  ∃ st', leave_room "S" solo_room_state = (st', Some "R") ∧
    User.room_id <$> get_user st' "S" = Some None ∧
    get_room st' "R" = None ∧ get_all_rooms st' !! "R" = None.
Proof.
  destruct (proj1 (leave_room_leaves_current_room "S" solo_room_state)
              (User.mk "S" open_socket (Some "R") ∅) "R"
              (Room.mk "R" ["S"] 5 "room-session-0")
              ltac:(by vm_compute) ltac:(by vm_compute) ltac:(done)
              ltac:(by vm_compute) ltac:(simpl; set_solver))
    as (st' & Hleave & Href & _ & _ & Hgone).
  exists st'. split_and!; try done; by apply Hgone.
Defined.

Lemma leave_room_clears_stale_reference_witness :
  ∃ st', leave_room "S" rejoined_state = (st', None) ∧
    get_user st' "S" = Some (User.mk "S" open_socket None ∅) ∧
    _rooms st' = _rooms rejoined_state ∧ heap st' = heap rejoined_state.
Proof.
  destruct (leave_room_clears_stale_reference "S" (User.mk "S" open_socket (Some "R") ∅)
              "R" rejoined_state ltac:(by vm_compute) ltac:(by vm_compute) ltac:(done)
              ltac:(left; by vm_compute))
    as (st' & Hleave & Hu & _ & Hrooms & Hheap & _).
  exists st'. by split_and!.
Defined.

(** ** Rooms: the room named by the empty string *)

Lemma leave_room_with_empty_reference (user_id : string) (u : User.t) (st : State) :
  get_user st user_id = Some u → User.room_id u = Some "" →
  leave_room user_id st = (st, None).
Proof. intros Hu HR. unfold leave_room. by rewrite Hu, HR. Qed.

Section unnamed_room.
Context `{Env}.

(** A session without room reference joins the identifier [""], which
    names no room yet: the room is created with the session as its only
    member, and the session's reference is [""]. *)
Lemma join_unnamed_room (user_id : string) (u : User.t) (st : State) :
  get_user st user_id = Some u → User.room_id u = None → _rooms st !! "" = None →
  (0 < MAX_USERS_PER_ROOM)%Z →
  ∃ st1, join_room user_id "" st = (st1, true) ∧
    get_user st1 user_id = Some (User.set_room_id (Some "") u) ∧
    _rooms st1 = <["" := length (heap st)]> (_rooms st) ∧
    heap st1 !! length (heap st)
    = Some (Room.mk "" [user_id] MAX_USERS_PER_ROOM (uuid4 (length (heap st)))).
Proof.
  intros Hu HR Hnone Hcap. unfold join_room. rewrite Hu. unfold create_room. rewrite Hnone.
  cbn [heap]. rewrite lookup_app_r by done. rewrite Nat.sub_diag. cbn [lookup list_lookup].
  assert (Room.is_full (Room.mk "" [] MAX_USERS_PER_ROOM (uuid4 (length (heap st))))
          = false) as ->.
  { unfold Room.is_full. simpl. apply Z.leb_gt. lia. }
  cbn [andb]. unfold leave_room at 1. unfold get_user at 1. cbn [_connections].
  unfold get_user in Hu. rewrite Hu, HR. cbn [truthy negb].
  cbn [heap]. rewrite lookup_app_r by done. rewrite Nat.sub_diag. cbn [lookup list_lookup].
  cbn [Room.users]. rewrite bool_decide_eq_false_2 by set_solver.
  eexists. split; [reflexivity|]. split_and!.
  - unfold get_user, update_user, update_room. simpl. by rewrite lookup_alter_eq, Hu.
  - done.
  - unfold update_user, update_room. simpl.
    rewrite list_lookup_alter_eq, lookup_app_r by done. by rewrite Nat.sub_diag.
Qed.

(** C9 fails on the code.  A session joins the room named by the empty
    string: [join_room] returns [True], the room lists the session and the
    session's reference is [""].  [leave_room] then tests [not
    user.room_id], takes the empty string for no room, returns [None] and
    changes nothing: the session is still a member, and the room, whose
    only member tried to leave, is still registered and still in
    [get_all_rooms]. *)
Theorem leave_room_ignores_room_named_by_empty_string
    (user_id : string) (u : User.t) (st : State) :
  get_user st user_id = Some u → User.room_id u = None → _rooms st !! "" = None →
  (0 < MAX_USERS_PER_ROOM)%Z →
  ∃ st1 room, join_room user_id "" st = (st1, true) ∧
    get_user_room_id st1 user_id = Some "" ∧
    get_room st1 "" = Some room ∧ Room.users room = [user_id] ∧
    leave_room user_id st1 = (st1, None) ∧
    get_all_rooms (leave_room user_id st1).1 !! "" = Some room.
Proof.
  intros Hu HR Hnone Hcap.
  destruct (join_unnamed_room user_id u st Hu HR Hnone Hcap)
    as (st1 & Hjoin & Hu1 & Hrooms1 & Hheap1).
  assert (Hroom1 : get_room st1 ""
            = Some (Room.mk "" [user_id] MAX_USERS_PER_ROOM (uuid4 (length (heap st))))).
  { apply get_room_Some. exists (length (heap st)). split; [|done].
    by rewrite Hrooms1, lookup_insert_eq. }
  assert (Hleave : leave_room user_id st1 = (st1, None)).
  { by apply (leave_room_with_empty_reference user_id (User.set_room_id (Some "") u)). }
  exists st1, (Room.mk "" [user_id] MAX_USERS_PER_ROOM (uuid4 (length (heap st)))).
  split_and!; try done.
  - unfold get_user_room_id. by rewrite Hu1.
  - by rewrite Hleave, get_all_rooms_lookup.
Qed.

(** C10 fails on the code.  After the join of the theorem before,
    [cleanup_room] of the room named by the empty string deletes the room
    but, its [leave_room] doing nothing, leaves the session's reference
    [""], which now names a room that is absent from the registry.
    [leave_room] returns [None] and removes no room, but it does not clear
    the reference: it is [""] as before, not [None]. *)
Theorem leave_room_keeps_empty_stale_reference
    (user_id : string) (u : User.t) (st : State) :
  get_user st user_id = Some u → User.room_id u = None → _rooms st !! "" = None →
  (0 < MAX_USERS_PER_ROOM)%Z →
  ∃ st1 st2, join_room user_id "" st = (st1, true) ∧
    cleanup_room "" st1 = (st2, true) ∧
    get_user_room_id st2 user_id = Some "" ∧
    get_room st2 "" = None ∧ get_all_rooms st2 !! "" = None ∧
    leave_room user_id st2 = (st2, None) ∧
    get_user_room_id (leave_room user_id st2).1 user_id = Some "".
Proof.
  intros Hu HR Hnone Hcap.
  destruct (join_unnamed_room user_id u st Hu HR Hnone Hcap)
    as (st1 & Hjoin & Hu1 & Hrooms1 & Hheap1).
  assert (Hleave1 : leave_room user_id st1 = (st1, None)).
  { by apply (leave_room_with_empty_reference user_id (User.set_room_id (Some "") u)). }
  assert (Hroom1 : get_room st1 ""
            = Some (Room.mk "" [user_id] MAX_USERS_PER_ROOM (uuid4 (length (heap st))))).
  { apply get_room_Some. exists (length (heap st)). split; [|done].
    by rewrite Hrooms1, lookup_insert_eq. }
  assert (Hclean : cleanup_room "" st1 = (set_rooms (delete "" (_rooms st1)) st1, true)).
  { unfold cleanup_room. rewrite Hroom1. cbn [Room.users foldl]. rewrite Hleave1.
    cbn [fst]. by rewrite Hrooms1, lookup_insert_eq. }
  assert (Hu2 : get_user (set_rooms (delete "" (_rooms st1)) st1) user_id
            = Some (User.set_room_id (Some "") u)) by done.
  assert (Hleave2 : leave_room user_id (set_rooms (delete "" (_rooms st1)) st1)
            = (set_rooms (delete "" (_rooms st1)) st1, None)).
  { by apply (leave_room_with_empty_reference user_id (User.set_room_id (Some "") u)). }
  assert (Hgone : get_room (set_rooms (delete "" (_rooms st1)) st1) "" = None).
  { unfold get_room, set_rooms. cbn [_rooms]. by rewrite lookup_delete_eq. }
  exists st1, (set_rooms (delete "" (_rooms st1)) st1). split_and!; try done.
  - unfold get_user_room_id. by rewrite Hu2.
  - by rewrite get_all_rooms_lookup.
  - rewrite Hleave2. unfold get_user_room_id. cbn [fst]. by rewrite Hu2.
Qed.

End unnamed_room.

Lemma leave_room_ignores_room_named_by_empty_string_witness :
  ∃ room, @join_room default_env "S" "" (add_connection "S" open_socket init_state).1
          = (unnamed_room_state, true) ∧
    get_user_room_id unnamed_room_state "S" = Some "" ∧
    get_room unnamed_room_state "" = Some room ∧ Room.users room = ["S"] ∧
    leave_room "S" unnamed_room_state = (unnamed_room_state, None).
Proof.
  destruct (@leave_room_ignores_room_named_by_empty_string default_env "S"
              (User.mk "S" open_socket None ∅) (add_connection "S" open_socket init_state).1
              ltac:(by vm_compute) ltac:(by vm_compute) ltac:(by vm_compute)
              ltac:(by vm_compute))
    as (st1 & room & Hjoin & Href & Hroom & Husers & Hleave & _).
  assert (st1 = unnamed_room_state) as -> by (unfold unnamed_room_state; by rewrite Hjoin).
  exists room. by split_and!.
Defined.

Lemma leave_room_keeps_empty_stale_reference_witness :
  cleanup_room "" unnamed_room_state = (unnamed_room_cleaned_state, true) ∧
  get_user_room_id unnamed_room_cleaned_state "S" = Some "" ∧
  get_room unnamed_room_cleaned_state "" = None ∧
  leave_room "S" unnamed_room_cleaned_state = (unnamed_room_cleaned_state, None).
Proof.
  destruct (@leave_room_keeps_empty_stale_reference default_env "S"
              (User.mk "S" open_socket None ∅) (add_connection "S" open_socket init_state).1
              ltac:(by vm_compute) ltac:(by vm_compute) ltac:(by vm_compute)
              ltac:(by vm_compute))
    as (st1 & st2 & Hjoin & Hclean & Href & Hgone & _ & Hleave & _).
  assert (st1 = unnamed_room_state) as -> by (unfold unnamed_room_state; by rewrite Hjoin).
  assert (st2 = unnamed_room_cleaned_state) as ->
    by (unfold unnamed_room_cleaned_state; by rewrite Hclean).
  by split_and!.
Defined.

(** ** Rooms: capacity *)

Lemma get_room_ext (st st' : State) (R : string) :
  _rooms st' = _rooms st → heap st' = heap st → get_room st' R = get_room st R.
Proof. intros Hr Hh. unfold get_room. by rewrite Hr, Hh. Qed.

Lemma wf_rooms_ext (st st' : State) :
  _rooms st' = _rooms st → heap st' = heap st → wf_rooms st → wf_rooms st'.
Proof. intros Hr Hh. unfold wf_rooms. by rewrite Hr, Hh. Qed.

Lemma within_capacity_ext (st st' : State) :
  _rooms st' = _rooms st → heap st' = heap st → within_capacity st → within_capacity st'.
Proof.
  intros Hr Hh Hcap R room. rewrite (get_room_ext st st') by done. apply Hcap.
Qed.

Lemma py_remove_sublist (x : string) (l : list string) : sublist (py_remove x l) l.
Proof.
  induction l as [|y l IH]; [done|]. simpl.
  case_decide; [by apply sublist_cons|by apply sublist_skip].
Qed.

Lemma sublist_missing_shorter (x : string) (l1 l2 : list string) :
  sublist l1 l2 → x ∈ l2 → x ∉ l1 → length l1 < length l2.
Proof.
  intros Hsub Hin Hnin.
  pose proof (sublist_length _ _ Hsub) as Hle.
  destruct (decide (length l2 ≤ length l1)) as [Hge|]; [|lia].
  exfalso. apply Hnin.
  apply sublist_submseteq in Hsub.
  by rewrite (submseteq_length_Permutation _ _ Hsub Hge).
Qed.

Lemma shrinks_refl (st : State) : shrinks st st.
Proof. split_and!; [done..|]. intros l room Hroom. by exists room. Qed.

Lemma shrinks_trans (st1 st2 st3 : State) :
  shrinks st1 st2 → shrinks st2 st3 → shrinks st1 st3.
Proof.
  intros (Hr12 & Hl12 & Hh12) (Hr23 & Hl23 & Hh23). split_and!.
  - auto.
  - congruence.
  - intros l room3 H3.
    destruct (Hh23 _ _ H3) as (room2 & H2 & Hm2 & Hs2).
    destruct (Hh12 _ _ H2) as (room1 & H1 & Hm1 & Hs1).
    exists room1. split_and!; [done|congruence|by etrans].
Qed.

Lemma shrinks_ext (st st' : State) :
  _rooms st' = _rooms st → heap st' = heap st → shrinks st st'.
Proof.
  intros Hr Hh. unfold shrinks. rewrite Hr, Hh.
  split_and!; [done..|]. intros l room Hroom. by exists room.
Qed.

Lemma shrinks_wf_rooms (st st' : State) : shrinks st st' → wf_rooms st → wf_rooms st'.
Proof.
  intros (Hr & Hl & _) [Hbound Hinj]. split.
  - intros R l HR. rewrite Hl. eauto.
  - intros R1 R2 l H1 H2. eauto.
Qed.

Lemma shrinks_within_capacity (st st' : State) :
  shrinks st st' → within_capacity st → within_capacity st'.
Proof.
  intros (Hr & _ & Hh) Hcap R room' Hroom'.
  apply get_room_Some in Hroom' as (l & Hl & Hroom').
  destruct (Hh _ _ Hroom') as (room & Hroom & Hmax & Hsub).
  assert (get_room st R = Some room) as Hget by (apply get_room_Some; eauto).
  specialize (Hcap _ _ Hget). apply sublist_length in Hsub. lia.
Qed.

Lemma shrinks_after_removal (user_id R : string) (l : nat) (room : Room.t) (st : State) :
  heap st !! l = Some room →
  shrinks st (after_removal user_id R l (Room.users room) st).
Proof.
  intros Hroom. unfold after_removal. split_and!; simpl.
  - intros R' l' HR'.
    destruct (py_remove user_id (Room.users room)); [|done].
    by apply lookup_delete_Some in HR' as [_ ?].
  - apply length_alter.
  - intros l' room' Hroom'. rewrite list_lookup_alter in Hroom'.
    case_decide as Hll; [subst l'|by exists room'].
    rewrite Hroom in Hroom'. simpl in Hroom'. injection Hroom' as <-.
    exists room. split_and!; [done..|]. apply py_remove_sublist.
Qed.

Lemma leave_room_shrinks (user_id : string) (st : State) :
  shrinks st (leave_room user_id st).1.
Proof.
  destruct (leave_room_cases user_id st) as [[-> _]|[Hc|Hc]].
  - apply shrinks_refl.
  - destruct Hc as (u & R & _ & _ & _ & _ & ->). by apply shrinks_ext.
  - destruct Hc as (u & R & l & room & _ & _ & _ & _ & Hroom & _ & ->).
    by apply shrinks_after_removal.
Qed.

Lemma leave_room_fold_shrinks (users : list string) (st : State) :
  shrinks st (foldl (λ s user_id, (leave_room user_id s).1) st users).
Proof.
  revert st. induction users as [|x users IH]; intros st; simpl.
  - apply shrinks_refl.
  - eapply shrinks_trans; [apply leave_room_shrinks|apply IH].
Qed.

Lemma cleanup_room_shrinks (room_id : string) (st : State) :
  shrinks st (cleanup_room room_id st).1.
Proof.
  unfold cleanup_room. destruct (get_room st room_id) as [room|]; [|apply shrinks_refl].
  set (st1 := foldl _ st _).
  assert (shrinks st st1) as Hs by apply leave_room_fold_shrinks.
  destruct (_rooms st1 !! room_id) eqn:E; [|done]. simpl.
  eapply shrinks_trans; [exact Hs|]. split_and!; simpl.
  - intros R l HR. by apply lookup_delete_Some in HR as [_ ?].
  - done.
  - intros l room' Hroom'. by exists room'.
Qed.

Section capacity.
Context `{Env}.

Lemma create_room_spec (R : string) (cap : Z) (st : State) :
  ∃ st1 l, create_room R cap st = (st1, l) ∧
    _rooms st1 !! R = Some l ∧ _connections st1 = _connections st ∧
    ((_rooms st !! R = Some l ∧ st1 = st) ∨
     (_rooms st !! R = None ∧ l = length (heap st) ∧
      _rooms st1 = <[R := l]> (_rooms st) ∧
      heap st1 = heap st ++ [Room.mk R [] cap (uuid4 l)])).
Proof.
  unfold create_room. destruct (_rooms st !! R) as [l|] eqn:E.
  - exists st, l. split_and!; try done. by left.
  - eexists _, _. split; [reflexivity|]. simpl. split_and!; try done.
    + by rewrite lookup_insert_eq.
    + right. by split_and!.
Qed.

Lemma create_room_wf_rooms (R : string) (cap : Z) (st : State) :
  wf_rooms st → wf_rooms (create_room R cap st).1.
Proof.
  intros [Hbound Hinj].
  destruct (create_room_spec R cap st) as (st1 & l & -> & _ & _ & [[_ ->]|Hnew]); [done|].
  destruct Hnew as (Hnone & -> & Hr & Hh). simpl. split.
  - intros R' l'. rewrite Hr, Hh, length_app. simpl. rewrite lookup_insert.
    case_decide; [intros [= <-]; lia|]. intros HR'. apply Hbound in HR'. lia.
  - intros R1 R2 l'. rewrite Hr, !lookup_insert.
    repeat case_decide; subst; try done.
    + intros [= <-] H2. apply Hbound in H2. lia.
    + intros H1 [= <-]. apply Hbound in H1. lia.
    + apply Hinj.
Qed.

Lemma create_room_get_room (R : string) (cap : Z) (st : State) (R' : string) :
  wf_rooms st →
  get_room (create_room R cap st).1 R'
  = if decide (R' = R ∧ _rooms st !! R = None)
    then Some (Room.mk R [] cap (uuid4 (length (heap st))))
    else get_room st R'.
Proof.
  intros [Hbound _].
  destruct (create_room_spec R cap st) as (st1 & l & -> & _ & _ & [[Hl ->]|Hnew]); simpl.
  - rewrite decide_False; [done|]. intros [_ ?]. congruence.
  - destruct Hnew as (Hnone & -> & Hr & Hh). unfold get_room. rewrite Hr, Hh.
    rewrite lookup_insert. case_decide as HRR.
    + subst R'. rewrite decide_True by done. simpl.
      rewrite lookup_app_r by done. by rewrite Nat.sub_diag.
    + rewrite decide_False by naive_solver.
      destruct (_rooms st !! R') as [l'|] eqn:E; [|done]. simpl.
      apply lookup_app_l. by eapply Hbound.
Qed.

Lemma create_room_within_capacity (R : string) (cap : Z) (st : State) :
  (0 ≤ cap)%Z → wf_rooms st → within_capacity st →
  within_capacity (create_room R cap st).1.
Proof.
  intros Hcap Hwf Hst R' room. rewrite create_room_get_room by done.
  case_decide; [|apply Hst]. intros [= <-]. simpl. lia.
Qed.

Lemma join_room_wf_rooms (user_id R : string) (st : State) :
  wf_rooms st → wf_rooms (join_room user_id R st).1.
Proof.
  intros Hwf. unfold join_room.
  destruct (get_user st user_id) as [u|]; [|done].
  pose proof (create_room_wf_rooms R MAX_USERS_PER_ROOM st Hwf) as Hwf1.
  destruct (create_room R MAX_USERS_PER_ROOM st) as [st1 l]. simpl in Hwf1.
  destruct (heap st1 !! l) as [room|]; [|done].
  destruct (Room.is_full room && _); [done|].
  pose proof (leave_room_shrinks user_id st1) as Hs.
  destruct (leave_room user_id st1) as [st2 old]. simpl in Hs.
  pose proof (shrinks_wf_rooms _ _ Hs Hwf1) as Hwf2.
  destruct (heap st2 !! l) as [room2|]; [|done].
  case_bool_decide; [done|]. simpl.
  destruct Hwf2 as [Hb Hi]. split; simpl.
  - intros R' l' HR'. rewrite length_alter. eauto.
  - done.
Qed.

Lemma join_room_within_capacity (user_id R : string) (st : State) :
  (0 ≤ MAX_USERS_PER_ROOM)%Z → wf_rooms st → within_capacity st →
  within_capacity (join_room user_id R st).1.
Proof.
  intros Hmax Hwf Hcap. unfold join_room.
  destruct (get_user st user_id) as [u|]; [|done].
  pose proof (create_room_wf_rooms R MAX_USERS_PER_ROOM st Hwf) as Hwf1.
  pose proof (create_room_within_capacity R MAX_USERS_PER_ROOM st Hmax Hwf Hcap) as Hcap1.
  destruct (create_room_spec R MAX_USERS_PER_ROOM st) as (st1 & l & Hcr & HRl & _).
  rewrite Hcr in *. simpl in Hwf1, Hcap1.
  destruct (heap st1 !! l) as [room|] eqn:Hroom; [|done].
  destruct (Room.is_full room && _) eqn:Hfull; [done|].
  pose proof (leave_room_shrinks user_id st1) as Hs.
  destruct (leave_room user_id st1) as [st2 old]. simpl in Hs.
  pose proof (shrinks_within_capacity _ _ Hs Hcap1) as Hcap2.
  destruct (heap st2 !! l) as [room2|] eqn:Hroom2; [|done].
  destruct (bool_decide (user_id ∈ Room.users room2)) eqn:Hin2; [exact Hcap2|].
  apply bool_decide_eq_false in Hin2. simpl.
  intros R' room' Hroom'. apply get_room_Some in Hroom' as (l' & HRl' & Hroom').
  simpl in HRl', Hroom'. rewrite list_lookup_alter in Hroom'.
  case_decide as Hll.
  - subst l'. rewrite Hroom2 in Hroom'. simpl in Hroom'. injection Hroom' as <-.
    simpl. rewrite length_app. simpl.
    destruct Hs as (_ & _ & Hh). destruct (Hh _ _ Hroom2) as (room1 & Hroom1 & Hm & Hsub).
    assert (room1 = room) as -> by congruence.
    assert (get_room st1 R = Some room) as Hget by (apply get_room_Some; eauto).
    specialize (Hcap1 _ _ Hget). rewrite Hm.
    apply andb_false_iff in Hfull as [Hnotfull|Hmember].
    + unfold Room.is_full in Hnotfull. apply Z.leb_gt in Hnotfull.
      apply sublist_length in Hsub. lia.
    + apply negb_false_iff, bool_decide_eq_true in Hmember.
      pose proof (sublist_missing_shorter _ _ _ Hsub Hmember Hin2). lia.
  - apply (Hcap2 R'). apply get_room_Some. eauto.
Qed.

(** In a well-formed state the references [join_room] follows are never
    dangling: a registered session is turned away only by a full room of
    which it is not a member. *)
Lemma join_room_rejects_only_full_rooms (user_id R : string) (u : User.t) (st : State) :
  wf_rooms st → get_user st user_id = Some u → (join_room user_id R st).2 = false →
  ∃ room, get_room (create_room R MAX_USERS_PER_ROOM st).1 R = Some room ∧
    Room.is_full room = true ∧ user_id ∉ Room.users room.
Proof.
  intros Hwf Hu. unfold join_room. rewrite Hu.
  pose proof (create_room_wf_rooms R MAX_USERS_PER_ROOM st Hwf) as Hwf1.
  destruct (create_room_spec R MAX_USERS_PER_ROOM st) as (st1 & l & Hcr & HRl & _).
  rewrite Hcr in *. simpl in Hwf1.
  destruct (lookup_lt_is_Some_2 (heap st1) l) as [room Hroom];
    [by eapply (proj1 Hwf1)|].
  rewrite Hroom.
  destruct (Room.is_full room && _) eqn:Hfull.
  - intros _. apply andb_true_iff in Hfull as [Hfull Hnin].
    apply negb_true_iff, bool_decide_eq_false in Hnin.
    exists room. split_and!; [|done..]. apply get_room_Some. eauto.
  - pose proof (leave_room_shrinks user_id st1) as (_ & Hlen & _).
    destruct (leave_room user_id st1) as [st2 old]. simpl in Hlen.
    destruct (lookup_lt_is_Some_2 (heap st2) l) as [room2 Hroom2].
    { rewrite Hlen. by eapply (proj1 Hwf1). }
    rewrite Hroom2. by destruct (bool_decide (user_id ∈ Room.users room2)).
Qed.

End capacity.

(** The operations on connections, peer links and sockets leave the rooms
    alone. *)
Lemma same_rooms_refl (st : State) : same_rooms st st.
Proof. done. Qed.

Lemma same_rooms_trans (st1 st2 st3 : State) :
  same_rooms st1 st2 → same_rooms st2 st3 → same_rooms st1 st3.
Proof. intros [??] [??]. split; congruence. Qed.

Lemma add_connection_same_rooms (user_id : string) (ws : WebSocket.t) (st : State) :
  same_rooms st (add_connection user_id ws st).1.
Proof. done. Qed.

Lemma remove_connection_same_rooms (user_id : string) (st : State) :
  same_rooms st (remove_connection user_id st).
Proof. unfold remove_connection. by destruct (_connections st !! user_id). Qed.

Lemma create_peer_connection_same_rooms (user_id target_id : string)
    (pc : RTCPeerConnection.t) (st : State) :
  same_rooms st (create_peer_connection user_id target_id pc st).1.
Proof.
  unfold create_peer_connection. destruct (get_user st user_id) as [u|]; [|done].
  by destruct (User.peer_connections u !! target_id).
Qed.

Lemma close_and_remove_same_rooms (owner peer : string) (st : State) :
  same_rooms st (close_and_remove owner peer st).
Proof.
  unfold close_and_remove. destruct (get_user st owner) as [u|]; [|done].
  destruct (User.peer_connections u !! peer) as [pc|]; [|done].
  by destruct (RTCPeerConnection.still_open pc && RTCPeerConnection.close_raises pc).
Qed.

Lemma cleanup_peer_connection_same_rooms (user_id target_id : string) (st : State) :
  same_rooms st (cleanup_peer_connection user_id target_id st).
Proof.
  unfold cleanup_peer_connection.
  eapply same_rooms_trans; apply close_and_remove_same_rooms.
Qed.

Lemma cleanup_all_user_connections_same_rooms (user_id : string) (st : State) :
  same_rooms st (cleanup_all_user_connections user_id st).
Proof.
  unfold cleanup_all_user_connections. destruct (get_user st user_id) as [u|]; [|done].
  generalize ((map_to_list (User.peer_connections u)).*1). intros ts. revert st.
  induction ts as [|t ts IH]; intros st; simpl; [done|].
  eapply same_rooms_trans; [apply cleanup_peer_connection_same_rooms|apply IH].
Qed.

Lemma forward_same_rooms (target_id : string) (message : Message) (st : State) :
  same_rooms st (forward target_id message st).1.
Proof.
  unfold forward. destruct (get_user st target_id) as [u|]; [|done].
  destruct (WebSocket.closed (User.websocket u)); [done|].
  by destruct (WebSocket.send_str message (User.websocket u)).
Qed.

Lemma send_to_user_same_rooms (user_id : string) (message : Message) (st : State) :
  same_rooms st (send_to_user user_id message st).1.
Proof.
  unfold send_to_user. destruct (get_user st user_id) as [u|]; [|done].
  destruct (WebSocket.closed (User.websocket u)); [done|].
  by destruct (WebSocket.send_str message (User.websocket u)).
Qed.

Section capacity_invariant.
Context `{Env}.

Lemma reachable_wf_and_capacity (st : State) :
  (0 ≤ MAX_USERS_PER_ROOM)%Z → reachable st → wf_rooms st ∧ within_capacity st.
Proof.
  intros Hmax.
  assert (Hframe : ∀ st st', same_rooms st st' →
            wf_rooms st ∧ within_capacity st → wf_rooms st' ∧ within_capacity st').
  { intros s s' [Hr Hh] [Hwf Hcap].
    split; [by eapply wf_rooms_ext|by eapply within_capacity_ext]. }
  assert (Hshrink : ∀ st st', shrinks st st' →
            wf_rooms st ∧ within_capacity st → wf_rooms st' ∧ within_capacity st').
  { intros s s' Hs [Hwf Hcap].
    split; [by eapply shrinks_wf_rooms|by eapply shrinks_within_capacity]. }
  induction 1 as [|st user_id ws _ IH|st user_id _ IH|st R cap Hcap _ IH
                  |st user_id R _ IH|st user_id _ IH|st R _ IH
                  |st user_id target_id pc _ IH|st user_id target_id _ IH|st user_id _ IH
                  |st user_id target_id data _ IH|st user_id target_id data _ IH
                  |st user_id target_id data _ IH|st user_id message _ IH].
  - split.
    + split; intros ? ?; simpl; by rewrite ?lookup_empty.
    + intros R room. unfold get_room. simpl. by rewrite lookup_empty.
  - eapply Hframe; [apply add_connection_same_rooms|done].
  - eapply Hframe; [apply remove_connection_same_rooms|done].
  - destruct IH as [Hwf Hin].
    split; [by apply create_room_wf_rooms|by apply create_room_within_capacity].
  - destruct IH as [Hwf Hin].
    split; [by apply join_room_wf_rooms|by apply join_room_within_capacity].
  - eapply Hshrink; [apply leave_room_shrinks|done].
  - eapply Hshrink; [apply cleanup_room_shrinks|done].
  - eapply Hframe; [apply create_peer_connection_same_rooms|done].
  - eapply Hframe; [apply cleanup_peer_connection_same_rooms|done].
  - eapply Hframe; [apply cleanup_all_user_connections_same_rooms|done].
  - eapply Hframe; [apply forward_same_rooms|done].
  - eapply Hframe; [apply forward_same_rooms|done].
  - eapply Hframe; [apply forward_same_rooms|done].
  - eapply Hframe; [apply send_to_user_same_rooms|done].
Qed.

(** C4. With a non-negative configured capacity, in every reachable state
    every registered room has at most [max_users] members; and a
    [join_room] by a session that is not a member of a room that is full
    returns [False] and leaves the whole state (the registry of rooms, the
    room objects and every session) as it was. *)
Theorem rooms_never_exceed_capacity :
  (0 ≤ MAX_USERS_PER_ROOM)%Z →
  (∀ st, reachable st → within_capacity st) ∧
  (∀ st user_id R room, get_room st R = Some room → Room.is_full room = true →
     user_id ∉ Room.users room → join_room user_id R st = (st, false)).
Proof.
  intros Hmax. split.
  - intros st Hreach. by apply reachable_wf_and_capacity.
  - intros st user_id R room Hroom Hfull Hnin.
    apply get_room_Some in Hroom as (l & Hl & Hroom).
    unfold join_room. destruct (get_user st user_id) as [u|]; [|done].
    unfold create_room. rewrite Hl, Hroom, Hfull.
    by rewrite bool_decide_eq_false_2.
Qed.

End capacity_invariant.

Lemma rooms_never_exceed_capacity_witness :
  (∀ st, @reachable default_env st → within_capacity st) ∧
  (∀ st user_id R room, get_room st R = Some room → Room.is_full room = true →
     user_id ∉ Room.users room → @join_room default_env user_id R st = (st, false)).
Proof.
  apply (@rooms_never_exceed_capacity default_env). simpl. lia.
Defined.

(** ** Rooms: consistency of room references *)

Lemma get_user_update_user (user_id : string) (f : User.t → User.t) (st : State)
    (other : string) :
  get_user (update_user user_id f st) other
  = if decide (user_id = other) then f <$> get_user st user_id else get_user st other.
Proof. unfold get_user, update_user. simpl. apply lookup_alter. Qed.

Lemma get_user_after_removal (user_id R : string) (l : nat) (users : list string)
    (st : State) (other : string) :
  get_user (after_removal user_id R l users st) other
  = if decide (user_id = other) then User.set_room_id None <$> get_user st user_id
    else get_user st other.
Proof. unfold get_user, after_removal. simpl. apply lookup_alter. Qed.

Lemma get_room_after_removal (user_id R : string) (l : nat) (room : Room.t)
    (st : State) (R' : string) :
  wf_rooms st → _rooms st !! R = Some l → heap st !! l = Some room →
  get_room (after_removal user_id R l (Room.users room) st) R'
  = if decide (R' = R)
    then match py_remove user_id (Room.users room) with
         | [] => None
         | users' => Some (Room.set_users users' room)
         end
    else get_room st R'.
Proof.
  intros [_ Hinj] Hl Hroom. unfold get_room, after_removal. simpl.
  case_decide as HRR.
  - subst R'. destruct (py_remove user_id (Room.users room)) eqn:E.
    + by rewrite lookup_delete_eq.
    + rewrite Hl. simpl. by rewrite list_lookup_alter_eq, Hroom.
  - assert (_rooms st !! R' ≫= (λ l', alter (Room.set_users
              (py_remove user_id (Room.users room))) l (heap st) !! l')
            = _rooms st !! R' ≫= (λ l', heap st !! l')) as Hsame.
    { destruct (_rooms st !! R') as [l'|] eqn:E; [|done]. simpl.
      apply list_lookup_alter_ne. intros ->. apply HRR. by eapply Hinj. }
    destruct (py_remove user_id (Room.users room)); [|done].
    by rewrite lookup_delete_ne.
Qed.

Lemma after_removal_invariant (user_id : string) (u : User.t) (R : string) (l : nat)
    (room : Room.t) (st : State) :
  registry_invariant st →
  get_user st user_id = Some u → User.room_id u = Some R →
  _rooms st !! R = Some l → heap st !! l = Some room → user_id ∈ Room.users room →
  registry_invariant (after_removal user_id R l (Room.users room) st).
Proof.
  intros (Hwf & Hnd & Hne & Hcons) Hu HR Hl Hroom Hin.
  assert (Hget : get_room st R = Some room) by (apply get_room_Some; eauto).
  destruct (py_remove_NoDup user_id (Room.users room) (Hnd _ _ Hget)) as [Hnd' Hnin'].
  split_and!.
  - eapply shrinks_wf_rooms; [by apply shrinks_after_removal|done].
  - intros R' room'. rewrite get_room_after_removal by done.
    case_decide as HRR; [|apply Hnd].
    destruct (py_remove user_id (Room.users room)) eqn:E; [done|].
    by intros [= <-].
  - intros T v R'. rewrite get_user_after_removal.
    case_decide as HT; [|apply Hne].
    rewrite Hu. simpl. by intros [= <-].
  - intros T v Hv R'. rewrite get_user_after_removal in Hv.
    rewrite (get_room_after_removal user_id R l room st R') by done.
    case_decide as HT.
    + subst T. rewrite Hu in Hv. simpl in Hv. injection Hv as <-. simpl.
      split; [done|]. intros (room' & Hroom' & Hin'). exfalso.
      case_decide as HRR.
      * destruct (py_remove user_id (Room.users room)) eqn:E; [done|].
        injection Hroom' as <-. by simpl in Hin'.
      * apply HRR. assert (User.room_id u = Some R') as HR'; [|congruence].
        apply (Hcons user_id u Hu R'). eauto.
    + destruct (Hcons T v Hv R') as [Hto Hfrom]. split.
      * intros HvR. destruct (Hto HvR) as (room0 & Hroom0 & Hin0).
        case_decide as HRR; [|eauto]. subst R'.
        assert (room0 = room) as -> by congruence.
        assert (T ∈ py_remove user_id (Room.users room)) as HinT
          by (apply py_remove_other; done).
        destruct (py_remove user_id (Room.users room)) eqn:E;
          [by apply elem_of_nil in HinT|].
        eexists. split; [done|]. done.
      * intros (room' & Hroom' & Hin'). apply Hfrom.
        case_decide as HRR; [|eauto]. subst R'.
        destruct (py_remove user_id (Room.users room)) eqn:E; [done|].
        injection Hroom' as <-. simpl in Hin'. exists room. split; [done|].
        apply (py_remove_subseteq user_id). by rewrite E.
Qed.

Lemma leave_room_invariant (user_id : string) (st : State) :
  registry_invariant st →
  registry_invariant (leave_room user_id st).1 ∧
  (∀ v, get_user (leave_room user_id st).1 user_id = Some v → User.room_id v = None) ∧
  (∀ other, other ≠ user_id →
     get_user (leave_room user_id st).1 other = get_user st other) ∧
  (∀ R l, _rooms st !! R = Some l → ¬ only_member st user_id R →
     _rooms (leave_room user_id st).1 !! R = Some l).
Proof.
  intros Hinv. pose proof Hinv as (Hwf & Hnd & Hne & Hcons).
  destruct (leave_room_cases user_id st) as [[-> Hc]|[Hc|Hc]]; simpl.
  - split_and!; try done. intros v Hv.
    destruct Hc as [Hnone|(u & Hu & Ht)]; [congruence|].
    assert (v = u) as -> by congruence.
    apply truthy_false in Ht as [?|Hempty]; [done|].
    exfalso. by apply (Hne user_id u "").
  - exfalso. destruct Hc as (u & R & Hu & HR & _ & Hnot & _).
    destruct (proj1 (Hcons user_id u Hu R) HR) as (room & Hroom & Hin).
    by apply (Hnot room).
  - destruct Hc as (u & R & l & room & Hu & HR & HRne & Hl & Hroom & Hin & ->). simpl.
    split_and!.
    + by eapply after_removal_invariant.
    + intros v. rewrite get_user_after_removal, decide_True by done.
      rewrite Hu. simpl. by intros [= <-].
    + intros other Hother. rewrite get_user_after_removal. by rewrite decide_False.
    + intros R' l' HR' Hnotonly. unfold after_removal. simpl.
      destruct (py_remove user_id (Room.users room)) eqn:E; [|done].
      rewrite lookup_delete_ne; [done|]. intros <-. apply Hnotonly.
      exists room. split; [apply get_room_Some; eauto|].
      by apply py_remove_nil_NoDup.
Qed.

Lemma add_connection_invariant (user_id : string) (ws : WebSocket.t) (st : State) :
  registry_invariant st → unused_identifier st user_id →
  registry_invariant (add_connection user_id ws st).1.
Proof.
  intros (Hwf & Hnd & Hne & Hcons) [Hfree Hunlisted].
  assert (Hget : ∀ other, get_user (add_connection user_id ws st).1 other
                 = if decide (user_id = other) then Some (User.mk user_id ws None ∅)
                   else get_user st other).
  { intros other. unfold get_user, add_connection. simpl. apply lookup_insert. }
  split_and!; try done.
  - intros T v R. rewrite Hget. case_decide; [by intros [= <-]|apply Hne].
  - intros T v Hv R. rewrite Hget in Hv. case_decide as HT; [|by apply Hcons].
    subst T. injection Hv as <-. simpl. split; [done|].
    intros (room & Hroom & Hin). exfalso. by eapply Hunlisted.
Qed.

Lemma remove_connection_invariant (user_id : string) (st : State) :
  registry_invariant st → registry_invariant (remove_connection user_id st).
Proof.
  intros (Hwf & Hnd & Hne & Hcons). unfold remove_connection.
  destruct (_connections st !! user_id) eqn:E; [|done].
  assert (Hget : ∀ other v,
            get_user (set_connections (delete user_id (_connections st)) st) other = Some v →
            get_user st other = Some v).
  { intros other v. unfold get_user. simpl. intros Hl.
    by apply lookup_delete_Some in Hl as [_ ?]. }
  split_and!; try done.
  - intros T v R Hv. apply Hget in Hv. by eapply Hne.
  - intros T v Hv R. apply Hget in Hv. by apply Hcons.
Qed.

Lemma get_room_update_room (user_id : string) (g : User.t → User.t) (l : nat)
    (f : Room.t → Room.t) (R : string) (room : Room.t) (st : State) (R' : string) :
  wf_rooms st → _rooms st !! R = Some l → heap st !! l = Some room →
  get_room (update_user user_id g (update_room l f st)) R'
  = if decide (R' = R) then Some (f room) else get_room st R'.
Proof.
  intros [_ Hinj] Hl Hroom. unfold get_room, update_user, update_room. simpl.
  case_decide as HRR.
  - subst R'. rewrite Hl. simpl. by rewrite list_lookup_alter_eq, Hroom.
  - destruct (_rooms st !! R') as [l'|] eqn:E; [|done]. simpl.
    apply list_lookup_alter_ne. intros ->. apply HRR. by eapply Hinj.
Qed.

Section consistency.
Context `{Env}.

Lemma create_room_invariant (R : string) (cap : Z) (st : State) :
  registry_invariant st →
  registry_invariant (create_room R cap st).1 ∧
  (∀ user_id, ¬ only_member st user_id R →
              ¬ only_member (create_room R cap st).1 user_id R) ∧
  (∀ user_id, get_user (create_room R cap st).1 user_id = get_user st user_id).
Proof.
  intros (Hwf & Hnd & Hne & Hcons).
  pose proof (create_room_wf_rooms R cap st Hwf) as Hwf1.
  pose proof (create_room_get_room R cap st) as Hget.
  destruct (create_room_spec R cap st) as (st1 & l & Hcr & _ & Hconn & _).
  rewrite Hcr in *. simpl in *.
  assert (Huser : ∀ user_id, get_user st1 user_id = get_user st user_id).
  { intros user_id. unfold get_user. by rewrite Hconn. }
  split_and!; try done.
  - split_and!; try done.
    + intros R' room'. rewrite Hget by done.
      case_decide; [|apply Hnd]. intros [= <-]. simpl. constructor.
    + intros T v R'. rewrite Huser. apply Hne.
    + intros T v Hv R'. rewrite Huser in Hv. rewrite Hget by done.
      case_decide as Hnew; [|by apply Hcons].
      destruct Hnew as [-> Hnone]. split.
      * intros HvR. exfalso.
        destruct (proj1 (Hcons T v Hv R) HvR) as (room & Hroom & _).
        apply get_room_Some in Hroom as (l' & Hl' & _). congruence.
      * intros (room & [= <-] & Hin). simpl in Hin. by apply elem_of_nil in Hin.
  - intros user_id Hnot (room & Hroom & Husers). rewrite Hget in Hroom by done.
    case_decide as Hnew.
    + injection Hroom as <-. by simpl in Husers.
    + apply Hnot. by exists room.
Qed.

Lemma join_room_invariant (user_id R : string) (st : State) :
  registry_invariant st → R ≠ "" → ¬ only_member st user_id R →
  registry_invariant (join_room user_id R st).1.
Proof.
  intros Hinv HRne Hnotonly. unfold join_room.
  destruct (get_user st user_id) as [u|] eqn:Hu; [|done].
  destruct (create_room_invariant R MAX_USERS_PER_ROOM st Hinv) as (Hinv1 & Honly1 & Huser1).
  specialize (Honly1 _ Hnotonly).
  destruct (create_room_spec R MAX_USERS_PER_ROOM st) as (st1 & l & Hcr & HRl & _ & _).
  rewrite Hcr in *. simpl in Hinv1, Honly1, Huser1. clear Hcr.
  destruct (heap st1 !! l) as [room|] eqn:Hroom; [|done].
  destruct (Room.is_full room && _); [done|].
  destruct (leave_room_invariant user_id st1 Hinv1) as (Hinv2 & Hnone2 & Hother2 & Hkeep2).
  specialize (Hkeep2 R l HRl Honly1).
  destruct (leave_room user_id st1) as [st2 old]. simpl in Hinv2, Hnone2, Hother2, Hkeep2.
  destruct (heap st2 !! l) as [room2|] eqn:Hroom2; [|done].
  destruct (bool_decide (user_id ∈ Room.users room2)) eqn:Hin2; [done|].
  apply bool_decide_eq_false in Hin2. simpl.
  destruct Hinv2 as (Hwf2 & Hnd2 & Hne2 & Hcons2).
  assert (Hget2 : get_room st2 R = Some room2) by (apply get_room_Some; eauto).
  split_and!.
  - destruct Hwf2 as [Hb Hi]. split; simpl; [|done].
    intros R' l' HR'. rewrite length_alter. eauto.
  - intros R' room'. rewrite (get_room_update_room _ _ l _ R room2) by done.
    case_decide as HRR; [|apply Hnd2]. intros [= <-]. simpl.
    apply NoDup_app. split_and!; [by eapply Hnd2| |apply NoDup_singleton].
    intros x Hx Hx'. apply list_elem_of_singleton in Hx'. by subst.
  - intros T v R'. rewrite get_user_update_user.
    case_decide as HT; [|apply Hne2].
    destruct (get_user (update_room l _ st2) user_id); simpl; [|done].
    intros [= <-]. simpl. by intros [= <-].
  - intros T v Hv R'. rewrite get_user_update_user in Hv.
    rewrite (get_room_update_room _ _ l _ R room2) by done.
    case_decide as HT.
    + subst T.
      destruct (get_user st2 user_id) as [v2|] eqn:Hv2;
        [|unfold get_user, update_room in *; simpl in *; by rewrite Hv2 in Hv].
      assert (v = User.set_room_id (Some R) v2) as ->.
      { unfold get_user, update_room in *. simpl in *. rewrite Hv2 in Hv.
        simpl in Hv. congruence. }
      simpl. split.
      * intros [= <-]. rewrite decide_True by done. eexists. split; [done|].
        simpl. set_solver.
      * intros (room' & Hroom' & Hin'). case_decide as HRR; [by subst|]. exfalso.
        assert (User.room_id v2 = Some R') as HvR by (apply (Hcons2 user_id v2 Hv2); eauto).
        rewrite (Hnone2 v2 eq_refl) in HvR. done.
    + change (get_user (update_room l (Room.set_users (Room.users room2 ++ [user_id])) st2) T)
        with (get_user st2 T) in Hv.
      destruct (Hcons2 T v Hv R') as [Hto Hfrom]. split.
      * intros HvR. destruct (Hto HvR) as (room0 & Hroom0 & Hin0).
        case_decide as HRR; [|eauto]. subst R'.
        assert (room0 = room2) as -> by congruence.
        eexists. split; [done|]. simpl. set_solver.
      * intros (room' & Hroom' & Hin'). apply Hfrom.
        case_decide as HRR; [|eauto]. subst R'. injection Hroom' as <-.
        simpl in Hin'. exists room2. split; [done|]. set_solver.
Qed.

End consistency.

Lemma leave_room_keeps_cleared (user_id other : string) (st : State) :
  (∀ v, get_user st other = Some v → User.room_id v = None) →
  ∀ v, get_user (leave_room user_id st).1 other = Some v → User.room_id v = None.
Proof.
  intros Hcleared v.
  destruct (leave_room_cases user_id st) as [[-> _]|[Hc|Hc]]; simpl; [apply Hcleared|..].
  - destruct Hc as (u & R & _ & _ & _ & _ & ->). simpl.
    rewrite get_user_update_user. case_decide; [|apply Hcleared].
    destruct (get_user st user_id); simpl; [|done]. by intros [= <-].
  - destruct Hc as (u & R & l & room & _ & _ & _ & _ & _ & _ & ->). simpl.
    rewrite get_user_after_removal. case_decide; [|apply Hcleared].
    destruct (get_user st user_id); simpl; [|done]. by intros [= <-].
Qed.

Lemma leave_room_fold_invariant (users : list string) (st : State) :
  registry_invariant st →
  registry_invariant (foldl (λ s user_id, (leave_room user_id s).1) st users) ∧
  (∀ other, (other ∈ users ∨ ∀ v, get_user st other = Some v → User.room_id v = None) →
     ∀ v, get_user (foldl (λ s user_id, (leave_room user_id s).1) st users) other = Some v →
          User.room_id v = None).
Proof.
  revert st. induction users as [|x users IH]; intros st Hinv; simpl.
  - split; [done|]. intros other [Hin|Hcl]; [by apply elem_of_nil in Hin|done].
  - destruct (leave_room_invariant x st Hinv) as (Hinv' & Hnone & _ & _).
    destruct (IH _ Hinv') as [Hinv'' Hcleared]. split; [done|].
    intros other Hother. apply Hcleared.
    destruct Hother as [Hin|Hcl].
    + apply elem_of_cons in Hin as [->|Hin]; [by right|by left].
    + right. by apply leave_room_keeps_cleared.
Qed.

Lemma cleanup_room_invariant (room_id : string) (st : State) :
  registry_invariant st → registry_invariant (cleanup_room room_id st).1.
Proof.
  intros Hinv. unfold cleanup_room.
  destruct (get_room st room_id) as [room|] eqn:Hroom; [|done].
  destruct (leave_room_fold_invariant (Room.users room) st Hinv) as [Hinv1 Hcleared].
  pose proof (leave_room_fold_shrinks (Room.users room) st) as (Hsub & _ & Hheap).
  set (st1 := foldl _ st _) in *.
  destruct (_rooms st1 !! room_id) as [l|] eqn:Hl; [|done]. simpl.
  destruct Hinv1 as (Hwf1 & Hnd1 & Hne1 & Hcons1).
  assert (Hget : ∀ R', get_room (set_rooms (delete room_id (_rooms st1)) st1) R'
                 = if decide (R' = room_id) then None else get_room st1 R').
  { intros R'. unfold get_room. simpl. case_decide as HRR.
    - subst. by rewrite lookup_delete_eq.
    - by rewrite lookup_delete_ne. }
  split_and!.
  - destruct Hwf1 as [Hb Hi]. split; simpl.
    + intros R' l' HR'. apply lookup_delete_Some in HR' as [_ HR']. eauto.
    + intros R1 R2 l' H1 H2. apply lookup_delete_Some in H1 as [_ H1].
      apply lookup_delete_Some in H2 as [_ H2]. eauto.
  - intros R' room'. rewrite Hget. case_decide; [done|apply Hnd1].
  - done.
  - intros T v Hv R'. rewrite Hget.
    change (get_user (set_rooms (delete room_id (_rooms st1)) st1) T)
      with (get_user st1 T) in Hv.
    case_decide as HRR; [|by apply Hcons1]. subst R'.
    split; [|by intros (? & ? & _)]. intros HvR. exfalso.
    destruct (proj1 (Hcons1 T v Hv room_id) HvR) as (room1 & Hroom1 & Hin1).
    apply get_room_Some in Hroom1 as (l1 & Hl1 & Hroom1).
    destruct (Hheap _ _ Hroom1) as (room0 & Hroom0 & _ & Hsublist).
    assert (get_room st room_id = Some room0) as Hget0.
    { apply get_room_Some. exists l1. split; [by apply Hsub|done]. }
    assert (room0 = room) as -> by congruence.
    assert (User.room_id v = None) as Hnone; [|congruence].
    apply (Hcleared T); [|done]. left. by apply (sublist_subseteq _ _ Hsublist).
Qed.

Section consistency_theorem.
Context `{Env}.

Lemma orderly_reachable_invariant (st : State) :
  orderly_reachable st → registry_invariant st.
Proof.
  induction 1 as [|st user_id ws _ IH Hunused|st user_id _ IH
                  |st user_id R _ IH HR Hnot|st user_id _ IH|st R _ IH].
  - split_and!.
    + split; intros ? ?; simpl; by rewrite ?lookup_empty.
    + intros R room. unfold get_room. simpl. by rewrite lookup_empty.
    + intros T v R. unfold get_user. simpl. by rewrite lookup_empty.
    + intros T v. unfold get_user. simpl. by rewrite lookup_empty.
  - by apply add_connection_invariant.
  - by apply remove_connection_invariant.
  - by apply join_room_invariant.
  - by apply leave_room_invariant.
  - by apply cleanup_room_invariant.
Qed.

(** C1, amended.  In every state reached through register, join, leave,
    unregister and forced cleanup, when sessions are registered under
    identifiers that are not in use, rooms have non-empty identifiers and
    the only member of a room does not join it again: a registered
    session's room reference is [R] if and only if [R] is a registered room
    whose member list contains the session. *)
Theorem orderly_room_refs_consistent (st : State) :
  orderly_reachable st → room_refs_consistent st.
Proof.
  intros Hreach. by apply orderly_reachable_invariant in Hreach as (_ & _ & _ & Hcons).
Qed.

End consistency_theorem.

Lemma two_member_state_orderly : @orderly_reachable default_env two_member_state.
Proof.
  unfold two_member_state, solo_room_state.
  apply or_join; [|done|].
  - apply or_register.
    + apply or_join; [|done|].
      * apply or_register; [apply or_initial|]. split; [done|].
        intros R room. unfold get_room. simpl. by rewrite lookup_empty.
      * intros (room & Hroom & _). by vm_compute in Hroom.
    + fold solo_room_state. rewrite solo_room_state_eq. split; [done|].
      intros R room Hroom. apply get_room_Some in Hroom as (l & Hl & Hroom).
      simpl in Hl, Hroom. apply lookup_singleton_Some in Hl as [<- <-].
      simpl in Hroom. injection Hroom as <-. simpl. set_solver.
  - fold solo_room_state. intros (room & Hroom & Husers).
    assert (get_room (add_connection "T" open_socket solo_room_state).1 "R"
            = Some (Room.mk "R" ["S"] 5 "room-session-0")) as Hget by (by vm_compute).
    rewrite Hget in Hroom. injection Hroom as <-. simpl in Husers. discriminate.
Qed.

Lemma orderly_room_refs_consistent_witness : room_refs_consistent two_member_state.
Proof.
  exact (@orderly_room_refs_consistent default_env two_member_state
           two_member_state_orderly).
Defined.

(** C1, as stated, fails.  Registering again under an identifier in use
    replaces the session object while the room keeps listing the
    identifier; the only member joining its room again is left with a
    reference to a room that is no longer registered; and a room named by
    the empty string keeps a member whose reference has moved on. *)
Lemma room_refs_inconsistent_states :
  (@registry_reachable default_env reregistered_state ∧
   get_user reregistered_state "S" = Some (User.mk "S" open_socket None ∅) ∧
   get_room reregistered_state "R" = Some (Room.mk "R" ["S"] 5 "room-session-0") ∧
   ¬ room_refs_consistent reregistered_state) ∧
  (@registry_reachable default_env rejoined_state ∧
   get_user rejoined_state "S" = Some (User.mk "S" open_socket (Some "R") ∅) ∧
   get_room rejoined_state "R" = None ∧
   ¬ room_refs_consistent rejoined_state) ∧
  (@registry_reachable default_env empty_name_state ∧
   get_user empty_name_state "S" = Some (User.mk "S" open_socket (Some "B") ∅) ∧
   get_room empty_name_state "" = Some (Room.mk "" ["S"] 5 "room-session-0") ∧
   ¬ room_refs_consistent empty_name_state).
Proof.
  assert (Hsolo : @registry_reachable default_env solo_room_state).
  { unfold solo_room_state. apply rr_join, rr_register, rr_initial. }
  split_and!; try by vm_compute.
  - unfold reregistered_state. by apply rr_register.
  - intros Hcons.
    assert (User.room_id (User.mk "S" open_socket None ∅) = Some "R") as Habs; [|done].
    apply (Hcons "S"); [by vm_compute|].
    eexists. split; [by vm_compute|]. simpl. set_solver.
  - unfold rejoined_state. by apply rr_join.
  - intros Hcons.
    destruct (proj1 (Hcons "S" (User.mk "S" open_socket (Some "R") ∅)
                       ltac:(by vm_compute) "R") eq_refl) as (room & Hroom & _).
    by vm_compute in Hroom.
  - unfold empty_name_state. apply rr_join, rr_join, rr_register, rr_initial.
  - intros Hcons.
    assert (User.room_id (User.mk "S" open_socket (Some "B") ∅) = Some "") as Habs; [|done].
    apply (Hcons "S"); [by vm_compute|].
    eexists. split; [by vm_compute|]. simpl. set_solver.
Qed.

(** The capacity scenario: with capacity two, [S1] and [S2] join [R], [S3]
    is turned away, [S1] leaves and [S3] gets in. *)
Example capacity_two_scenario :
  let j1 := @join_room pair_env "S1" "R" three_sessions in
  let j2 := @join_room pair_env "S2" "R" j1.1 in
  let j3 := @join_room pair_env "S3" "R" j2.1 in
  let l1 := leave_room "S1" j3.1 in
  let j4 := @join_room pair_env "S3" "R" l1.1 in
  (j1.2, get_room_users j1.1 "R") = (true, ["S1"]) ∧
  (j2.2, get_room_users j2.1 "R") = (true, ["S1"; "S2"]) ∧
  j3 = (j2.1, false) ∧
  (l1.2, get_room_users l1.1 "R") = (Some "R", ["S2"]) ∧
  (j4.2, get_room_users j4.1 "R") = (true, ["S2"; "S3"]).
Proof. by vm_compute. Qed.

(** The round trip: [S1] and [S2] join [R] and leave it again; the room is
    gone. *)
Example join_leave_round_trip :
  let st1 := (@join_room pair_env "S2" "R" (@join_room pair_env "S1" "R" three_sessions).1).1 in
  let st2 := (leave_room "S2" (leave_room "S1" st1).1).1 in
  get_all_rooms st2 = ∅ ∧
  get_user_room_id st2 "S1" = None ∧ get_user_room_id st2 "S2" = None.
Proof. by vm_compute. Qed.

(** * Further properties of the managers *)

(** ** Rooms: how the operations compose *)

(** X1. Leaving twice: whatever the state, a second [leave_room] of the
    same session right after the first returns [None] and changes
    nothing. *)
Theorem leave_room_twice (user_id : string) (st : State) :
  leave_room user_id (leave_room user_id st).1 = ((leave_room user_id st).1, None).
Proof.
  assert (Hcleared : ∀ st', (∀ v, get_user st' user_id = Some v → User.room_id v = None) →
            leave_room user_id st' = (st', None)).
  { intros st' Hnone. unfold leave_room.
    destruct (get_user st' user_id) as [v|] eqn:Hv; [|done].
    by rewrite (Hnone v eq_refl). }
  destruct (leave_room_cases user_id st) as [[Hsame Hc]|[Hc|Hc]].
  - by rewrite Hsame.
  - destruct Hc as (u & R & Hu & _ & _ & _ & ->). simpl. apply Hcleared.
    intros v. rewrite get_user_update_user, decide_True by done.
    rewrite Hu. simpl. by intros [= <-].
  - destruct Hc as (u & R & l & room & Hu & _ & _ & _ & _ & _ & ->). simpl.
    apply Hcleared. intros v. rewrite get_user_after_removal, decide_True by done.
    rewrite Hu. simpl. by intros [= <-].
Qed.

Lemma leave_room_keeps_registered (user_id other : string) (st : State) :
  is_Some (get_user (leave_room user_id st).1 other) ↔ is_Some (get_user st other).
Proof.
  destruct (leave_room_cases user_id st) as [[-> _]|[Hc|Hc]]; simpl; [done|..].
  - destruct Hc as (u & R & _ & _ & _ & _ & ->). simpl.
    rewrite get_user_update_user. case_decide as Ho; [subst|done].
    by rewrite fmap_is_Some.
  - destruct Hc as (u & R & l & room & _ & _ & _ & _ & _ & _ & ->). simpl.
    rewrite get_user_after_removal. case_decide as Ho; [subst|done].
    by rewrite fmap_is_Some.
Qed.

(** [leave_room] does not touch a room object that does not list the
    session. *)
Lemma leave_room_heap_other (user_id : string) (l : nat) (room : Room.t) (st : State) :
  heap st !! l = Some room → user_id ∉ Room.users room →
  heap (leave_room user_id st).1 !! l = Some room.
Proof.
  intros Hroom Hnin.
  destruct (leave_room_cases user_id st) as [[-> _]|[Hc|Hc]]; simpl; [done|..].
  - by destruct Hc as (u & R & _ & _ & _ & _ & ->).
  - destruct Hc as (u & R & l0 & room0 & _ & _ & _ & _ & Hroom0 & Hin0 & ->). simpl.
    rewrite list_lookup_alter_ne; [done|]. intros ->. congruence.
Qed.

(** X2. Forced cleanup always leaves the room unregistered: after
    [cleanup_room] the identifier names no room, and it is absent from
    [get_all_rooms]; the call answers [True] only for a room that existed. *)
Theorem cleanup_room_unregisters (room_id : string) (st : State) :
  get_room (cleanup_room room_id st).1 room_id = None ∧
  get_all_rooms (cleanup_room room_id st).1 !! room_id = None ∧
  ((cleanup_room room_id st).2 = true → is_Some (get_room st room_id)).
Proof.
  rewrite get_all_rooms_lookup. unfold cleanup_room.
  destruct (get_room st room_id) as [room|] eqn:Hroom; [|done].
  set (st1 := foldl _ st _).
  destruct (_rooms st1 !! room_id) as [l|] eqn:Hl; simpl.
  - unfold get_room. simpl. rewrite lookup_delete_eq. by split_and!.
  - unfold get_room. rewrite Hl. by split_and!.
Qed.

Lemma leave_all_members (R : string) (users : list string) :
  ∀ (st : State) (l : nat) (room : Room.t),
    registry_invariant st → _rooms st !! R = Some l → heap st !! l = Some room →
    Room.users room = users → users ≠ [] → all_registered st users →
    _rooms (foldl (λ s user_id, (leave_room user_id s).1) st users) !! R = None.
Proof.
  induction users as [|x rest IH]; intros st l room Hinv Hl Hroom Husers Hne Hreg; [done|].
  pose proof Hinv as (Hwf & Hnd & Hrne & Hcons).
  assert (Hget : get_room st R = Some room) by (apply get_room_Some; eauto).
  assert (Hin : x ∈ Room.users room) by (rewrite Husers; set_solver).
  destruct (Hreg x) as [u Hu]; [set_solver|].
  assert (HuR : User.room_id u = Some R) by (apply (Hcons x u Hu R); eauto).
  assert (HRne : R ≠ "") by (by eapply Hrne).
  simpl. rewrite (leave_room_removal x u R l room st) by done. simpl.
  assert (Hrem : py_remove x (Room.users room) = rest).
  { rewrite Husers. simpl. by rewrite decide_True. }
  destruct rest as [|y rest'].
  - simpl. unfold after_removal. simpl. rewrite Hrem. by rewrite lookup_delete_eq.
  - apply (IH _ l (Room.set_users (y :: rest') room)).
    + by eapply after_removal_invariant.
    + unfold after_removal. simpl. by rewrite Hrem.
    + unfold after_removal. simpl. by rewrite list_lookup_alter_eq, Hroom, Hrem.
    + done.
    + done.
    + intros z Hz. rewrite get_user_after_removal.
      case_decide; [rewrite Hu; by eexists|]. apply Hreg. set_solver.
Qed.

(** X3. Forced cleanup of a live room answers [False]: in a consistent
    state, when the room has members and all of them are registered, the
    last [leave_room] of the loop already deletes the room, so
    [cleanup_room] finds nothing left to delete and returns [False]; the
    room is gone all the same and every member's reference is cleared. *)
Theorem cleanup_room_of_live_room_returns_false
    (room_id : string) (room : Room.t) (st : State) :
  registry_invariant st → get_room st room_id = Some room →
  Room.users room ≠ [] → all_registered st (Room.users room) →
  (cleanup_room room_id st).2 = false ∧
  get_room (cleanup_room room_id st).1 room_id = None ∧
  ∀ user_id, user_id ∈ Room.users room →
    get_user_room_id (cleanup_room room_id st).1 user_id = None.
Proof.
  intros Hinv Hroom Hne Hreg.
  pose proof (proj1 (cleanup_room_unregisters room_id st)) as Hgone.
  destruct (leave_room_fold_invariant (Room.users room) st Hinv) as [_ Hcleared].
  pose proof Hroom as Hroom'. apply get_room_Some in Hroom' as (l & Hl & Hh).
  pose proof (leave_all_members room_id (Room.users room) st l room Hinv Hl Hh
                eq_refl Hne Hreg) as Hnone.
  unfold cleanup_room in *. rewrite Hroom in *. rewrite Hnone in *. simpl.
  split_and!; [done..|].
  intros user_id Hin. unfold get_user_room_id.
  destruct (get_user _ user_id) as [v|] eqn:Hv; [|done].
  apply (Hcleared user_id); [by left|done].
Qed.

Lemma cleanup_room_of_live_room_returns_false_witness :
  (cleanup_room "R" two_member_state).2 = false ∧
  get_room (cleanup_room "R" two_member_state).1 "R" = None ∧
  ∀ user_id, user_id ∈ ["S"; "T"] →
    get_user_room_id (cleanup_room "R" two_member_state).1 user_id = None.
Proof.
  apply (cleanup_room_of_live_room_returns_false "R"
           (Room.mk "R" ["S"; "T"] 5 "room-session-0") two_member_state).
  - exact (@orderly_reachable_invariant default_env _ two_member_state_orderly).
  - by vm_compute.
  - done.
  - intros user_id Hin. simpl in Hin.
    apply elem_of_cons in Hin as [->|Hin]; [eexists; by vm_compute|].
    apply elem_of_cons in Hin as [->|Hin]; [eexists; by vm_compute|].
    by apply elem_of_nil in Hin.
Defined.

Section joining.
Context `{Env}.

(** X4. Joining appends: in a consistent state, a registered session that
    joins an existing room which is not full and does not list it is added
    at the end of the member list, so that the list keeps the order of
    arrival; the call returns [True], the session's reference names the
    room, and no other room lists the session afterwards. *)
Theorem join_room_appends_member
    (user_id R : string) (u : User.t) (room : Room.t) (st : State) :
  registry_invariant st → R ≠ "" → get_user st user_id = Some u →
  get_room st R = Some room → Room.is_full room = false →
  user_id ∉ Room.users room →
  ∃ st', join_room user_id R st = (st', true) ∧
    get_room st' R = Some (Room.set_users (Room.users room ++ [user_id]) room) ∧
    get_user_room_id st' user_id = Some R ∧
    (∀ R' room', R' ≠ R → get_room st' R' = Some room' → user_id ∉ Room.users room').
Proof.
  intros Hinv HRne Hu Hroom Hfull Hnin.
  assert (Hnotonly : ¬ only_member st user_id R).
  { intros (room' & Hroom' & Husers). rewrite Hroom in Hroom'. injection Hroom' as <-.
    apply Hnin. rewrite Husers. set_solver. }
  pose proof (join_room_invariant user_id R st Hinv HRne Hnotonly) as Hinv'.
  apply get_room_Some in Hroom as (l & Hl & Hh).
  destruct (leave_room_invariant user_id st Hinv) as (Hinv2 & _ & _ & Hkeep).
  specialize (Hkeep R l Hl Hnotonly).
  pose proof (leave_room_heap_other user_id l room st Hh Hnin) as Hh2.
  pose proof (proj2 (leave_room_keeps_registered user_id user_id st)
                ltac:(by rewrite Hu)) as [v2 Hv2].
  unfold join_room in *. rewrite Hu in *. unfold create_room in *. rewrite Hl in *.
  rewrite Hh, Hfull in *. simpl in *.
  destruct (leave_room user_id st) as [st2 old]. simpl in *.
  rewrite Hh2 in *. rewrite bool_decide_eq_false_2 in * by done.
  eexists. split; [reflexivity|]. simpl in Hinv'.
  assert (Hget : get_room (update_user user_id (User.set_room_id (Some R))
                    (update_room l (Room.set_users (Room.users room ++ [user_id])) st2)) R
                 = Some (Room.set_users (Room.users room ++ [user_id]) room)).
  { rewrite (get_room_update_room _ _ l _ R room) by (try done; apply Hinv2).
    by rewrite decide_True. }
  assert (Hv : get_user (update_user user_id (User.set_room_id (Some R))
                  (update_room l (Room.set_users (Room.users room ++ [user_id])) st2)) user_id
               = Some (User.set_room_id (Some R) v2)).
  { rewrite get_user_update_user, decide_True by done.
    change (get_user (update_room l _ st2) user_id) with (get_user st2 user_id).
    by rewrite Hv2. }
  split_and!.
  - exact Hget.
  - unfold get_user_room_id. by rewrite Hv.
  - intros R' room' HR' Hroom' Hin'.
    destruct Hinv' as (_ & _ & _ & Hcons').
    assert (User.room_id (User.set_room_id (Some R) v2) = Some R') as Habs.
    { apply (Hcons' user_id _ Hv R'). eauto. }
    simpl in Habs. congruence.
Qed.

(** X5. The first join creates the room: a registered session joining an
    identifier that names no room gets a new room with the configured
    capacity and a fresh folder identifier, with itself as only member,
    provided the configured capacity is positive.  With a capacity of zero
    or less the new room counts as full at once: the join is refused and
    the empty room stays registered. *)
Theorem join_room_creates_room (user_id R : string) (u : User.t) (st : State) :
  get_user st user_id = Some u → _rooms st !! R = None →
  ((0 < MAX_USERS_PER_ROOM)%Z →
   ∃ st', join_room user_id R st = (st', true) ∧
     get_room st' R
       = Some (Room.mk R [user_id] MAX_USERS_PER_ROOM (uuid4 (length (heap st)))) ∧
     get_user_room_id st' user_id = Some R) ∧
  ((MAX_USERS_PER_ROOM ≤ 0)%Z →
   ∃ st', join_room user_id R st = (st', false) ∧
     get_room st' R = Some (Room.mk R [] MAX_USERS_PER_ROOM (uuid4 (length (heap st)))) ∧
     _connections st' = _connections st).
Proof.
  intros Hu Hnone.
  set (l := length (heap st)).
  set (room := Room.mk R [] MAX_USERS_PER_ROOM (uuid4 l)).
  set (st1 := mkState (_connections st) (<[R := l]> (_rooms st)) (heap st ++ [room])).
  assert (Hh1 : heap st1 !! l = Some room).
  { simpl. rewrite lookup_app_r by done. by rewrite Nat.sub_diag. }
  assert (Hl1 : _rooms st1 !! R = Some l) by (simpl; by rewrite lookup_insert_eq).
  unfold join_room. rewrite Hu. unfold create_room. rewrite Hnone.
  fold l. fold room. fold st1. rewrite Hh1.
  split.
  - intros Hpos.
    assert (Room.is_full room = false) as ->.
    { unfold Room.is_full. simpl. apply Z.leb_gt. lia. }
    simpl.
    pose proof (leave_room_heap_other user_id l room st1 Hh1 ltac:(simpl; set_solver)) as Hh2.
    pose proof (proj2 (leave_room_keeps_registered user_id user_id st1)
                  ltac:(by (unfold get_user in *; simpl; rewrite Hu))) as [v2 Hv2].
    assert (Hl2 : _rooms (leave_room user_id st1).1 !! R = Some l).
    { destruct (leave_room_cases user_id st1) as [[-> _]|[Hc|Hc]]; simpl; [done|..].
      - by destruct Hc as (? & ? & _ & _ & _ & _ & ->).
      - destruct Hc as (u0 & R0 & l0 & room0 & _ & _ & _ & Hl0 & Hroom0 & Hin0 & ->).
        unfold after_removal. cbn [_rooms fst].
        assert (R0 ≠ R).
        { intros ->. rewrite Hl1 in Hl0. injection Hl0 as <-.
          rewrite Hh1 in Hroom0. injection Hroom0 as <-. simpl in Hin0.
          by apply elem_of_nil in Hin0. }
        destruct (py_remove user_id (Room.users room0)); [|done].
        by rewrite lookup_delete_ne. }
    destruct (leave_room user_id st1) as [st2 old]. simpl in *.
    rewrite Hh2. rewrite bool_decide_eq_false_2 by (simpl; set_solver).
    eexists. split; [reflexivity|]. split.
    + unfold get_room, update_user, update_room. simpl. rewrite Hl2. simpl.
      by rewrite list_lookup_alter_eq, Hh2.
    + unfold get_user_room_id. rewrite get_user_update_user, decide_True by done.
      change (get_user (update_room l _ st2) user_id) with (get_user st2 user_id).
      by rewrite Hv2.
  - intros Hzero.
    assert (Room.is_full room = true) as ->.
    { unfold Room.is_full. simpl. apply Z.leb_le. lia. }
    rewrite bool_decide_eq_false_2 by (simpl; set_solver). simpl.
    eexists. split; [reflexivity|]. split; [|done].
    unfold get_room. rewrite Hl1. simpl. exact Hh1.
Qed.

(** X6. [create_room] is get-or-create: it leaves every room that is
    already registered exactly as it was (in a well-formed state), so the
    capacity passed for an existing room is ignored; and creating the same
    room again, with whatever capacity, changes nothing and returns the
    same room. *)
Theorem create_room_keeps_existing_rooms (R : string) (cap : Z) (st : State) :
  wf_rooms st →
  (∀ R' room, get_room st R' = Some room →
     get_room (create_room R cap st).1 R' = Some room) ∧
  (∀ cap', create_room R cap' (create_room R cap st).1 = create_room R cap st) ∧
  (∀ user_id, get_user (create_room R cap st).1 user_id = get_user st user_id).
Proof.
  intros Hwf. split_and!.
  - intros R' room Hroom. rewrite create_room_get_room by done.
    rewrite decide_False; [done|]. intros [-> Hnone].
    apply get_room_Some in Hroom as (l & Hl & _). congruence.
  - intros cap'. unfold create_room.
    destruct (_rooms st !! R) as [l|] eqn:Hl; simpl.
    + by rewrite Hl.
    + by rewrite lookup_insert_eq.
  - intros user_id. unfold create_room. by destruct (_rooms st !! R).
Qed.

End joining.

(** ** Notifications *)

Lemma send_str_writable (message : Message) (user : User.t) :
  WebSocket.closed (User.websocket user) = false →
  match WebSocket.send_str message (User.websocket user) with
  | Returns ws' => User.set_websocket ws' user
  | Raises _ => user
  end = deliver message user.
Proof.
  intros Hopen. unfold deliver, writable, WebSocket.send_str, with_frame. rewrite Hopen.
  by destruct (WebSocket.send_raises (User.websocket user)).
Qed.

(** X7. Unicast: [send_to_user] answers [True] exactly when the session is
    registered, its socket is open and the write does not raise; then the
    frame is added to that session's socket and nothing else changes.
    When it answers [False] the state is as before. *)
Theorem send_to_user_delivers (user_id : string) (message : Message) (st : State) :
  ((send_to_user user_id message st).2 = true ↔
   ∃ user, get_user st user_id = Some user ∧ writable user = true) ∧
  (∀ user, get_user st user_id = Some user → writable user = true →
     get_user (send_to_user user_id message st).1 user_id
       = Some (with_frame message user) ∧
     (∀ other, other ≠ user_id →
        get_user (send_to_user user_id message st).1 other = get_user st other) ∧
     same_rooms st (send_to_user user_id message st).1) ∧
  ((send_to_user user_id message st).2 = false →
   (send_to_user user_id message st).1 = st).
Proof.
  assert (Heq : send_to_user user_id message st
                = match get_user st user_id with
                  | Some user =>
                      if writable user
                      then (update_user user_id (λ _, with_frame message user) st, true)
                      else (st, false)
                  | None => (st, false)
                  end).
  { unfold send_to_user, writable, WebSocket.send_str, with_frame.
    destruct (get_user st user_id) as [user|] eqn:Hu; [|done].
    destruct (WebSocket.closed (User.websocket user)) eqn:Hclosed; [done|].
    destruct (WebSocket.send_raises (User.websocket user)) eqn:Hraises; [done|]. simpl.
    f_equal. unfold update_user. f_equal. apply alter_ext.
    intros user' Hu'. unfold get_user in Hu.
    by assert (user' = user) as -> by congruence. }
  rewrite Heq. clear Heq.
  destruct (get_user st user_id) as [user|] eqn:Hu.
  - destruct (writable user) eqn:Hw; simpl.
    + split_and!; [split; eauto| |done].
      intros user' [= <-] _. split_and!; [|intros other Hother|done].
      * rewrite get_user_update_user, decide_True by done. by rewrite Hu.
      * rewrite get_user_update_user. by rewrite decide_False.
    + split_and!; [|intros user' [= <-]; congruence|done].
      split; [done|]. intros (user' & [= <-] & ?). congruence.
  - simpl. split_and!; [|done..]. split; [done|]. by intros (? & [=] & _).
Qed.

Lemma send_to_user_delivers_witness :
  (send_to_user "S" (MsgError "full") solo_room_state).2 = true ∧
  get_user (send_to_user "S" (MsgError "full") solo_room_state).1 "S"
  = Some (with_frame (MsgError "full") (User.mk "S" open_socket (Some "R") ∅)).
Proof.
  split.
  - apply (proj1 (send_to_user_delivers "S" (MsgError "full") solo_room_state)).
    eexists. split; by vm_compute.
  - apply (proj1 (proj2 (send_to_user_delivers "S" (MsgError "full") solo_room_state)));
      by vm_compute.
Defined.

Lemma broadcast_fold_get_user (message : Message) (exclude : option string)
    (users : list string) :
  NoDup users → ∀ (st : State) (other : string),
  get_user
    (foldl (λ s user_id,
              if decide (Some user_id = exclude) then s
              else
                match get_user s user_id with
                | None => s
                | Some user =>
                    if WebSocket.closed (User.websocket user) then s
                    else
                      match WebSocket.send_str message (User.websocket user) with
                      | Returns ws' => update_user user_id (User.set_websocket ws') s
                      | Raises _ => s
                      end
                end)
           st users) other
  = if decide (other ∈ users ∧ Some other ≠ exclude)
    then deliver message <$> get_user st other
    else get_user st other.
Proof.
  induction 1 as [|x users Hx Hnd IH]; intros st other; [done|].
  cbn [foldl].
  - rewrite IH. clear IH.
    set (st1 := if decide (Some x = exclude) then st else _).
    assert (Hst1 : ∀ z, get_user st1 z
                   = if decide (z = x ∧ Some x ≠ exclude)
                     then deliver message <$> get_user st z else get_user st z).
    { intros z. unfold st1. destruct (decide (Some x = exclude)) as [Hex|Hex].
      - rewrite decide_False; [done|]. naive_solver.
      - destruct (get_user st x) as [user|] eqn:Hu.
        + destruct (WebSocket.closed (User.websocket user)) eqn:Hclosed.
          * case_decide as Hz; [|done]. destruct Hz as [-> _]. rewrite Hu. simpl.
            unfold deliver, writable. by rewrite Hclosed.
          * pose proof (send_str_writable message user Hclosed) as Hsend.
            destruct (WebSocket.send_str message (User.websocket user)) as [ws'|e].
            -- rewrite get_user_update_user.
               case_decide as Hxz; case_decide as Hz; try naive_solver.
               subst z. rewrite Hu. simpl. by rewrite Hsend.
            -- case_decide as Hz; [|done]. destruct Hz as [-> _]. rewrite Hu. simpl.
               by rewrite <- Hsend.
        + case_decide as Hz; [|done]. destruct Hz as [-> _]. by rewrite Hu. }
    rewrite Hst1.
    destruct (decide (other = x)) as [->|Hne].
    + rewrite (decide_False (P := x ∈ users ∧ _)) by naive_solver.
      destruct (decide (Some x = exclude)) as [Hex|Hex].
      * rewrite !decide_False; naive_solver.
      * rewrite !decide_True; [done|split; [set_solver|done]|done].
    + rewrite (decide_False (P := other = x ∧ _)) by naive_solver.
      repeat case_decide; try done; exfalso; set_solver.
Qed.

(** X8. Broadcast: when the room's member list has no duplicates,
    [broadcast_to_room] writes the frame once to every member other than
    [exclude] whose session is registered and whose socket takes it, and
    leaves every other session, the rooms and the registry as they were:
    non-members and the excluded session get nothing, members that are not
    registered or whose socket is closed or failing are skipped. *)
Theorem broadcast_to_room_recipients
    (room_id : string) (message : Message) (exclude : option string) (st : State) :
  NoDup (get_room_users st room_id) →
  (∀ other, get_user (broadcast_to_room room_id message exclude st) other
     = if decide (other ∈ get_room_users st room_id ∧ Some other ≠ exclude)
       then deliver message <$> get_user st other
       else get_user st other) ∧
  same_rooms st (broadcast_to_room room_id message exclude st).
Proof.
  intros Hnd. split.
  - intros other. unfold broadcast_to_room. by apply broadcast_fold_get_user.
  - unfold broadcast_to_room. clear Hnd.
    generalize (get_room_users st room_id). intros users.
    revert st. induction users as [|x users IH]; intros st; simpl; [done|].
    eapply same_rooms_trans; [|apply IH].
    destruct (decide (Some x = exclude)); [done|].
    destruct (get_user st x) as [user|]; [|done].
    destruct (WebSocket.closed (User.websocket user)); [done|].
    by destruct (WebSocket.send_str message (User.websocket user)).
Qed.

Lemma broadcast_to_room_recipients_witness :
  get_user (broadcast_to_room "R" (MsgError "bye") (Some "S") two_member_state) "T"
  = deliver (MsgError "bye") <$> get_user two_member_state "T" ∧
  get_user (broadcast_to_room "R" (MsgError "bye") (Some "S") two_member_state) "S"
  = get_user two_member_state "S".
Proof.
  pose proof (proj1 (broadcast_to_room_recipients "R" (MsgError "bye") (Some "S")
                       two_member_state
                       ltac:(vm_compute; repeat constructor; set_solver))) as Hb.
  split.
  - rewrite (Hb "T"). rewrite decide_True; [done|].
    split; [vm_compute; set_solver|done].
  - rewrite (Hb "S"). rewrite decide_False; [done|]. by intros [_ ?].
Defined.

(** ** Signaling relay: delivery *)

Lemma forward_delivers (target_id : string) (message : Message) (target : User.t)
    (st : State) :
  get_user st target_id = Some target →
  WebSocket.closed (User.websocket target) = false →
  (forward target_id message st).2 = Returns () ∧
  get_user (forward target_id message st).1 target_id = Some (deliver message target) ∧
  (∀ other, other ≠ target_id →
     get_user (forward target_id message st).1 other = get_user st other) ∧
  same_rooms st (forward target_id message st).1.
Proof.
  intros Ht Hopen. pose proof (send_str_writable message target Hopen) as Hsend.
  unfold forward. rewrite Ht, Hopen.
  destruct (WebSocket.send_str message (User.websocket target)) as [ws'|e]; simpl.
  - split_and!; [done| |intros other Hother|done].
    + rewrite get_user_update_user, decide_True by done. rewrite Ht. simpl.
      by rewrite Hsend.
    + rewrite get_user_update_user. by rewrite decide_False.
  - split_and!; try done. rewrite Ht. by f_equal.
Qed.

(** X9. Relay, delivery: when the target of an offer, an answer or an ICE
    candidate is registered with an open socket, the handler returns
    normally and writes one frame to the target and to no one else: the
    frame carries the sender's identifier as [from_id] and the [sdp] (or
    [candidate]) entry of the payload, absent when the payload has none.
    If the write raises, the exception is swallowed and nothing changes
    ([deliver] leaves a session whose socket fails as it is). *)
Theorem relay_delivers_to_open_target
    (user_id target_id : string) (data : gmap string string) (target : User.t)
    (st : State) :
  get_user st target_id = Some target →
  WebSocket.closed (User.websocket target) = false →
  ((handle_offer user_id target_id data st).2 = Returns () ∧
   get_user (handle_offer user_id target_id data st).1 target_id
     = Some (deliver (MsgOffer (data !! "sdp") user_id) target) ∧
   (∀ other, other ≠ target_id →
      get_user (handle_offer user_id target_id data st).1 other = get_user st other) ∧
   same_rooms st (handle_offer user_id target_id data st).1) ∧
  ((handle_answer user_id target_id data st).2 = Returns () ∧
   get_user (handle_answer user_id target_id data st).1 target_id
     = Some (deliver (MsgAnswer (data !! "sdp") user_id) target) ∧
   (∀ other, other ≠ target_id →
      get_user (handle_answer user_id target_id data st).1 other = get_user st other) ∧
   same_rooms st (handle_answer user_id target_id data st).1) ∧
  ((handle_ice_candidate user_id target_id data st).2 = Returns () ∧
   get_user (handle_ice_candidate user_id target_id data st).1 target_id
     = Some (deliver (MsgIceCandidate (data !! "candidate") user_id) target) ∧
   (∀ other, other ≠ target_id →
      get_user (handle_ice_candidate user_id target_id data st).1 other
      = get_user st other) ∧
   same_rooms st (handle_ice_candidate user_id target_id data st).1).
Proof.
  intros Ht Hopen. unfold handle_offer, handle_answer, handle_ice_candidate.
  split; [|split]; by apply forward_delivers.
Qed.

Lemma relay_delivers_to_open_target_witness :
  get_user (handle_offer "S" "T" {["sdp" := "v=0"]} two_member_state).1 "T"
  = Some (with_frame (MsgOffer (Some "v=0") "S") (User.mk "T" open_socket (Some "R") ∅)).
Proof.
  exact (proj1 (proj2 (proj1 (relay_delivers_to_open_target "S" "T" {["sdp" := "v=0"]}
          (User.mk "T" open_socket (Some "R") ∅) two_member_state
          ltac:(by vm_compute) ltac:(done))))).
Defined.

(** ** Peer links: single operations *)

(** X10. Closing one link: when the handles close without raising,
    [cleanup_peer_connection user_id target_id] removes the handle that
    [user_id] holds for [target_id] and the mirror handle that [target_id]
    holds for [user_id], and no other; it does the same whichever of the
    two sessions is named first. *)
Theorem cleanup_peer_connection_removes_both_directions
    (user_id target_id : string) (st : State) :
  all_close_cleanly st →
  link (cleanup_peer_connection user_id target_id st) user_id target_id = None ∧
  link (cleanup_peer_connection user_id target_id st) target_id user_id = None ∧
  (∀ owner peer, ¬ (owner = user_id ∧ peer = target_id) →
     ¬ (owner = target_id ∧ peer = user_id) →
     link (cleanup_peer_connection user_id target_id st) owner peer = link st owner peer) ∧
  (∀ owner peer,
     link (cleanup_peer_connection user_id target_id st) owner peer
     = link (cleanup_peer_connection target_id user_id st) owner peer).
Proof.
  intros Hclean. split_and!.
  - rewrite link_cleanup_peer_connection by done. rewrite decide_True; naive_solver.
  - rewrite link_cleanup_peer_connection by done. rewrite decide_True; naive_solver.
  - intros owner peer H1 H2. rewrite link_cleanup_peer_connection by done.
    rewrite decide_False; naive_solver.
  - intros owner peer. rewrite !link_cleanup_peer_connection by done.
    repeat case_decide; naive_solver.
Qed.

Lemma cleanup_peer_connection_removes_both_directions_witness :
  link (cleanup_peer_connection "X" "Y" one_way_link_state) "Y" "X" = None.
Proof.
  exact (proj1 (proj2 (cleanup_peer_connection_removes_both_directions "X" "Y"
           one_way_link_state one_way_link_state_clean))).
Defined.

(** X11. A handle whose [close()] raises is kept: when the handle that
    [user_id] holds for [target_id] is neither closed nor failed and
    closing it raises, [cleanup_peer_connection] swallows the exception and
    leaves that entry in place. *)
Theorem cleanup_peer_connection_keeps_handle_that_fails_to_close
    (user_id target_id : string) (pc : RTCPeerConnection.t) (st : State) :
  link st user_id target_id = Some pc →
  RTCPeerConnection.still_open pc = true → RTCPeerConnection.close_raises pc = true →
  link (cleanup_peer_connection user_id target_id st) user_id target_id = Some pc.
Proof.
  intros Hlink Hopen Hraises.
  assert (Hfirst : close_and_remove user_id target_id st = st).
  { unfold close_and_remove. unfold link in Hlink.
    destruct (get_user st user_id) as [user|]; [|done]. simpl in Hlink.
    by rewrite Hlink, Hopen, Hraises. }
  unfold cleanup_peer_connection. rewrite Hfirst.
  unfold close_and_remove.
  destruct (get_user st target_id) as [target|] eqn:Ht; [|done].
  destruct (User.peer_connections target !! user_id) as [pc'|] eqn:Hpc'; [|done].
  destruct (RTCPeerConnection.still_open pc' && RTCPeerConnection.close_raises pc') eqn:Hc;
    [done|].
  rewrite link_update_user. case_decide as Hut; [|done]. subst target_id.
  rewrite Ht. simpl.
  assert (link st user_id user_id = Some pc') as Hl by (unfold link; by rewrite Ht).
  rewrite Hlink in Hl. injection Hl as <-. by rewrite Hopen, Hraises in Hc.
Qed.

Lemma cleanup_peer_connection_keeps_handle_that_fails_to_close_witness :
  link (cleanup_peer_connection "Y" "X"
          (create_peer_connection "Y" "X" (RTCPeerConnection.mk CSConnected true)
             (add_connection "Y" open_socket init_state).1).1) "Y" "X"
  = Some (RTCPeerConnection.mk CSConnected true).
Proof.
  apply cleanup_peer_connection_keeps_handle_that_fails_to_close; by vm_compute.
Defined.

(** X12. Creating a link: for a session that is not registered
    [create_peer_connection] raises [ValueError] and changes nothing.  For
    a registered one it returns the handle already stored for the target,
    if there is one, and otherwise stores and returns the new handle; the
    handle is stored on the caller's side only (no other entry changes, in
    particular not the mirror one), and a second call returns the same
    handle and changes nothing more. *)
Theorem create_peer_connection_stores_one_direction
    (user_id target_id : string) (new_pc new_pc' : RTCPeerConnection.t) (st : State) :
  (get_user st user_id = None →
   create_peer_connection user_id target_id new_pc st
   = (st, Raises (ValueError ("User " +:+ user_id +:+ " not found")))) ∧
  (is_Some (get_user st user_id) →
   ∃ st' pc, create_peer_connection user_id target_id new_pc st = (st', Returns pc) ∧
     pc = default new_pc (link st user_id target_id) ∧
     link st' user_id target_id = Some pc ∧
     (∀ owner peer, ¬ (owner = user_id ∧ peer = target_id) →
        link st' owner peer = link st owner peer) ∧
     same_rooms st st' ∧
     create_peer_connection user_id target_id new_pc' st' = (st', Returns pc)).
Proof.
  split.
  - intros Hnone. unfold create_peer_connection. by rewrite Hnone.
  - intros [user Hu]. unfold create_peer_connection at 1. rewrite Hu.
    unfold link at 1. rewrite Hu. simpl.
    destruct (User.peer_connections user !! target_id) as [pc|] eqn:Hpc; simpl.
    + exists st, pc. split_and!; try done.
      * unfold link. by rewrite Hu.
      * unfold create_peer_connection. by rewrite Hu, Hpc.
    + eexists _, new_pc. split; [reflexivity|].
      assert (Hlink : ∀ owner peer,
                link (update_user user_id (User.set_peer_connections
                        (<[target_id := new_pc]> (User.peer_connections user))) st)
                     owner peer
                = if decide (owner = user_id ∧ peer = target_id) then Some new_pc
                  else link st owner peer).
      { intros owner peer. unfold link. rewrite get_user_update_user.
        destruct (decide (user_id = owner)) as [<-|Hne].
        - rewrite Hu. simpl. rewrite lookup_insert.
          repeat case_decide; naive_solver.
        - rewrite decide_False; naive_solver. }
      split_and!; try done.
      * rewrite Hlink. by rewrite decide_True.
      * intros owner peer Hne. rewrite Hlink. by rewrite decide_False.
      * unfold create_peer_connection.
        rewrite get_user_update_user, decide_True by done. rewrite Hu. simpl.
        by rewrite lookup_insert_eq.
Qed.

Lemma create_peer_connection_stores_one_direction_witness :
  link one_way_link_state "Y" "X" = Some fresh_handle ∧
  link one_way_link_state "X" "Y" = None.
Proof.
  destruct (proj2 (create_peer_connection_stores_one_direction "Y" "X" fresh_handle
              fresh_handle
              (add_connection "Y" open_socket (add_connection "X" open_socket init_state).1).1)
              ltac:(eexists; by vm_compute))
    as (st' & pc & Hcreate & Hpc & Hlink & Hframe & _ & _).
  assert (st' = one_way_link_state) as -> by (unfold one_way_link_state; by rewrite Hcreate).
  split.
  - rewrite Hlink, Hpc. by vm_compute.
  - rewrite (Hframe "X" "Y") by (by intros [? _]). by vm_compute.
Defined.

(** ** Recording coordinator: lookup, files and purge *)

Lemma find_active_Some (rs : RecState) (session_id k : string) :
  find_active rs session_id = Some k →
  ∃ r, _active_recordings rs !! k = Some r ∧ RecordingSession.session_id r = session_id.
Proof.
  unfold find_active.
  destruct (list_find _ (map_to_list (_active_recordings rs))) as [[i [k' r]]|] eqn:E;
    simpl; [|done].
  intros [= <-]. apply list_find_Some in E as (Hi & HP & _). simpl in HP.
  exists r. split; [|done]. apply elem_of_map_to_list. by eapply list_elem_of_lookup_2.
Qed.

Lemma find_active_None (rs : RecState) (session_id : string) :
  find_active rs session_id = None ↔ no_active_folder rs session_id.
Proof.
  unfold find_active, no_active_folder. split.
  - intros Hnone k r Hk.
    destruct (list_find _ (map_to_list (_active_recordings rs))) as [[i [k' r']]|] eqn:E;
      simpl in Hnone; [done|].
    apply list_find_None in E. rewrite Forall_forall in E.
    apply (E (k, r)). by apply elem_of_map_to_list.
  - intros Hno.
    destruct (list_find _ (map_to_list (_active_recordings rs))) as [[i [k' r']]|] eqn:E;
      simpl; [|done].
    apply list_find_Some in E as (Hi & HP & _). simpl in HP. exfalso.
    apply (Hno k' r'); [|done]. apply elem_of_map_to_list. by eapply list_elem_of_lookup_2.
Qed.

Lemma find_active_unique (rs : RecState) (k : string) (r : RecordingSession.t) :
  _active_recordings rs !! k = Some r →
  unique_active_folder rs (RecordingSession.session_id r) →
  find_active rs (RecordingSession.session_id r) = Some k.
Proof.
  intros Hk Huniq.
  destruct (find_active rs (RecordingSession.session_id r)) as [k'|] eqn:E.
  - apply find_active_Some in E as (r' & Hk' & Hid). f_equal. by eapply Huniq.
  - apply find_active_None in E. by destruct (E k r Hk).
Qed.

(** X13. Looking a recording up by folder identifier: the active set is
    searched first, the history second.  An active recording is found
    under its folder identifier when no other active recording carries the
    same one; when no active recording carries the identifier the answer
    is the history's entry under it, [None] if there is none. *)
Theorem get_recording_session_active_first (rs : RecState) (session_id : string) :
  (∀ k r, _active_recordings rs !! k = Some r →
     RecordingSession.session_id r = session_id →
     unique_active_folder rs session_id →
     get_recording_session rs session_id = Some r) ∧
  (no_active_folder rs session_id →
   get_recording_session rs session_id = _recording_history rs !! session_id).
Proof.
  split.
  - intros k r Hk <- Huniq. unfold get_recording_session.
    by rewrite (find_active_unique rs k r).
  - intros Hno. unfold get_recording_session.
    by rewrite (proj2 (find_active_None rs session_id)).
Qed.

Lemma foldl_delete_lookup (h : gmap string RecordingSession.t) (ks : list string)
    (k : string) :
  foldl (λ h session_id, delete session_id h) h ks !! k
  = if decide (k ∈ ks) then None else h !! k.
Proof.
  revert h. induction ks as [|k0 ks IH]; intros h; simpl; [done|].
  rewrite IH. destruct (decide (k = k0)) as [->|Hne].
  - rewrite lookup_delete_eq. rewrite (decide_True (P := k0 ∈ k0 :: ks)) by set_solver.
    by case_decide.
  - rewrite lookup_delete_ne by done.
    repeat case_decide; try done; exfalso; set_solver.
Qed.

Lemma rec_reachable_history_keyed (rs : RecState) :
  rec_reachable rs → history_keyed_by_folder rs.
Proof.
  assert (Hstop : ∀ rs room_id rec hist_status now,
            history_keyed_by_folder rs →
            history_keyed_by_folder
              (mkRec (delete room_id (_active_recordings rs))
                 (<[RecordingSession.session_id rec :=
                      RecordingSession.stop now hist_status rec]> (_recording_history rs)))).
  { intros rs0 room_id rec status now Hkey k r. simpl. rewrite lookup_insert.
    case_decide as Hk; [subst; by intros [= <-]|apply Hkey]. }
  induction 1 as [|rs room_id now mk st _ IH|rs room_id now _ IH
                  |rs room_id reason now _ IH|rs room_id now _ IH
                  |rs session_id res _ IH|rs local_to_seconds days now _ IH].
  - intros k r. simpl. by rewrite lookup_empty.
  - unfold start_recording.
    destruct (get_room st room_id); [|done].
    destruct (_active_recordings rs !! room_id); [done|]. by destruct mk.
  - unfold stop_recording.
    destruct (_active_recordings rs !! room_id) as [rec|]; [|done].
    by apply (Hstop rs room_id rec _ now).
  - unfold force_stop_recording.
    destruct (_active_recordings rs !! room_id) as [rec|]; [|done].
    by apply (Hstop rs room_id rec _ now).
  - unfold cleanup_room_recording, force_stop_recording.
    destruct (_active_recordings rs !! room_id) as [rec|]; [|done].
    by apply (Hstop rs room_id rec _ now).
  - unfold save_recording.
    destruct res as [fp|e]; destruct (find_active rs session_id) as [k|]; simpl; try done.
    intros k r. simpl. rewrite lookup_alter. case_decide as Hk; [subst k|apply IH].
    destruct (_recording_history rs !! session_id) as [r0|] eqn:E; simpl; [|done].
    intros [= <-]. simpl. by apply IH.
  - unfold cleanup_old_recordings. destruct (days <=? 0)%Z; [done|].
    destruct (int_to_float (days * 24 * 60 * 60)); [|done].
    intros k r. simpl. rewrite foldl_delete_lookup.
    case_decide; [done|apply IH].
Qed.

(** X14. In every reachable state of the coordinator a recording found
    under a folder identifier carries that identifier, whether it is
    active or stopped. *)
Theorem get_recording_session_returns_requested_folder
    (rs : RecState) (session_id : string) (r : RecordingSession.t) :
  rec_reachable rs → get_recording_session rs session_id = Some r →
  RecordingSession.session_id r = session_id.
Proof.
  intros Hreach. unfold get_recording_session.
  destruct (find_active rs session_id) as [k|] eqn:E.
  - apply find_active_Some in E as (r' & Hk & Hid). intros Hr. congruence.
  - intros Hr. by apply (rec_reachable_history_keyed rs Hreach).
Qed.

Lemma recorded_once_reachable : rec_reachable recorded_once.
Proof. unfold recorded_once. apply rr_stop, rr_start, rr_init. Qed.

Lemma get_recording_session_returns_requested_folder_witness :
  RecordingSession.session_id
    (RecordingSession.mk "room-session-0" "R" 0 (Some 10%Z) [] "stopped")
  = "room-session-0".
Proof.
  apply (get_recording_session_returns_requested_folder recorded_once);
    [exact recorded_once_reachable|by vm_compute].
Defined.

Lemma get_recording_session_active_first_witness :
  get_recording_session recorded_once "room-session-0"
  = _recording_history recorded_once !! "room-session-0".
Proof.
  apply (proj2 (get_recording_session_active_first recorded_once "room-session-0")).
  intros k r Hk. by vm_compute in Hk.
Defined.

Lemma after_last_slash_no_slash (b candidate : string) :
  no_slash b = true → after_last_slash b candidate = candidate.
Proof.
  revert candidate. induction b as [|c b IH]; intros candidate; simpl; [done|].
  intros [Hc Hb]%andb_prop. apply negb_true_iff in Hc. rewrite Hc. by apply IH.
Qed.

Lemma after_last_slash_app_slash (a b candidate : string) :
  after_last_slash (a +:+ String "/"%char b) candidate = after_last_slash b b.
Proof.
  revert candidate. induction a as [|c a IH]; intros candidate; simpl; [done|].
  destruct (Ascii.eqb c "/"); apply IH.
Qed.

Lemma after_last_slash_app_ends (a b candidate : string) :
  ends_with_slash a = true →
  after_last_slash (a +:+ b) candidate = after_last_slash b b.
Proof.
  revert candidate. induction a as [|c a IH]; intros candidate; [done|].
  destruct a as [|c' a].
  - simpl. by intros ->.
  - intros Hends. change (String c (String c' a) +:+ b)
      with (String c (String c' a +:+ b)).
    cbn [after_last_slash]. destruct (Ascii.eqb c "/"); by apply IH.
Qed.

Lemma basename_path_join (session_path unique_filename : string) :
  no_slash unique_filename = true →
  basename (path_join session_path unique_filename) = unique_filename.
Proof.
  intros Hname. unfold basename, path_join.
  destruct (starts_with_slash unique_filename) eqn:Hstart.
  { destruct unique_filename as [|c b]; [done|]. simpl in *.
    rewrite Hstart in Hname. done. }
  destruct (String.eqb session_path "") eqn:Hempty.
  { apply String.eqb_eq in Hempty as ->. simpl. by apply after_last_slash_no_slash. }
  simpl. destruct (ends_with_slash session_path) eqn:Hends.
  - rewrite after_last_slash_app_ends by done. by apply after_last_slash_no_slash.
  - change (session_path +:+ "/" +:+ unique_filename)
      with (session_path +:+ String "/"%char unique_filename).
    rewrite after_last_slash_app_slash. by apply after_last_slash_no_slash.
Qed.

(** X15. Saving a file records its name: when the storage collaborator
    stores the file, [save_recording] returns the path of the stored file
    as it got it and appends the base name of that path (for a path joined
    from a folder and a name without slash: that name) to the file list of
    the recording with that folder identifier, the active one if there is
    one (and only one), otherwise the stopped one in the history, whose
    file list thus still grows after the stop; every other recording is
    untouched, and with no recording under the identifier nothing
    changes. *)
Theorem save_recording_appends_file_name
    (session_id filepath : string) (rs : RecState) :
  (save_recording session_id (Returns filepath) rs).2 = Returns filepath ∧
  (∀ k r, _active_recordings rs !! k = Some r →
     RecordingSession.session_id r = session_id → unique_active_folder rs session_id →
     _active_recordings (save_recording session_id (Returns filepath) rs).1 !! k
       = Some (RecordingSession.add_file (basename filepath) r) ∧
     (∀ k', k' ≠ k →
        _active_recordings (save_recording session_id (Returns filepath) rs).1 !! k'
        = _active_recordings rs !! k') ∧
     _recording_history (save_recording session_id (Returns filepath) rs).1
       = _recording_history rs) ∧
  (no_active_folder rs session_id →
   _active_recordings (save_recording session_id (Returns filepath) rs).1
     = _active_recordings rs ∧
   _recording_history (save_recording session_id (Returns filepath) rs).1 !! session_id
     = RecordingSession.add_file (basename filepath) <$> _recording_history rs !! session_id ∧
   (∀ k', k' ≠ session_id →
      _recording_history (save_recording session_id (Returns filepath) rs).1 !! k'
      = _recording_history rs !! k')) ∧
  (∀ session_path unique_filename,
     filepath = path_join session_path unique_filename →
     no_slash unique_filename = true →
     basename filepath = unique_filename).
Proof.
  split_and!.
  - unfold save_recording. by destruct (find_active rs session_id).
  - intros k r Hk Hid Huniq. unfold save_recording. subst session_id.
    rewrite (find_active_unique rs k r) by done. simpl. split_and!; [|intros k' Hk'|done].
    + by rewrite lookup_alter_eq, Hk.
    + by rewrite lookup_alter_ne.
  - intros Hno. unfold save_recording.
    rewrite (proj2 (find_active_None rs session_id)) by done. simpl.
    split_and!; [done| |intros k' Hk'].
    + by rewrite lookup_alter_eq.
    + by rewrite lookup_alter_ne.
  - intros session_path unique_filename -> Hname. by apply basename_path_join.
Qed.

Lemma save_recording_appends_file_name_witness :
  (save_recording "room-session-0"
     (Returns "recordings/room-session-0/late_20240101_000000_1a2b3c4d.webm")
     recorded_once).2
  = Returns "recordings/room-session-0/late_20240101_000000_1a2b3c4d.webm" ∧
  _recording_history
    (save_recording "room-session-0"
       (Returns "recordings/room-session-0/late_20240101_000000_1a2b3c4d.webm")
       recorded_once).1 !! "room-session-0"
  = Some (RecordingSession.mk "room-session-0" "R" 0 (Some 10%Z)
            ["late_20240101_000000_1a2b3c4d.webm"] "stopped") ∧
  basename "recordings/room-session-0/late_20240101_000000_1a2b3c4d.webm"
  = "late_20240101_000000_1a2b3c4d.webm".
Proof.
  destruct (save_recording_appends_file_name "room-session-0"
              "recordings/room-session-0/late_20240101_000000_1a2b3c4d.webm" recorded_once)
    as (Hret & _ & Hhist & Hname).
  destruct (Hhist ltac:(intros k r Hk; by vm_compute in Hk)) as (_ & Hentry & _).
  split_and!.
  - exact Hret.
  - rewrite Hentry. by vm_compute.
  - apply (Hname "recordings/room-session-0" "late_20240101_000000_1a2b3c4d.webm");
      by vm_compute.
Defined.

(** X16. A failed save marks the active recording and keeps it active:
    when the storage collaborator raises, [save_recording] raises the same
    exception; the active recording with that folder identifier gets the
    status ["error"] but stays in the active set, so the room still counts
    as recording although the recording itself no longer says it is
    active; the history is untouched.  If no active recording carries the
    identifier, nothing changes at all. *)
Theorem save_recording_failure_marks_active_recording
    (session_id : string) (e : exn) (rs : RecState) :
  (save_recording session_id (Raises e) rs).2 = Raises e ∧
  _recording_history (save_recording session_id (Raises e) rs).1 = _recording_history rs ∧
  (∀ k r, _active_recordings rs !! k = Some r →
     RecordingSession.session_id r = session_id → unique_active_folder rs session_id →
     _active_recordings (save_recording session_id (Raises e) rs).1 !! k
       = Some (RecordingSession.set_status "error" r) ∧
     is_room_recording (save_recording session_id (Raises e) rs).1 k = true ∧
     RecordingSession.is_active (RecordingSession.set_status "error" r) = false ∧
     (∀ k', k' ≠ k →
        _active_recordings (save_recording session_id (Raises e) rs).1 !! k'
        = _active_recordings rs !! k')) ∧
  (no_active_folder rs session_id → (save_recording session_id (Raises e) rs).1 = rs).
Proof.
  split_and!.
  - unfold save_recording. by destruct (find_active rs session_id).
  - unfold save_recording. by destruct (find_active rs session_id).
  - intros k r Hk Hid Huniq. unfold save_recording. subst session_id.
    rewrite (find_active_unique rs k r) by done. simpl.
    assert (Hl : alter (RecordingSession.set_status "error") k (_active_recordings rs) !! k
                 = Some (RecordingSession.set_status "error" r))
      by (by rewrite lookup_alter_eq, Hk).
    split_and!; [done| |done|intros k' Hk'].
    + unfold is_room_recording. simpl. rewrite Hl. by apply bool_decide_eq_true.
    + by rewrite lookup_alter_ne.
  - intros Hno. unfold save_recording.
    by rewrite (proj2 (find_active_None rs session_id)).
Qed.

Lemma save_recording_failure_marks_active_recording_witness :
  is_room_recording
    (save_recording "room-session-0" (Raises OSError)
       (start_recording "R" 0 false solo_room_state init_rec).1).1 "R" = true.
Proof.
  refine (proj1 (proj2 (proj1 (proj2 (proj2 (save_recording_failure_marks_active_recording
            "room-session-0" OSError
            (start_recording "R" 0 false solo_room_state init_rec).1)))
            "R" (RecordingSession.mk "room-session-0" "R" 0 None [] "active") _ _ _))).
  - by vm_compute.
  - done.
  - intros k1 k2 r1 r2 H1 H2 _ _.
    assert (∀ k r, _active_recordings (start_recording "R" 0 false solo_room_state
                     init_rec).1 !! k = Some r → k = "R") as Hkey.
    { intros k r. rewrite solo_room_state_eq. unfold start_recording, get_room. simpl.
      rewrite lookup_singleton_eq. simpl. rewrite lookup_empty. simpl.
      rewrite lookup_insert. case_decide; [done|]. by rewrite lookup_empty. }
    by rewrite (Hkey _ _ H1), (Hkey _ _ H2).
Defined.

Lemma foldl_delete_size (h : gmap string RecordingSession.t) (ks : list string) :
  NoDup ks → (∀ k, k ∈ ks → is_Some (h !! k)) →
  size (foldl (λ h session_id, delete session_id h) h ks) + length ks = size h.
Proof.
  intros Hnd. revert h. induction Hnd as [|k0 ks Hk0 Hnd IH]; intros h Hin; simpl; [lia|].
  specialize (IH (delete k0 h)).
  rewrite map_size_delete_Some in IH by (apply Hin; set_solver).
  assert (size h ≠ 0).
  { apply (map_size_ne_0_lookup_2 h k0). apply Hin. set_solver. }
  rewrite Nat.add_succ_r, IH; [lia|].
  intros k Hk. rewrite lookup_delete_ne by set_solver. apply Hin. set_solver.
Qed.

Lemma purge_keys (local_to_seconds : Z → Z) (cutoff_time : spec_float)
    (h : gmap string RecordingSession.t) (k : string) :
  k ∈ (filter (λ p : string * RecordingSession.t,
                 Is_true match RecordingSession.ended_at p.2 with
                         | Some e => SFltb (timestamp local_to_seconds e) cutoff_time
                         | None => false
                         end) (map_to_list h)).*1
  ↔ ∃ r, h !! k = Some r ∧ ended_before local_to_seconds cutoff_time r = true.
Proof.
  rewrite list_elem_of_fmap. split.
  - intros ([k' r] & -> & Hin). apply list_elem_of_filter in Hin as [Hold Hin].
    apply elem_of_map_to_list in Hin. exists r. split; [done|].
    unfold ended_before. simpl in Hold. by apply Is_true_true.
  - intros (r & Hk & Hold). exists (k, r). split; [done|].
    apply list_elem_of_filter. split; [|by apply elem_of_map_to_list].
    simpl. unfold ended_before in Hold. by apply Is_true_true.
Qed.

(** X17. Purging the history: [cleanup_old_recordings] with a number of
    days that is zero or negative does nothing and answers 0.  With a
    positive number whose seconds do not fit a float it raises
    [OverflowError] and changes nothing.  Otherwise it removes from the
    history exactly the recordings whose end timestamp is less than the
    cutoff, the timestamp of [now] minus the seconds of [days_old] days,
    all computed and compared as floats; it keeps every other entry as it
    is (a recording without end timestamp is never removed), never touches
    the active set, and answers the number of entries removed. *)
Theorem cleanup_old_recordings_removes_ended_before_cutoff
    (local_to_seconds : Z → Z) (days_old now : Z) (rs : RecState) :
  ((days_old ≤ 0)%Z →
   cleanup_old_recordings local_to_seconds days_old now rs = (rs, Returns 0)) ∧
  _active_recordings (cleanup_old_recordings local_to_seconds days_old now rs).1
  = _active_recordings rs ∧
  ((0 < days_old)%Z → ∀ e, int_to_float (days_old * 24 * 60 * 60) = Raises e →
   cleanup_old_recordings local_to_seconds days_old now rs = (rs, Raises e)) ∧
  ((0 < days_old)%Z → ∀ seconds_old,
   int_to_float (days_old * 24 * 60 * 60) = Returns seconds_old →
   (∀ k,
      _recording_history (cleanup_old_recordings local_to_seconds days_old now rs).1 !! k
      = match _recording_history rs !! k with
        | Some r =>
            if ended_before local_to_seconds
                 (SFsub 53 1024 (timestamp local_to_seconds now) seconds_old) r
            then None else Some r
        | None => None
        end) ∧
   ∃ cleaned_count,
     (cleanup_old_recordings local_to_seconds days_old now rs).2 = Returns cleaned_count ∧
     size (_recording_history (cleanup_old_recordings local_to_seconds days_old now rs).1)
       + cleaned_count
     = size (_recording_history rs)).
Proof.
  unfold cleanup_old_recordings.
  destruct (days_old <=? 0)%Z eqn:Hdays.
  - apply Z.leb_le in Hdays. split_and!; [done|done|lia|lia].
  - apply Z.leb_gt in Hdays.
    destruct (int_to_float (days_old * 24 * 60 * 60)) as [seconds_old|e] eqn:Hconv.
    + simpl. split_and!; [lia|done|done|].
      intros _ ? [= <-]. split.
      * intros k. rewrite foldl_delete_lookup.
        pose proof (purge_keys local_to_seconds
                      (SFsub 53 1024 (timestamp local_to_seconds now) seconds_old)
                      (_recording_history rs) k) as Hkeys.
        case_decide as Hin.
        -- apply Hkeys in Hin as (r & -> & ->). done.
        -- destruct (_recording_history rs !! k) as [r|] eqn:E; [|done].
           destruct (ended_before _ _ r) eqn:Hold; [|done].
           exfalso. apply Hin, Hkeys. eauto.
      * eexists. split; [reflexivity|]. apply foldl_delete_size.
        -- assert (Hsub : sublist
                    (filter (λ p : string * RecordingSession.t,
                       Is_true match RecordingSession.ended_at p.2 with
                               | Some e =>
                                   SFltb (timestamp local_to_seconds e)
                                     (SFsub 53 1024 (timestamp local_to_seconds now)
                                        seconds_old)
                               | None => false
                               end) (map_to_list (_recording_history rs))).*1
                    (map_to_list (_recording_history rs)).*1)
             by apply fmap_sublist, sublist_filter.
           eapply sublist_NoDup in Hsub; [exact Hsub|apply NoDup_fst_map_to_list].
        -- intros k Hk. apply purge_keys in Hk as (r & -> & _). by eexists.
    + simpl. split_and!; [lia|done| |done].
      by intros _ ? [= <-].
Qed.

(** The recording of room [R] ended at 10 microseconds.  One day later to
    the microsecond the float cutoff is already above its timestamp and
    the entry is removed; a microsecond earlier it is kept; and a number of
    days beyond the floats raises. *)
Lemma cleanup_old_recordings_removes_ended_before_cutoff_witness :
  _recording_history (cleanup_old_recordings utc 1 86400000010 recorded_once).1
    !! "room-session-0" = None ∧
  _recording_history (cleanup_old_recordings utc 1 86400000009 recorded_once).1
    !! "room-session-0"
  = Some (RecordingSession.mk "room-session-0" "R" 0 (Some 10%Z) [] "stopped") ∧
  cleanup_old_recordings utc (2 ^ 1024) 86400000010 recorded_once
  = (recorded_once, Raises OverflowError).
Proof.
  split_and!.
  - destruct (proj2 (proj2 (proj2 (cleanup_old_recordings_removes_ended_before_cutoff
               utc 1 86400000010 recorded_once))) ltac:(lia)
               (float_of_int 86400) ltac:(by vm_compute)) as [Hhist _].
    rewrite Hhist. by vm_compute.
  - destruct (proj2 (proj2 (proj2 (cleanup_old_recordings_removes_ended_before_cutoff
               utc 1 86400000009 recorded_once))) ltac:(lia)
               (float_of_int 86400) ltac:(by vm_compute)) as [Hhist _].
    rewrite Hhist. by vm_compute.
  - apply (proj1 (proj2 (proj2 (cleanup_old_recordings_removes_ended_before_cutoff
               utc (2 ^ 1024) 86400000010 recorded_once))));
      [by vm_compute|by vm_compute].
Defined.

(** X18. Forced stop on room deletion: [cleanup_room_recording] answers
    [True] exactly when a recording is active for the room; then that
    recording leaves the active set and enters the history under its
    folder identifier with the end timestamp [now] and the status
    ["stopped (room deleted)"], its other fields unchanged.  Either way no
    recording is active for the room afterwards, and a second call answers
    [False] and changes nothing. *)
Theorem cleanup_room_recording_force_stops (room_id : string) (now now' : Z) (rs : RecState) :
  ((cleanup_room_recording room_id now rs).2 = true ↔
   is_Some (_active_recordings rs !! room_id)) ∧
  (∀ rec, _active_recordings rs !! room_id = Some rec →
     _recording_history (cleanup_room_recording room_id now rs).1
       !! RecordingSession.session_id rec
     = Some (RecordingSession.stop now "stopped (room deleted)" rec) ∧
     _active_recordings (cleanup_room_recording room_id now rs).1
     = delete room_id (_active_recordings rs)) ∧
  (_active_recordings rs !! room_id = None → (cleanup_room_recording room_id now rs).1 = rs) ∧
  is_room_recording (cleanup_room_recording room_id now rs).1 room_id = false ∧
  cleanup_room_recording room_id now' (cleanup_room_recording room_id now rs).1
  = ((cleanup_room_recording room_id now rs).1, false).
Proof.
  assert (Heq : ∀ t rs0, cleanup_room_recording room_id t rs0
            = match _active_recordings rs0 !! room_id with
              | Some rec =>
                  (mkRec (delete room_id (_active_recordings rs0))
                     (<[RecordingSession.session_id rec :=
                          RecordingSession.stop t "stopped (room deleted)" rec]>
                        (_recording_history rs0)), true)
              | None => (rs0, false)
              end).
  { intros t rs0. unfold cleanup_room_recording, force_stop_recording.
    by destruct (_active_recordings rs0 !! room_id). }
  rewrite (Heq now' _), (Heq now rs).
  destruct (_active_recordings rs !! room_id) as [rec|] eqn:E; simpl.
  - rewrite lookup_delete_eq. split_and!.
    + split; [by eexists|done].
    + intros rec' [= <-]. split; [|done]. by rewrite lookup_insert_eq.
    + done.
    + unfold is_room_recording. simpl. rewrite lookup_delete_eq.
      apply bool_decide_eq_false. by intros [? ?].
    + done.
  - rewrite E. split_and!.
    + split; [done|by intros [? ?]].
    + done.
    + done.
    + unfold is_room_recording. rewrite E. apply bool_decide_eq_false. by intros [? ?].
    + done.
Qed.

Lemma cleanup_room_recording_force_stops_witness :
  _recording_history
    (cleanup_room_recording "R" 5 (start_recording "R" 0 false solo_room_state init_rec).1).1
    !! "room-session-0"
  = Some (RecordingSession.mk "room-session-0" "R" 0 (Some 5%Z) [] "stopped (room deleted)").
Proof.
  exact (proj1 (proj1 (proj2 (cleanup_room_recording_force_stops "R" 5 6
           (start_recording "R" 0 false solo_room_state init_rec).1))
           (RecordingSession.mk "room-session-0" "R" 0 None [] "active")
           ltac:(by vm_compute))).
Defined.

(** ** Witnesses for the properties of joining *)

Lemma solo_room_state_orderly : @orderly_reachable default_env solo_room_state.
Proof.
  unfold solo_room_state. apply or_join; [|done|].
  - apply or_register; [apply or_initial|]. split; [done|].
    intros R room. unfold get_room. simpl. by rewrite lookup_empty.
  - intros (room & Hroom & _). by vm_compute in Hroom.
Qed.

Lemma solo_room_with_guest_orderly :
  @orderly_reachable default_env (add_connection "T" open_socket solo_room_state).1.
Proof.
  apply or_register; [apply solo_room_state_orderly|].
  rewrite solo_room_state_eq. split; [done|].
  intros R room Hroom. apply get_room_Some in Hroom as (l & Hl & Hroom).
  simpl in Hl, Hroom. apply lookup_singleton_Some in Hl as [<- <-].
  simpl in Hroom. injection Hroom as <-. simpl. set_solver.
Qed.

Lemma join_room_appends_member_witness :
  ∃ st', @join_room default_env "T" "R" (add_connection "T" open_socket solo_room_state).1
         = (st', true) ∧
    get_room st' "R" = Some (Room.mk "R" ["S"; "T"] 5 "room-session-0") ∧
    get_user_room_id st' "T" = Some "R".
Proof.
  destruct (@join_room_appends_member default_env "T" "R" (User.mk "T" open_socket None ∅)
              (Room.mk "R" ["S"] 5 "room-session-0")
              (add_connection "T" open_socket solo_room_state).1
              (@orderly_reachable_invariant default_env _ solo_room_with_guest_orderly)
              ltac:(done) ltac:(by vm_compute) ltac:(by vm_compute) ltac:(by vm_compute)
              ltac:(simpl; set_solver))
    as (st' & Hjoin & Hroom & Href & _).
  exists st'. by split_and!.
Defined.

Lemma join_room_creates_room_witness :
  (∃ st', @join_room default_env "S" "R" (add_connection "S" open_socket init_state).1
          = (st', true) ∧
     get_room st' "R" = Some (Room.mk "R" ["S"] 5 "room-session-0") ∧
     get_user_room_id st' "S" = Some "R") ∧
  (∃ st', @join_room zero_env "S" "R" (add_connection "S" open_socket init_state).1
          = (st', false) ∧
     get_room st' "R" = Some (Room.mk "R" [] 0 "room-session-0") ∧
     _connections st' = _connections (add_connection "S" open_socket init_state).1).
Proof.
  split.
  - apply (proj1 (@join_room_creates_room default_env "S" "R" (User.mk "S" open_socket None ∅)
             (add_connection "S" open_socket init_state).1
             ltac:(by vm_compute) ltac:(by vm_compute))).
    simpl. lia.
  - apply (proj2 (@join_room_creates_room zero_env "S" "R" (User.mk "S" open_socket None ∅)
             (add_connection "S" open_socket init_state).1
             ltac:(by vm_compute) ltac:(by vm_compute))).
    simpl. lia.
Defined.

Lemma create_room_keeps_existing_rooms_witness :
  get_room (@create_room default_env "R" 2 solo_room_state).1 "R"
  = Some (Room.mk "R" ["S"] 5 "room-session-0").
Proof.
  apply (proj1 (@create_room_keeps_existing_rooms default_env "R" 2 solo_room_state
           (proj1 (@orderly_reachable_invariant default_env _ solo_room_state_orderly)))).
  by vm_compute.
Defined.

(** ** The two views of membership *)

Section membership_views.
Context `{Env}.

(** X19. The connection manager and the room manager agree: in every
    state reached by the orderly use of the registries, the sessions that
    [get_users_in_room] finds for a room are exactly the registered
    sessions that the room's member list contains. *)
Theorem get_users_in_room_agrees_with_member_list
    (st : State) (room_id user_id : string) (u : User.t) :
  orderly_reachable st →
  get_users_in_room st room_id !! user_id = Some u ↔
  get_user st user_id = Some u ∧ user_id ∈ get_room_users st room_id.
Proof.
  intros Hreach. apply orderly_reachable_invariant in Hreach as (_ & _ & _ & Hcons).
  unfold get_users_in_room. rewrite map_lookup_filter_Some. simpl.
  unfold get_room_users. split.
  - intros [Hu HR]. split; [done|].
    destruct (proj1 (Hcons user_id u Hu room_id) HR) as (room & -> & Hin). done.
  - intros [Hu Hin]. split; [done|]. apply (Hcons user_id u Hu room_id).
    destruct (get_room st room_id) as [room|]; [eauto|by apply elem_of_nil in Hin].
Qed.

End membership_views.

Lemma get_users_in_room_agrees_with_member_list_witness :
  get_users_in_room two_member_state "R" !! "T"
  = Some (User.mk "T" open_socket (Some "R") ∅).
Proof.
  apply (proj2 (@get_users_in_room_agrees_with_member_list default_env two_member_state
                  "R" "T" (User.mk "T" open_socket (Some "R") ∅) two_member_state_orderly)).
  split; [by vm_compute|]. vm_compute. set_solver.
Defined.

(** ** Teardown of a connection *)

Lemma same_membership_refl (st : State) : same_membership st st.
Proof. done. Qed.

Lemma same_membership_trans (st1 st2 st3 : State) :
  same_membership st1 st2 → same_membership st2 st3 → same_membership st1 st3.
Proof.
  intros [Hr12 Hu12] [Hr23 Hu23]. split; [by eapply same_rooms_trans|].
  intros user_id. by rewrite Hu23, Hu12.
Qed.

Lemma update_user_same_membership (user_id : string) (f : User.t → User.t) (st : State) :
  (∀ u, User.room_id (f u) = User.room_id u) →
  same_membership st (update_user user_id f st).
Proof.
  intros Hf. split; [done|]. intros other. rewrite get_user_update_user.
  case_decide as Ho; [subst other|done].
  destruct (get_user st user_id) as [u|]; simpl; [|done]. by rewrite Hf.
Qed.

Lemma same_membership_invariant (st st' : State) :
  same_membership st st' → registry_invariant st → registry_invariant st'.
Proof.
  intros [[Hr Hh] Hu] (Hwf & Hnd & Hne & Hcons).
  assert (Hback : ∀ user_id v', get_user st' user_id = Some v' →
            ∃ v, get_user st user_id = Some v ∧ User.room_id v = User.room_id v').
  { intros user_id v' Hv'. specialize (Hu user_id). rewrite Hv' in Hu. simpl in Hu.
    destruct (get_user st user_id) as [v|]; [|done]. exists v. split; [done|].
    simpl in Hu. congruence. }
  split_and!.
  - by eapply wf_rooms_ext.
  - intros R room. rewrite (get_room_ext st st') by done. apply Hnd.
  - intros user_id v' R Hv' HR. destruct (Hback _ _ Hv') as (v & Hv & Heq).
    apply (Hne user_id v R Hv). congruence.
  - intros user_id v' Hv' R. destruct (Hback _ _ Hv') as (v & Hv & Heq).
    rewrite (get_room_ext st st') by done. rewrite <- Heq. by apply Hcons.
Qed.

Lemma broadcast_to_room_same_membership
    (room_id : string) (message : Message) (exclude : option string) (st : State) :
  same_membership st (broadcast_to_room room_id message exclude st).
Proof.
  unfold broadcast_to_room. generalize (get_room_users st room_id). intros users.
  revert st. induction users as [|x users IH]; intros st; simpl; [done|].
  eapply same_membership_trans; [|apply IH].
  destruct (decide (Some x = exclude)); [done|].
  destruct (get_user st x) as [user|]; [|done].
  destruct (WebSocket.closed (User.websocket user)); [done|].
  destruct (WebSocket.send_str message (User.websocket user)); [|done].
  by apply update_user_same_membership.
Qed.

Lemma close_and_remove_same_membership (owner peer : string) (st : State) :
  same_membership st (close_and_remove owner peer st).
Proof.
  unfold close_and_remove. destruct (get_user st owner) as [u|]; [|done].
  destruct (User.peer_connections u !! peer) as [pc|]; [|done].
  destruct (RTCPeerConnection.still_open pc && RTCPeerConnection.close_raises pc); [done|].
  by apply update_user_same_membership.
Qed.

Lemma cleanup_all_user_connections_same_membership (user_id : string) (st : State) :
  same_membership st (cleanup_all_user_connections user_id st).
Proof.
  unfold cleanup_all_user_connections. destruct (get_user st user_id) as [u|]; [|done].
  generalize ((map_to_list (User.peer_connections u)).*1). intros ts. revert st.
  induction ts as [|t ts IH]; intros st; simpl; [done|].
  eapply same_membership_trans; [|apply IH]. unfold cleanup_peer_connection.
  eapply same_membership_trans; apply close_and_remove_same_membership.
Qed.

(** X20. Teardown leaves no trace of the session: starting from a
    consistent state, after [cleanup_user] of a registered session the
    identifier is neither registered nor listed by any room (so it can be
    registered again), the state is consistent again, and no other
    session's room reference has changed; and if the session was in a room
    that no longer exists after the teardown, no recording is active for
    that room. *)
Theorem cleanup_user_leaves_no_trace
    (user_left : string → Message) (user_id : string) (u : User.t) (now : Z) (app : App) :
  registry_invariant (registries app) → get_user (registries app) user_id = Some u →
  unused_identifier (registries (cleanup_user user_left user_id now app)) user_id ∧
  registry_invariant (registries (cleanup_user user_left user_id now app)) ∧
  (∀ other, other ≠ user_id →
     User.room_id <$> get_user (registries (cleanup_user user_left user_id now app)) other
     = User.room_id <$> get_user (registries app) other) ∧
  (∀ R, User.room_id u = Some R →
     get_room (registries (cleanup_user user_left user_id now app)) R = None →
     _active_recordings (recordings (cleanup_user user_left user_id now app)) !! R = None).
Proof.
  intros Hinv Hu.
  destruct (leave_room_invariant user_id (registries app) Hinv)
    as (Hinv1 & Hnone1 & Hother1 & _).
  pose proof (proj2 (leave_room_keeps_registered user_id user_id (registries app))
                ltac:(by rewrite Hu)) as [v1 Hv1].
  assert (Hold : ∀ R, User.room_id u = Some R →
            (leave_room user_id (registries app)).2 = Some R ∧ R ≠ "").
  { intros R HR. pose proof Hinv as (_ & _ & Hne & Hcons).
    destruct (proj1 (Hcons user_id u Hu R) HR) as (room & Hroom & Hin).
    apply get_room_Some in Hroom as (l & Hl & Hh).
    assert (R ≠ "") by (by eapply Hne).
    by rewrite (leave_room_removal user_id u R l room (registries app)). }
  unfold cleanup_user.
  destruct (leave_room user_id (registries app)) as [st1 old]. simpl in *.
  match goal with
  | |- context [let '(st2, rs2) := ?m in _] => destruct m as [st2 rs2] eqn:Hmid
  end.
  assert (Hmem12 : same_membership st1 st2).
  { destruct (truthy old); [|by injection Hmid as <- <-].
    destruct old as [old|]; [|by injection Hmid as <- <-].
    destruct (get_room (broadcast_to_room old (user_left user_id) (Some user_id) st1) old);
      injection Hmid as <- <-; apply broadcast_to_room_same_membership. }
  assert (Hrec : ∀ R, User.room_id u = Some R → get_room st2 R = None →
            _active_recordings rs2 !! R = None).
  { intros R HR Hgone. destruct (Hold R HR) as [-> HRne].
    rewrite (proj2 (truthy_Some R) HRne) in Hmid.
    destruct (get_room (broadcast_to_room R (user_left user_id) (Some user_id) st1) R)
      as [room|] eqn:Hroom; injection Hmid as <- <-; [congruence|].
    unfold cleanup_room_recording, force_stop_recording.
    destruct (_active_recordings (recordings app) !! R) eqn:E; simpl; [|done].
    by rewrite lookup_delete_eq. }
  pose proof (cleanup_all_user_connections_same_membership user_id st2) as Hmem23.
  set (st3 := cleanup_all_user_connections user_id st2) in *.
  pose proof (same_membership_trans _ _ _ Hmem12 Hmem23) as Hmem13.
  pose proof (same_membership_invariant _ _ Hmem13 Hinv1) as Hinv3.
  pose proof (remove_connection_same_rooms user_id st3) as [Hr34 Hh34].
  simpl.
  assert (Hget4 : ∀ other, get_user (remove_connection user_id st3) other
                  = if decide (other = user_id) then None else get_user st3 other).
  { intros other. unfold remove_connection, get_user.
    destruct (_connections st3 !! user_id) eqn:E; simpl.
    - case_decide as Ho; [subst; by rewrite lookup_delete_eq|by rewrite lookup_delete_ne].
    - case_decide as Ho; [by subst|done]. }
  split_and!.
  - split; [by rewrite Hget4, decide_True|].
    intros R room. rewrite (get_room_ext st3) by done.
    destruct Hmem13 as [[Hr13 Hh13] Hu13]. rewrite (get_room_ext st1 st3) by done.
    intros Hroom Hin. destruct Hinv1 as (_ & _ & _ & Hcons1).
    assert (User.room_id v1 = Some R) as Habs by (apply (Hcons1 user_id v1 Hv1 R); eauto).
    by rewrite (Hnone1 v1 Hv1) in Habs.
  - by apply remove_connection_invariant.
  - intros other Hother. rewrite Hget4, decide_False by done.
    destruct Hmem13 as [_ Hu13]. rewrite Hu13. by rewrite Hother1.
  - intros R HR Hgone. apply (Hrec R HR).
    rewrite (get_room_ext st3) in Hgone by done.
    destruct Hmem23 as [[Hr23 Hh23] _]. by rewrite (get_room_ext st2 st3) in Hgone.
Qed.

Lemma cleanup_user_leaves_no_trace_witness :
  unused_identifier
    (registries (cleanup_user (λ user_id, MsgError ("user_left " +:+ user_id)) "S" 7
                   (mkApp two_member_state init_rec))) "S" ∧
  registry_invariant
    (registries (cleanup_user (λ user_id, MsgError ("user_left " +:+ user_id)) "S" 7
                   (mkApp two_member_state init_rec))).
Proof.
  destruct (cleanup_user_leaves_no_trace (λ user_id, MsgError ("user_left " +:+ user_id))
              "S" (User.mk "S" open_socket (Some "R") ∅) 7
              (mkApp two_member_state init_rec)
              (@orderly_reachable_invariant default_env _ two_member_state_orderly)
              ltac:(by vm_compute))
    as (Hunused & Hinv & _).
  by split.
Defined.

(** ** Rooms: what never changes *)

Lemma identity_kept_refl (st : State) : identity_kept st st.
Proof.
  split; [done|]. intros l room room' H1 H2.
  assert (room' = room) as -> by congruence. done.
Qed.

Lemma identity_kept_trans (st1 st2 st3 : State) :
  identity_kept st1 st2 → identity_kept st2 st3 → identity_kept st1 st3.
Proof.
  intros [Hl12 H12] [Hl23 H23]. split; [lia|].
  intros l room1 room3 H1 H3.
  destruct (lookup_lt_is_Some_2 (heap st2) l) as [room2 H2].
  { apply lookup_lt_Some in H1. lia. }
  destruct (H12 _ _ _ H1 H2) as (? & ? & ?). destruct (H23 _ _ _ H2 H3) as (? & ? & ?).
  split_and!; congruence.
Qed.

Lemma identity_kept_ext (st st' : State) : heap st' = heap st → identity_kept st st'.
Proof.
  intros Hh. split; [by rewrite Hh|]. intros l room room' H1 H2. rewrite Hh in H2.
  assert (room' = room) as -> by congruence. done.
Qed.

Lemma identity_kept_set_users (l : nat) (users : list string) (st st' : State) :
  heap st' = alter (Room.set_users users) l (heap st) → identity_kept st st'.
Proof.
  intros Hh. split; [by rewrite Hh, length_alter|].
  intros l' room room' H1 H2. rewrite Hh, list_lookup_alter in H2.
  case_decide; [|assert (room' = room) as -> by congruence; done].
  subst l'. rewrite H1 in H2. simpl in H2. by injection H2 as <-.
Qed.

Lemma leave_room_identity_kept (user_id : string) (st : State) :
  identity_kept st (leave_room user_id st).1.
Proof.
  destruct (leave_room_cases user_id st) as [[-> _]|[Hc|Hc]]; simpl.
  - apply identity_kept_refl.
  - destruct Hc as (u & R & _ & _ & _ & _ & ->). by apply identity_kept_ext.
  - destruct Hc as (u & R & l & room & _ & _ & _ & _ & _ & _ & ->). simpl.
    by eapply identity_kept_set_users.
Qed.

Lemma leave_room_fold_identity_kept (users : list string) (st : State) :
  identity_kept st (foldl (λ s user_id, (leave_room user_id s).1) st users).
Proof.
  revert st. induction users as [|x users IH]; intros st; simpl.
  - apply identity_kept_refl.
  - eapply identity_kept_trans; [apply leave_room_identity_kept|apply IH].
Qed.

Lemma cleanup_room_identity_kept (room_id : string) (st : State) :
  identity_kept st (cleanup_room room_id st).1.
Proof.
  unfold cleanup_room. destruct (get_room st room_id); [|apply identity_kept_refl].
  pose proof (leave_room_fold_identity_kept (Room.users t) st) as Hk.
  set (st1 := foldl _ st _) in *.
  destruct (_rooms st1 !! room_id); [|done]. simpl.
  eapply identity_kept_trans; [exact Hk|]. by apply identity_kept_ext.
Qed.

Lemma shrinks_not_rebound (st st' : State) : shrinks st st' → rooms_not_rebound st st'.
Proof. intros (Hsub & _) R l l' Hl Hl'. apply Hsub in Hl'. congruence. Qed.

Section identity.
Context `{Env}.

Lemma create_room_identity_kept (R : string) (cap : Z) (st : State) :
  identity_kept st (create_room R cap st).1 ∧ rooms_not_rebound st (create_room R cap st).1.
Proof.
  destruct (create_room_spec R cap st) as (st1 & l & -> & _ & _ & [[_ ->]|Hnew]); simpl.
  - split; [apply identity_kept_refl|]. intros R' l1 l2 H1 H2. congruence.
  - destruct Hnew as (Hnone & _ & Hr & Hh). split.
    + split; [rewrite Hh, length_app; lia|].
      intros l' room room' H1 H2. rewrite Hh in H2.
      rewrite (lookup_app_l_Some _ _ _ _ H1) in H2. by injection H2 as <-.
    + intros R' l1 l2 H1 H2. rewrite Hr in H2.
      rewrite lookup_insert_ne in H2 by congruence. congruence.
Qed.

Lemma join_room_identity_kept (user_id R : string) (st : State) :
  identity_kept st (join_room user_id R st).1 ∧
  rooms_not_rebound st (join_room user_id R st).1.
Proof.
  unfold join_room.
  destruct (get_user st user_id) as [u|];
    [|split; [apply identity_kept_refl|intros ? ? ? ? ?; simpl in *; congruence]].
  destruct (create_room_identity_kept R MAX_USERS_PER_ROOM st) as [Hk1 Hb1].
  destruct (create_room R MAX_USERS_PER_ROOM st) as [st1 l]. simpl in Hk1, Hb1.
  destruct (heap st1 !! l) as [room|]; [|done].
  destruct (Room.is_full room && _); [done|].
  pose proof (leave_room_identity_kept user_id st1) as Hk2.
  pose proof (shrinks_not_rebound _ _ (leave_room_shrinks user_id st1)) as Hb2.
  pose proof (leave_room_shrinks user_id st1) as (Hsub2 & _).
  destruct (leave_room user_id st1) as [st2 old]. simpl in Hk2, Hb2, Hsub2.
  assert (Hk12 : identity_kept st st2) by (by eapply identity_kept_trans).
  assert (Hb12 : rooms_not_rebound st st2).
  { intros R' l1 l2 H1 H2. pose proof (Hsub2 _ _ H2) as H2'. by eapply Hb1. }
  destruct (heap st2 !! l) as [room2|]; [|done].
  destruct (bool_decide (user_id ∈ Room.users room2)); [done|]. simpl. split.
  - eapply identity_kept_trans; [exact Hk12|]. by eapply identity_kept_set_users.
  - exact Hb12.
Qed.

(** X21. The identity of a room is fixed: a room that is registered
    before and after a [join_room], a [leave_room] or a [cleanup_room] (of
    any session or room) has kept its identifier, its capacity and its
    folder identifier; members come and go, the rest of the room does not
    change. *)
Theorem room_identity_is_stable (R : string) (room room' : Room.t) (st : State) :
  get_room st R = Some room →
  (∀ user_id R', get_room (join_room user_id R' st).1 R = Some room' →
     same_identity room room') ∧
  (∀ user_id, get_room (leave_room user_id st).1 R = Some room' →
     same_identity room room') ∧
  (∀ R', get_room (cleanup_room R' st).1 R = Some room' → same_identity room room').
Proof.
  intros Hroom. apply get_room_Some in Hroom as (l & Hl & Hh).
  assert (Hstep : ∀ st', identity_kept st st' → rooms_not_rebound st st' →
            get_room st' R = Some room' → same_identity room room').
  { intros st' [_ Hk] Hb Hroom'. apply get_room_Some in Hroom' as (l' & Hl' & Hh').
    assert (l' = l) as -> by (by eapply Hb). by eapply Hk. }
  split_and!.
  - intros user_id R'. apply Hstep; apply join_room_identity_kept.
  - intros user_id.
    apply Hstep; [apply leave_room_identity_kept|].
    apply shrinks_not_rebound, leave_room_shrinks.
  - intros R'. apply Hstep; [apply cleanup_room_identity_kept|].
    apply shrinks_not_rebound, cleanup_room_shrinks.
Qed.

End identity.

Lemma room_identity_is_stable_witness :
  same_identity (Room.mk "R" ["S"] 5 "room-session-0")
                (Room.mk "R" ["S"; "T"] 5 "room-session-0").
Proof.
  apply (proj1 (@room_identity_is_stable default_env "R"
                  (Room.mk "R" ["S"] 5 "room-session-0")
                  (Room.mk "R" ["S"; "T"] 5 "room-session-0")
                  (add_connection "T" open_socket solo_room_state).1
                  ltac:(by vm_compute)) "T" "R").
  by vm_compute.
Defined.

(** ** Rooms: invariants of every reachable state *)

Lemma shrinks_heap_nodup (st st' : State) : shrinks st st' → heap_nodup st → heap_nodup st'.
Proof.
  intros (_ & _ & Hh) Hnd l room' Hroom'.
  destruct (Hh _ _ Hroom') as (room & Hroom & _ & Hsub).
  eapply sublist_NoDup; [|exact Hsub]. by eapply Hnd.
Qed.

Lemma ids_match_step (st st' : State) :
  wf_rooms st → ids_match st → identity_kept st st' →
  (∀ R l, _rooms st' !! R = Some l → _rooms st !! R = Some l) →
  ids_match st'.
Proof.
  intros [Hbound _] Hids [_ Hk] Hsub R l room' HR Hroom'.
  pose proof (Hsub _ _ HR) as HR0.
  destruct (lookup_lt_is_Some_2 (heap st) l) as [room Hroom]; [by eapply Hbound|].
  destruct (Hk _ _ _ Hroom Hroom') as (Hid & _). rewrite Hid. by eapply Hids.
Qed.

Section reachable_invariants.
Context `{Env}.

Lemma create_room_heap_nodup (R : string) (cap : Z) (st : State) :
  heap_nodup st → heap_nodup (create_room R cap st).1.
Proof.
  intros Hnd.
  destruct (create_room_spec R cap st) as (st1 & l & -> & _ & _ & [[_ ->]|Hnew]); [done|].
  destruct Hnew as (_ & _ & _ & Hh). simpl. intros l' room. rewrite Hh.
  intros Hl. apply lookup_app_Some in Hl as [Hl|[_ Hl]]; [by eapply Hnd|].
  apply list_lookup_singleton_Some in Hl as [_ <-]. simpl. constructor.
Qed.

Lemma create_room_ids_match (R : string) (cap : Z) (st : State) :
  wf_rooms st → ids_match st → ids_match (create_room R cap st).1.
Proof.
  intros [Hbound _] Hids.
  destruct (create_room_spec R cap st) as (st1 & l & -> & _ & _ & [[_ ->]|Hnew]); [done|].
  destruct Hnew as (_ & -> & Hr & Hh). simpl. intros R' l' room. rewrite Hr, Hh.
  rewrite lookup_insert. case_decide as HRR.
  - subst R'. intros [= <-]. rewrite lookup_app_r by done. rewrite Nat.sub_diag. simpl.
    by intros [= <-].
  - intros HR'. rewrite lookup_app_l by (by eapply Hbound). by apply Hids.
Qed.

Lemma join_room_heap_nodup (user_id R : string) (st : State) :
  heap_nodup st → heap_nodup (join_room user_id R st).1.
Proof.
  intros Hnd. unfold join_room. destruct (get_user st user_id) as [u|]; [|done].
  pose proof (create_room_heap_nodup R MAX_USERS_PER_ROOM st Hnd) as Hnd1.
  destruct (create_room R MAX_USERS_PER_ROOM st) as [st1 l]. simpl in Hnd1.
  destruct (heap st1 !! l) as [room|]; [|done].
  destruct (Room.is_full room && _); [done|].
  pose proof (shrinks_heap_nodup _ _ (leave_room_shrinks user_id st1) Hnd1) as Hnd2.
  destruct (leave_room user_id st1) as [st2 old]. simpl in Hnd2.
  destruct (heap st2 !! l) as [room2|] eqn:Hroom2; [|done].
  destruct (bool_decide (user_id ∈ Room.users room2)) eqn:Hin; [done|].
  apply bool_decide_eq_false in Hin. simpl. intros l' room'. simpl.
  rewrite list_lookup_alter. case_decide as Hll; [subst l'|apply Hnd2].
  rewrite Hroom2. simpl. intros [= <-]. simpl.
  apply NoDup_app. split_and!; [by eapply Hnd2| |apply NoDup_singleton].
  intros x Hx Hx'. apply list_elem_of_singleton in Hx'. by subst.
Qed.

Lemma join_room_ids_match (user_id R : string) (st : State) :
  wf_rooms st → ids_match st → ids_match (join_room user_id R st).1.
Proof.
  intros Hwf Hids. unfold join_room. destruct (get_user st user_id) as [u|]; [|done].
  pose proof (create_room_wf_rooms R MAX_USERS_PER_ROOM st Hwf) as Hwf1.
  pose proof (create_room_ids_match R MAX_USERS_PER_ROOM st Hwf Hids) as Hids1.
  destruct (create_room R MAX_USERS_PER_ROOM st) as [st1 l]. simpl in Hwf1, Hids1.
  destruct (heap st1 !! l) as [room|]; [|done].
  destruct (Room.is_full room && _); [done|].
  pose proof (leave_room_shrinks user_id st1) as Hs.
  pose proof (leave_room_identity_kept user_id st1) as Hk.
  destruct (leave_room user_id st1) as [st2 old]. simpl in Hs, Hk.
  assert (Hids2 : ids_match st2) by (eapply ids_match_step; [done..|apply Hs]).
  pose proof (shrinks_wf_rooms _ _ Hs Hwf1) as Hwf2.
  destruct (heap st2 !! l) as [room2|]; [|done].
  destruct (bool_decide (user_id ∈ Room.users room2)); [done|]. simpl.
  eapply (ids_match_step st2); [done..| |done].
  by eapply identity_kept_set_users.
Qed.

Lemma reachable_rooms_invariant (st : State) :
  reachable st → wf_rooms st ∧ heap_nodup st ∧ ids_match st.
Proof.
  assert (Hframe : ∀ st st', same_rooms st st' →
            wf_rooms st ∧ heap_nodup st ∧ ids_match st →
            wf_rooms st' ∧ heap_nodup st' ∧ ids_match st').
  { intros s s' [Hr Hh] (Hwf & Hnd & Hids). split_and!.
    - by eapply wf_rooms_ext.
    - unfold heap_nodup. by rewrite Hh.
    - unfold ids_match. by rewrite Hr, Hh. }
  assert (Hshrink : ∀ st st', shrinks st st' → identity_kept st st' →
            wf_rooms st ∧ heap_nodup st ∧ ids_match st →
            wf_rooms st' ∧ heap_nodup st' ∧ ids_match st').
  { intros s s' Hs Hk (Hwf & Hnd & Hids). split_and!.
    - by eapply shrinks_wf_rooms.
    - by eapply shrinks_heap_nodup.
    - eapply ids_match_step; [done..|apply Hs]. }
  induction 1 as [|st user_id ws _ IH|st user_id _ IH|st R cap Hcap _ IH
                  |st user_id R _ IH|st user_id _ IH|st R _ IH
                  |st user_id target_id pc _ IH|st user_id target_id _ IH|st user_id _ IH
                  |st user_id target_id data _ IH|st user_id target_id data _ IH
                  |st user_id target_id data _ IH|st user_id message _ IH].
  - split_and!.
    + split; intros ? ?; simpl; by rewrite ?lookup_empty.
    + intros l room. simpl. by rewrite lookup_nil.
    + intros R l room. simpl. by rewrite lookup_empty.
  - eapply Hframe; [apply add_connection_same_rooms|done].
  - eapply Hframe; [apply remove_connection_same_rooms|done].
  - destruct IH as (Hwf & Hnd & Hids). split_and!.
    + by apply create_room_wf_rooms.
    + by apply create_room_heap_nodup.
    + by apply create_room_ids_match.
  - destruct IH as (Hwf & Hnd & Hids). split_and!.
    + by apply join_room_wf_rooms.
    + by apply join_room_heap_nodup.
    + by apply join_room_ids_match.
  - eapply Hshrink; [apply leave_room_shrinks|apply leave_room_identity_kept|done].
  - eapply Hshrink; [apply cleanup_room_shrinks|apply cleanup_room_identity_kept|done].
  - eapply Hframe; [apply create_peer_connection_same_rooms|done].
  - eapply Hframe; [apply cleanup_peer_connection_same_rooms|done].
  - eapply Hframe; [apply cleanup_all_user_connections_same_rooms|done].
  - eapply Hframe; [apply forward_same_rooms|done].
  - eapply Hframe; [apply forward_same_rooms|done].
  - eapply Hframe; [apply forward_same_rooms|done].
  - eapply Hframe; [apply send_to_user_same_rooms|done].
Qed.

(** X22. In every reachable state, whatever the configuration and however
    the operations were used, a registered room carries the identifier it
    is registered under and lists no session twice. *)
Theorem reachable_rooms_have_own_id_and_no_duplicates
    (st : State) (R : string) (room : Room.t) :
  reachable st → get_room st R = Some room →
  Room.id room = R ∧ NoDup (Room.users room).
Proof.
  intros Hreach Hroom. apply reachable_rooms_invariant in Hreach as (_ & Hnd & Hids).
  apply get_room_Some in Hroom as (l & Hl & Hh). split; [by eapply Hids|by eapply Hnd].
Qed.

End reachable_invariants.

Lemma rejoined_member_reachable :
  @reachable default_env (@join_room default_env "S" "R" two_member_state).1.
Proof.
  unfold two_member_state, solo_room_state.
  repeat first [apply reach_join_room | apply reach_add_connection | apply reach_init].
Qed.

Lemma reachable_rooms_have_own_id_and_no_duplicates_witness :
  Room.id (Room.mk "R" ["T"; "S"] 5 "room-session-0") = "R" ∧ NoDup ["T"; "S"].
Proof.
  apply (@reachable_rooms_have_own_id_and_no_duplicates default_env
           (@join_room default_env "S" "R" two_member_state).1 "R"
           (Room.mk "R" ["T"; "S"] 5 "room-session-0")
           rejoined_member_reachable).
  by vm_compute.
Defined.

(** ** Messages: decoding and encoding *)

Section websocket_message.
Context {V : Type} (str : string → V).

(** X23. Encoding a decoded object gives the object back with two entries
    settled: its type, ["unknown"] when it had none, and its timestamp, the
    decoding time when it had none.  An entry ["timestamp"] of the object
    wins over the decoding time. *)
Theorem to_json_from_json (d : gmap string V) (uid now : string) :
  WebSocketMessage.to_json str (WebSocketMessage.from_json str d uid now)
  = <["type" := default (str "unknown") (d !! "type")]>
      (<["timestamp" := default (str now) (d !! "timestamp")]> d).
Proof.
  apply map_eq. intros k.
  unfold WebSocketMessage.to_json, WebSocketMessage.from_json. simpl.
  rewrite lookup_union.
  destruct (decide (k = "type")) as [->|Hty].
  - rewrite lookup_delete_eq, !lookup_insert_eq. done.
  - rewrite lookup_delete_ne by done. rewrite !(lookup_insert_ne _ "type") by done.
    destruct (decide (k = "timestamp")) as [->|Hts].
    + rewrite !lookup_insert_eq. by destruct (d !! "timestamp").
    + rewrite !lookup_insert_ne by done. rewrite lookup_empty. by destruct (d !! k).
Qed.

(** X24. An object that carries a type and a timestamp survives decoding
    followed by encoding unchanged. *)
Theorem to_json_from_json_round_trip (d : gmap string V) (uid now : string) :
  is_Some (d !! "type") → is_Some (d !! "timestamp") →
  WebSocketMessage.to_json str (WebSocketMessage.from_json str d uid now) = d.
Proof.
  intros [ty Hty] [ts Hts]. apply map_eq. intros k.
  unfold WebSocketMessage.to_json, WebSocketMessage.from_json. simpl.
  rewrite lookup_union, Hty. simpl.
  destruct (decide (k = "type")) as [->|Hk].
  - by rewrite lookup_delete_eq, lookup_insert_eq, Hty.
  - rewrite lookup_delete_ne by done. rewrite lookup_insert_ne by done.
    destruct (decide (k = "timestamp")) as [->|Hk'].
    + by rewrite lookup_insert_eq, Hts.
    + rewrite lookup_insert_ne by done. rewrite lookup_empty. by destruct (d !! k).
Qed.

End websocket_message.

Lemma to_json_from_json_round_trip_witness :
  WebSocketMessage.to_json id
    (WebSocketMessage.from_json id
       (<["type" := "offer"]> (<["timestamp" := "2024-01-01T00:00:00"]>
          (<["target_id" := "T"]> ∅)))
       "S" "2024-06-01T12:00:00")
  = <["type" := "offer"]> (<["timestamp" := "2024-01-01T00:00:00"]>
      (<["target_id" := "T"]> (∅ : gmap string string))).
Proof.
  apply (to_json_from_json_round_trip id); by vm_compute; eexists.
Defined.

(** ** Recording requests *)

Lemma send_to_user_same_membership (user_id : string) (message : Message) (st : State) :
  same_membership st (send_to_user user_id message st).1.
Proof.
  unfold send_to_user. destruct (get_user st user_id) as [u|]; [|done].
  destruct (WebSocket.closed (User.websocket u)); [done|].
  destruct (WebSocket.send_str message (User.websocket u)); [|done].
  by apply update_user_same_membership.
Qed.

Section recording_requests.
Variables (recording_started : string → string → Message)
          (recording_status_started : string → Message)
          (recording_stopped : RecordingSession.t → Message)
          (recording_status_stopped : RecordingSession.t → Message).

Local Abbreviation start_request := (handle_start_recording recording_started recording_status_started).
Local Abbreviation stop_request := (handle_stop_recording recording_stopped recording_status_stopped).

Lemma handle_start_recording_same_membership
    (user_id : string) (now : Z) (mkdir_raises : bool) (app : App) :
  same_membership (registries app) (registries (start_request user_id now mkdir_raises app).1).
Proof.
  unfold handle_start_recording, send_error.
  destruct (get_user (registries app) user_id) as [u|];
    [|apply send_to_user_same_membership].
  destruct (truthy (User.room_id u)); [|apply send_to_user_same_membership].
  destruct (User.room_id u) as [R|]; [|apply send_to_user_same_membership].
  destruct (start_recording R now mkdir_raises (registries app) (recordings app))
    as [rs1 [sid|[msg| | |]]]; simpl; try done.
  - eapply same_membership_trans;
      [apply send_to_user_same_membership|apply broadcast_to_room_same_membership].
  - apply send_to_user_same_membership.
Qed.

(** X25. A request to start or to stop a recording by a session that is
    not registered, or whose room reference is unset or empty, changes no
    recording and no room or room reference. *)
Theorem recording_request_outside_a_room_is_refused
    (user_id : string) (now : Z) (mkdir_raises : bool) (app : App) :
  (∀ u, get_user (registries app) user_id = Some u → truthy (User.room_id u) = false) →
  (start_request user_id now mkdir_raises app).2 = Returns () ∧
  recordings (start_request user_id now mkdir_raises app).1 = recordings app ∧
  recordings (stop_request user_id now app) = recordings app ∧
  same_membership (registries app) (registries (start_request user_id now mkdir_raises app).1) ∧
  same_membership (registries app) (registries (stop_request user_id now app)).
Proof.
  intros Hout. unfold handle_start_recording, handle_stop_recording, send_error.
  destruct (get_user (registries app) user_id) as [u|];
    [|split_and!; try done; apply send_to_user_same_membership].
  rewrite (Hout u eq_refl). split_and!; try done; apply send_to_user_same_membership.
Qed.

(** X26. A session whose room reference names a room that is not
    registered cannot start a recording: the request is answered with the
    error frame [Room R not found], written to the session when its socket
    is open, and no recording is changed. *)
Theorem start_request_for_unregistered_room_is_refused
    (user_id R : string) (u : User.t) (now : Z) (mkdir_raises : bool) (app : App) :
  get_user (registries app) user_id = Some u → User.room_id u = Some R → R ≠ "" →
  get_room (registries app) R = None →
  start_request user_id now mkdir_raises app
  = (mkApp (send_to_user user_id (MsgError ("Room " +:+ R +:+ " not found"))
              (registries app)).1
           (recordings app),
     Returns ()).
Proof.
  intros Hu HR Hne Hroom. unfold handle_start_recording. rewrite Hu, HR.
  rewrite (proj2 (truthy_Some R) Hne). unfold start_recording. by rewrite Hroom.
Qed.

(** X27. A recording started on the request of one member of a room is
    stopped by the request of any member of that room: afterwards the room
    has no active recording, and the history holds the recording under the
    room's session identifier, with the two clock readings and the status
    [stopped]. *)
Theorem recording_started_by_one_member_is_stopped_by_another
    (starter stopper R : string) (u v : User.t) (room : Room.t) (t0 t1 : Z) (app : App) :
  get_user (registries app) starter = Some u → User.room_id u = Some R →
  get_user (registries app) stopper = Some v → User.room_id v = Some R →
  R ≠ "" → get_room (registries app) R = Some room →
  _active_recordings (recordings app) !! R = None →
  let app1 := (start_request starter t0 false app).1 in
  let app2 := stop_request stopper t1 app1 in
  (start_request starter t0 false app).2 = Returns () ∧
  _active_recordings (recordings app1) !! R
  = Some (RecordingSession.mk (Room.session_id room) R t0 None [] "active") ∧
  _active_recordings (recordings app2) !! R = None ∧
  _recording_history (recordings app2) !! Room.session_id room
  = Some (RecordingSession.mk (Room.session_id room) R t0 (Some t1) [] "stopped").
Proof.
  intros Hu HuR Hv HvR Hne Hroom Hidle app1 app2.
  pose proof (handle_start_recording_same_membership starter t0 false app) as [_ Hmem].
  fold app1 in Hmem. specialize (Hmem stopper). rewrite Hv in Hmem. simpl in Hmem.
  assert (Hrec1 : (start_request starter t0 false app).2 = Returns () ∧
            recordings app1
            = mkRec (<[R := RecordingSession.mk (Room.session_id room) R t0 None [] "active"]>
                       (_active_recordings (recordings app)))
                    (_recording_history (recordings app))).
  { subst app1. unfold handle_start_recording. rewrite Hu, HuR.
    rewrite (proj2 (truthy_Some R) Hne). unfold start_recording. by rewrite Hroom, Hidle. }
  destruct Hrec1 as [Hret Hrec1]. split; [done|].
  split; [by rewrite Hrec1; simpl; rewrite lookup_insert_eq|].
  subst app2. unfold handle_stop_recording.
  destruct (get_user (registries app1) stopper) as [v1|]; [|done].
  simpl in Hmem. assert (User.room_id v1 = Some R) as -> by congruence.
  rewrite (proj2 (truthy_Some R) Hne). unfold stop_recording.
  rewrite Hrec1. simpl. rewrite lookup_insert_eq. simpl.
  by rewrite lookup_delete_eq, lookup_insert_eq.
Qed.

End recording_requests.

Lemma recording_request_outside_a_room_is_refused_witness :
  (handle_start_recording (λ _ _, MsgError "recording_started")
     (λ _, MsgError "recording_status") "S" 0 false
     (mkApp (add_connection "S" open_socket init_state).1 init_rec)).2 = Returns () ∧
  recordings (handle_start_recording (λ _ _, MsgError "recording_started")
     (λ _, MsgError "recording_status") "S" 0 false
     (mkApp (add_connection "S" open_socket init_state).1 init_rec)).1 = init_rec ∧
  recordings (handle_stop_recording (λ _, MsgError "recording_stopped")
     (λ _, MsgError "recording_status") "S" 0
     (mkApp (add_connection "S" open_socket init_state).1 init_rec)) = init_rec.
Proof.
  destruct (recording_request_outside_a_room_is_refused
              (λ _ _, MsgError "recording_started") (λ _, MsgError "recording_status")
              (λ _, MsgError "recording_stopped") (λ _, MsgError "recording_status")
              "S" 0 false (mkApp (add_connection "S" open_socket init_state).1 init_rec))
    as (H1 & H2 & H3 & _).
  - intros u. vm_compute. by intros [= <-].
  - exact (conj H1 (conj H2 H3)).
Defined.

Lemma start_request_for_unregistered_room_is_refused_witness :
  handle_start_recording (λ _ _, MsgError "recording_started")
    (λ _, MsgError "recording_status") "S" 0 false (mkApp rejoined_state init_rec)
  = (mkApp (send_to_user "S" (MsgError "Room R not found") rejoined_state).1 init_rec,
     Returns ()).
Proof.
  apply (start_request_for_unregistered_room_is_refused
           (λ _ _, MsgError "recording_started") (λ _, MsgError "recording_status")
           "S" "R" (User.mk "S" open_socket (Some "R") ∅) 0 false
           (mkApp rejoined_state init_rec)); by vm_compute.
Defined.

Lemma recording_started_by_one_member_is_stopped_by_another_witness :
  _active_recordings
    (recordings
       (handle_stop_recording (λ _, MsgError "recording_stopped")
          (λ _, MsgError "recording_status") "T" 10
          (handle_start_recording (λ _ _, MsgError "recording_started")
             (λ _, MsgError "recording_status") "S" 0 false
             (mkApp two_member_state init_rec)).1)) !! "R" = None ∧
  _recording_history
    (recordings
       (handle_stop_recording (λ _, MsgError "recording_stopped")
          (λ _, MsgError "recording_status") "T" 10
          (handle_start_recording (λ _ _, MsgError "recording_started")
             (λ _, MsgError "recording_status") "S" 0 false
             (mkApp two_member_state init_rec)).1)) !! "room-session-0"
  = Some (RecordingSession.mk "room-session-0" "R" 0 (Some 10%Z) [] "stopped").
Proof.
  destruct (recording_started_by_one_member_is_stopped_by_another
              (λ _ _, MsgError "recording_started") (λ _, MsgError "recording_status")
              (λ _, MsgError "recording_stopped") (λ _, MsgError "recording_status")
              "S" "T" "R" (User.mk "S" open_socket (Some "R") ∅)
              (User.mk "T" open_socket (Some "R") ∅)
              (Room.mk "R" ["S"; "T"] 5 "room-session-0") 0 10
              (mkApp two_member_state init_rec)
              ltac:(by vm_compute) ltac:(by vm_compute) ltac:(by vm_compute)
              ltac:(by vm_compute) ltac:(by vm_compute) ltac:(by vm_compute)
              ltac:(by vm_compute))
    as (_ & _ & H3 & H4).
  exact (conj H3 H4).
Defined.
